(** * OpenRouter proxy: request dispatch, rate-limit recognizers and failover

    A shallow embedding of [src/utils.py] and [src/routes.py].

    - Python [str] values are [string]s; the names and values of the
      inbound headers are latin-1 decoded, so one character is one byte.
      The headers of an upstream answer are kept as the bytes received:
      httpx chooses how to decode them, and Starlette encodes what it
      sends as latin-1.
    - Python objects obtained from JSON are values of [JSON].
    - Code that raises is written in a state-and-exception monad over a
      [World] that holds the key pool and the history of calls to the
      collaborators (access check, key manager, upstream).
    - [constants.py], [config.py], the JSON codec and the upstream are
      fields of an environment [Env]. *)

From Stdlib Require Import String Ascii List ZArith Bool Lia DecimalString.
Import ListNotations.
Local Open Scope string_scope.
Local Open Scope Z_scope.

Set Implicit Arguments.
Set Warnings "-register-all".

(** ** Python string operations *)

Module PyStr.

(** [c.lower()] on one latin-1 character, ASCII range.  The letters
    above U+007F never lower to an ASCII letter, so comparisons of a
    lowered string with an ASCII literal are decided by the ASCII part.
    In text beyond latin-1 only the Kelvin sign and the dotted capital I
    lower to something that holds an ASCII letter, k and i followed by a
    combining dot; neither can complete one of the literals searched
    for in lowered text here. *)
Definition lower_ascii (c : ascii) : ascii :=
  let n := nat_of_ascii c in
  if (Nat.leb 65 n && Nat.leb n 90)%bool then ascii_of_nat (n + 32) else c.

(** [s.lower()] *)
Fixpoint lower (s : string) : string :=
  match s with
  | EmptyString => EmptyString
  | String c t => String (lower_ascii c) (lower t)
  end.

(** [s.startswith(p)] *)
Definition startswith (s p : string) : bool := String.prefix p s.

(** [needle in hay] for two strings. *)
Fixpoint contains (needle hay : string) : bool :=
  String.prefix needle hay
  || match hay with
     | EmptyString => false
     | String _ t => contains needle t
     end.

(** [s.partition(" ")]: the text before the first space, the separator
    (empty when there is none) and the text after it. *)
Fixpoint partition_space (s : string) : string * string * string :=
  match s with
  | EmptyString => (EmptyString, EmptyString, EmptyString)
  | String c t =>
      if Ascii.eqb c " "%char then (EmptyString, " ", t)
      else let '(a, sep, b) := partition_space t in (String c a, sep, b)
  end.

(** [s.replace(old, empty)] for a non-empty [old]: [skip] characters of
    a match found earlier are still to be dropped. *)
Fixpoint remove_go (old : string) (skip : nat) (s : string) : string :=
  match s with
  | EmptyString => EmptyString
  | String c t =>
      match skip with
      | S k => remove_go old k t
      | O =>
          if String.prefix old s
          then remove_go old (String.length old - 1) t
          else String c (remove_go old 0 t)
      end
  end.

Definition remove (old s : string) : string := remove_go old 0 s.

(** [sep.join(l)] *)
Fixpoint join (sep : string) (l : list string) : string :=
  match l with
  | [] => EmptyString
  | [x] => x
  | x :: t => x ++ sep ++ join sep t
  end.

(** [s in l] for a list of strings. *)
Definition mem (s : string) (l : list string) : bool :=
  existsb (String.eqb s) l.

(** [str(n)] for an int. *)
Definition of_Z (n : Z) : string := NilZero.string_of_int (Z.to_int n).

End PyStr.

(** ** Python values *)

(** A [dict] with [str] keys, in insertion order. *)
Definition dict (V : Type) := list (string * V).

Fixpoint dict_get {V} (k : string) (d : dict V) : option V :=
  match d with
  | [] => None
  | (k', v) :: t => if String.eqb k k' then Some v else dict_get k t
  end.

Definition dict_mem {V} (k : string) (d : dict V) : bool :=
  match dict_get k d with Some _ => true | None => false end.

(** [d[k] = v]: the value is replaced in place, a new key goes last. *)
Fixpoint dict_set {V} (k : string) (v : V) (d : dict V) : dict V :=
  match d with
  | [] => [(k, v)]
  | (k', v') :: t =>
      if String.eqb k k' then (k', v) :: t else (k', v') :: dict_set k v t
  end.

(** [del d[k]] / [d.pop(k)] for a key that is present. *)
Definition dict_del {V} (k : string) (d : dict V) : dict V :=
  filter (fun kv => negb (String.eqb k (fst kv))) d.

(** [{k: v for k, v in items if keep(k)}] *)
Definition dict_of_items {V} (keep : string -> bool) (items : list (string * V))
  : dict V :=
  fold_left (fun d kv => if keep (fst kv) then dict_set (fst kv) (snd kv) d else d)
            items [].

(** A Python [float]: a dyadic [m * 2^e], an infinity or a NaN.  No float
    arithmetic is performed by the program, only comparison with an [int]
    and truncation. *)
Inductive pyfloat :=
| FFinite (m e : Z)
| FInf (negative : bool)
| FNan.

(** What [json.loads] builds. *)
Inductive JSON :=
| JNull
| JBool (b : bool)
| JInt (z : Z)
| JFloat (f : pyfloat)
| JStr (s : string)
| JArr (l : list JSON)
| JObj (o : list (string * JSON)).

(** ** Exceptions *)

Inductive PyClass :=
| AttributeError | KeyError | TypeError | ValueError | OverflowError
| RuntimeError
| UnicodeEncodeError.                  (* a subclass of ValueError *)

(** [openai.APIError]: the fields read by [check_rate_limit_openai]. *)
Record APIErr := {
  err_code : JSON;
  err_body : JSON;
  err_message : string
}.

Inductive exn :=
| HTTPException (status_code : Z) (detail : string)
| ConnectError (text : string)        (* httpx.ConnectError *)
| TimeoutException (text : string)    (* httpx.TimeoutException *)
| APIError (err : APIErr)
| PyError (cls : PyClass) (text : string).

(** [str(e)].  An [HTTPException] prints as [status: detail]; the others
    print their message. *)
Definition str_exn (e : exn) : string :=
  match e with
  | HTTPException st d => PyStr.of_Z st ++ ": " ++ d
  | ConnectError t => t
  | TimeoutException t => t
  | APIError a => err_message a
  | PyError _ t => t
  end.

(** The outcome of running Python code: a value or a raised exception. *)
Inductive Res (A : Type) :=
| Ok (a : A)
| Raise (e : exn).
Arguments Ok {A} a.
Arguments Raise {A} e.

Definition rbind {A B} (r : Res A) (f : A -> Res B) : Res B :=
  match r with
  | Ok a => f a
  | Raise e => Raise e
  end.

(** [try: r except cls...: h] *)
Definition rcatch {A} (r : Res A) (handles : exn -> bool) (h : exn -> Res A)
  : Res A :=
  match r with
  | Ok a => Ok a
  | Raise e => if handles e then h e else Raise e
  end.

Declare Scope res_scope.
Delimit Scope res_scope with res.
Notation "x <- r ;; k" := (rbind r (fun x => k))
  (at level 61, r at next level, right associativity) : res_scope.

(** [except Exception] *)
Definition is_Exception (_ : exn) : bool := true.

(** [except (ValueError, TypeError)] *)
Definition is_ValueError_or_TypeError (e : exn) : bool :=
  match e with
  | PyError ValueError _ | PyError TypeError _
  | PyError UnicodeEncodeError _ => true
  | _ => false
  end.

(** ** Operations on Python values *)

Module Py.

(** [bool(v)] *)
Definition truthy (v : JSON) : bool :=
  match v with
  | JNull => false
  | JBool b => b
  | JInt z => negb (z =? 0)
  | JFloat (FFinite m _) => negb (m =? 0)
  | JFloat _ => true
  | JStr s => negb (String.eqb s EmptyString)
  | JArr l => match l with [] => false | _ => true end
  | JObj o => match o with [] => false | _ => true end
  end.

(** [f == c] for a float and an int; Python compares the exact values. *)
Definition float_eq_int (f : pyfloat) (c : Z) : bool :=
  match f with
  | FFinite m e => if 0 <=? e then m * 2 ^ e =? c else m =? c * 2 ^ (- e)
  | _ => false
  end.

(** [v == c] for an int [c]. *)
Definition eq_int (v : JSON) (c : Z) : bool :=
  match v with
  | JInt z => z =? c
  | JBool b => (if b then 1 else 0) =? c
  | JFloat f => float_eq_int f c
  | _ => false
  end.

(** [v == s] for a str [s]. *)
Definition eq_str (v : JSON) (s : string) : bool :=
  match v with
  | JStr t => String.eqb t s
  | _ => false
  end.

(** [v.get(k, default)] *)
Definition get (v : JSON) (k : string) (default : JSON) : Res JSON :=
  match v with
  | JObj o => Ok (match dict_get k o with Some x => x | None => default end)
  | _ => Raise (PyError AttributeError "object has no attribute 'get'")
  end.

(** [v[k]] for a str [k]. *)
Definition subscript (v : JSON) (k : string) : Res JSON :=
  match v with
  | JObj o =>
      match dict_get k o with
      | Some x => Ok x
      | None => Raise (PyError KeyError k)
      end
  | _ => Raise (PyError TypeError "bad subscript")
  end.

(** [k in v] for a str [k]. *)
Definition contains (k : string) (v : JSON) : Res bool :=
  match v with
  | JObj o => Ok (dict_mem k o)
  | JArr l => Ok (existsb (fun x => eq_str x k) l)
  | JStr s => Ok (PyStr.contains k s)
  | _ => Raise (PyError TypeError "argument is not iterable")
  end.

(** [isinstance(v, dict)] *)
Definition is_dict (v : JSON) : bool :=
  match v with JObj _ => true | _ => false end.

Section Int.
(** [int(s)] for a str: the parsed value, or nothing for a
    [ValueError]. *)
Variable int_of_str : string -> option Z.

(** [int(v)] *)
Definition int (v : JSON) : Res Z :=
  match v with
  | JInt z => Ok z
  | JBool b => Ok (if b then 1 else 0)
  | JFloat (FFinite m e) =>
      Ok (if 0 <=? e then m * 2 ^ e else Z.quot m (2 ^ (- e)))
  | JFloat (FInf _) =>
      Raise (PyError OverflowError "cannot convert float infinity to integer")
  | JFloat FNan =>
      Raise (PyError ValueError "cannot convert float NaN to integer")
  | JStr s =>
      match int_of_str s with
      | Some z => Ok z
      | None => Raise (PyError ValueError "invalid literal for int()")
      end
  | _ => Raise (PyError TypeError "int() argument must be a string or a number")
  end.
End Int.

End Py.

(** ** Requests, responses and the collaborators *)

(** The inbound [fastapi.Request]. *)
Record Request := {
  req_method : string;                       (* request.method *)
  req_path : string;                         (* the {path} parameter *)
  req_headers : list (string * string);      (* request.headers.items() *)
  req_body : string;                         (* await request.body() *)
  req_query_params : list (string * string); (* request.query_params *)
  req_url_query : string                     (* request.url.query *)
}.

(** The keyword arguments [req_kwargs] of [client.request]. *)
Record HttpxRequest := {
  hx_method : string;
  hx_url : string;
  hx_headers : dict string;
  hx_content : string
}.

(** An [httpx.Response], read to the end.  [resp_headers] are the header
    lines as received ([headers.raw]): the names are tokens, hence ASCII,
    since httpx's parser refuses an answer with any other name; the
    values are any bytes. *)
Record HttpxResponse := {
  resp_status_code : Z;
  resp_headers : list (string * string);
  resp_content : string
}.

(** One call of [client.chat.completions.create]: the key the client was
    built with and the keyword arguments. *)
Record ChatCall := {
  chat_api_key : string;
  chat_args : dict JSON;
  chat_extra_headers : dict string;
  chat_extra_body : dict JSON;
  chat_stream : bool
}.

(** A streamed chunk: [chunk.choices] and [chunk.model_dump()]. *)
Record Chunk := {
  chunk_choices : list JSON;
  chunk_model_dump : JSON
}.

(** The upstream stream as the [async for] sees it: chunks, then the end
    of the stream or an exception. *)
Inductive UpStream :=
| SNext (c : Chunk) (rest : UpStream)
| SEnd
| SFail (e : exn).

(** What the program asks of its collaborators, in order. *)
Inductive Event :=
| EvVerify (authorization : option string)
| EvGetNextKey
| EvDisableKey (key : string) (reset_time_ms : option Z)
| EvHttpx (r : HttpxRequest)
| EvChat (c : ChatCall).

(** [constants.py], [config.py], the library functions and the upstream.
    The upstream and the clock answer from the history of the calls made
    so far. *)
Class Env := {
  RATE_LIMIT_ERROR_CODE : Z;
  RATE_LIMIT_ERROR_MESSAGE : string;
  OPENROUTER_BASE_URL : string;
  PUBLIC_ENDPOINTS : list string;
  BINARY_ENDPOINTS : list string;
  config_access_key : string;            (* config["server"]["access_key"] *)
  json_loads : string -> option JSON;    (* nothing: the text does not parse *)
  json_dumps : JSON -> string;
  int_of_str : string -> option Z;       (* int(s), nothing: ValueError *)
  aiter_lines : HttpxResponse -> list string;
  now_ms : list Event -> Z;
  httpx_request : list Event -> HttpxRequest -> Res HttpxResponse;
  chat_create : list Event -> ChatCall -> Res JSON;
      (* the completion, as response.model_dump() *)
  chat_create_stream : list Event -> ChatCall -> Res UpStream
}.

(** ** The key pool *)

(** Modelled from the spec: [key_manager.py] ([KeyManager]) is not among
    the sources.  Section 3 and 4.1 of the specification give the data and
    the two operations.  A key is Available when [coolingUntil] is [None]. *)
Record ApiKey := {
  secret : string;
  coolingUntil : option Z
}.

(** Modelled from the spec: how [acquire] reports [NoKeyAvailable] to its
    Python caller is not fixed by the specification; [routes.py] tests the
    returned key for falsity, and a coroutine may also raise. *)
Inductive ExhaustedSignal :=
| RaisesNoKeyAvailable
| ReturnsNone.

(** Modelled from the spec: the pool of section 3, an ordered sequence of
    keys, a rotation cursor and the default cooldown. *)
Record KeyPool := {
  pool_keys : list ApiKey;
  pool_cursor : nat;
  pool_cooldown_ms : Z;
  pool_exhausted : ExhaustedSignal
}.

Module KeyManager.

(** Modelled from the spec: a Cooling key whose [coolingUntil] has passed
    is Available again. *)
Definition reactivate (now : Z) (k : ApiKey) : ApiKey :=
  match coolingUntil k with
  | Some t => if t <=? now then {| secret := secret k; coolingUntil := None |} else k
  | None => k
  end.

Definition available (k : ApiKey) : bool :=
  match coolingUntil k with None => true | Some _ => false end.

(** Modelled from the spec: [acquire] of section 4.1.  Keys are
    reactivated lazily, the next Available key from the cursor on is
    selected in round-robin order, and the cursor advances by one
    position modulo the length. *)
Definition acquire (now : Z) (p : KeyPool) : option string * KeyPool :=
  let ks := map (reactivate now) (pool_keys p) in
  let rotated := (skipn (pool_cursor p) ks ++ firstn (pool_cursor p) ks)%list in
  (option_map secret (find available rotated),
   {| pool_keys := ks;
      pool_cursor := Nat.modulo (S (pool_cursor p)) (length ks);
      pool_cooldown_ms := pool_cooldown_ms p;
      pool_exhausted := pool_exhausted p |}).

(** Modelled from the spec: [disable] of section 4.1.  The key is found
    by its secret; the last write of [coolingUntil] wins. *)
Definition disable (now : Z) (key : string) (reset : option Z) (p : KeyPool)
  : KeyPool :=
  let until := match reset with Some t => t | None => now + pool_cooldown_ms p end in
  {| pool_keys :=
       map (fun k => if String.eqb (secret k) key
                     then {| secret := secret k; coolingUntil := Some until |}
                     else k)
           (pool_keys p);
     pool_cursor := pool_cursor p;
     pool_cooldown_ms := pool_cooldown_ms p;
     pool_exhausted := pool_exhausted p |}.

End KeyManager.

(** ** The world and the monad of the handlers *)

Record World := {
  pool : KeyPool;
  history : list Event     (* oldest first *)
}.

(** State and exceptions: the state survives a raised exception. *)
Definition M (A : Type) := World -> Res A * World.

Definition ret {A} (a : A) : M A := fun w => (Ok a, w).

Definition raise {A} (e : exn) : M A := fun w => (Raise e, w).

Definition bind {A B} (m : M A) (f : A -> M B) : M B :=
  fun w =>
    match m w with
    | (Ok a, w') => f a w'
    | (Raise e, w') => (Raise e, w')
    end.

(** [try: m except <handles> as e: h e] *)
Definition try_except {A} (m : M A) (handles : exn -> bool) (h : exn -> M A)
  : M A :=
  fun w =>
    match m w with
    | (Ok a, w') => (Ok a, w')
    | (Raise e, w') => if handles e then h e w' else (Raise e, w')
    end.

Definition lift {A} (r : Res A) : M A := fun w => (r, w).

Definition emit (ev : Event) : M unit :=
  fun w => (Ok tt, {| pool := pool w; history := (history w ++ [ev])%list |}).

Declare Scope monad_scope.
Delimit Scope monad_scope with M.
Notation "x <- m ;; k" := (bind m (fun x => k))
  (at level 61, m at next level, right associativity) : monad_scope.
Notation "m ;;; k" := (bind m (fun _ => k))
  (at level 61, right associativity) : monad_scope.

(** Computations that may not finish within the recursion budget. *)
Definition MP (A : Type) := World -> option (Res A * World).

Definition liftP {A} (m : M A) : MP A := fun w => Some (m w).

Definition try_exceptP {A} (m : MP A) (handles : exn -> bool) (h : exn -> MP A)
  : MP A :=
  fun w =>
    match m w with
    | None => None
    | Some (Ok a, w') => Some (Ok a, w')
    | Some (Raise e, w') => if handles e then h e w' else Some (Raise e, w')
    end.

Definition bindP {A B} (m : M A) (f : A -> MP B) : MP B :=
  fun w =>
    match m w with
    | (Ok a, w') => f a w'
    | (Raise e, w') => Some (Raise e, w')
    end.

Definition nl : string := String (ascii_of_nat 10) EmptyString.

(** [bool(s)] for an optional str. *)
Definition truthy_key (k : option string) : bool :=
  match k with
  | Some s => negb (String.eqb s EmptyString)
  | None => false
  end.

(** How an f-string prints an optional str. *)
Definition fmt_key (k : option string) : string :=
  match k with
  | Some s => s
  | None => "None"
  end.

(** ** utils.py *)

Module Utils.

(** [verify_access_key] *)
Definition verify_access_key (authorization : option string)
           (access_key : option string) : Res bool :=
  match authorization with
  | None => Raise (HTTPException 401 "Authorization header missing")
  | Some a =>
      if String.eqb a EmptyString
      then Raise (HTTPException 401 "Authorization header missing")
      else
        let '(scheme, _, token) := PyStr.partition_space a in
        if negb (String.eqb (PyStr.lower scheme) "bearer")
        then Raise (HTTPException 401 "Invalid authentication scheme")
        else
          if match access_key with
             | Some k => negb (String.eqb token k)
             | None => true
             end
          then Raise (HTTPException 401 "Invalid access key")
          else Ok true
  end.

(** [response.headers.get(name, default)]: httpx looks the name up
    without regard to case and joins repeated values. *)
Definition headers_get (hs : list (string * string)) (name default : string)
  : string :=
  match filter (fun kv => String.eqb (PyStr.lower (fst kv)) (PyStr.lower name)) hs with
  | [] => default
  | l => PyStr.join ", " (map snd l)
  end.

Section WithEnv.
Context {env : Env}.

(** [response.json()] *)
Definition response_json (response : HttpxResponse) : Res JSON :=
  match json_loads (resp_content response) with
  | Some data => Ok data
  | None => Raise (PyError ValueError "JSONDecodeError")
  end.

(** [int(err.body["metadata"]["headers"]["X-RateLimit-Reset"])] *)
Definition reset_of_body (body : JSON) : Res Z :=
  (m <- Py.subscript body "metadata" ;;
   h <- Py.subscript m "headers" ;;
   x <- Py.subscript h "X-RateLimit-Reset" ;;
   Py.int int_of_str x)%res.

(** [check_rate_limit_openai]: the pair
    [(has_rate_limit_error, reset_time_ms)]. *)
Definition check_rate_limit_openai (err : APIErr) : bool * option Z :=
  let '(has_rate_limit_error, reset_time_ms) :=
    if Py.eq_int (err_code err) RATE_LIMIT_ERROR_CODE
       && Py.is_dict (err_body err)
    then
      match reset_of_body (err_body err) with
      | Ok n => (true, Some n)
      | Raise _ => (false, None)           (* except Exception: pass *)
      end
    else (false, None)
  in
  if match reset_time_ms with None => true | Some _ => false end
     && PyStr.contains RATE_LIMIT_ERROR_MESSAGE (err_message err)
  then (true, reset_time_ms)
  else (has_rate_limit_error, reset_time_ms).

(** The condition of the outer [if] of [check_rate_limit_error]. *)
Definition error_matches (data : JSON) : Res bool :=
  (e <- Py.get data "error" (JObj []) ;;
   st <- Py.get e "status" (JStr EmptyString) ;;
   if Py.eq_int st RATE_LIMIT_ERROR_CODE
   then
     e' <- Py.get data "error" (JObj []) ;;
     msg <- Py.get e' "message" (JStr EmptyString) ;;
     Ok (Py.eq_str msg RATE_LIMIT_ERROR_MESSAGE)
   else Ok false)%res.

(** The condition of the inner [if]. *)
Definition reset_header_present (data : JSON) : Res bool :=
  (e <- Py.get data "error" (JObj []) ;;
   m <- Py.get e "metadata" (JObj []) ;;
   h <- Py.get m "headers" (JObj []) ;;
   Py.contains "X-RateLimit-Reset" h)%res.

(** [int(data["error"]["metadata"]["headers"]["X-RateLimit-Reset"])] *)
Definition reset_of_data (data : JSON) : Res Z :=
  (e <- Py.subscript data "error" ;;
   reset_of_body e)%res.

(** [check_rate_limit_error].  The two variables are assigned before
    the statements that may raise, so each handler returns what was
    assigned so far. *)
Definition check_rate_limit_error (response : HttpxResponse)
  : bool * option Z :=
  let content_type := headers_get (resp_headers response) "content-type" EmptyString in
  if PyStr.contains "application/json" content_type
  then
    match response_json response with
    | Raise _ => (false, None)
    | Ok data =>
        match error_matches data with
        | Raise _ => (false, None)
        | Ok false => (false, None)
        | Ok true =>
            match reset_header_present data with
            | Raise _ => (true, None)
            | Ok false => (true, None)
            | Ok true =>
                match rcatch (n <- reset_of_data data ;; Ok (Some n))%res
                             is_ValueError_or_TypeError
                             (fun _ => Ok None) with
                | Ok reset_time_ms => (true, reset_time_ms)
                | Raise _ => (true, None)
                end
            end
        end
    end
  else (false, None).

End WithEnv.

End Utils.

(** ** routes.py *)

(** The generator handed to a [StreamingResponse]; it runs when the
    response is sent. *)
Inductive Body :=
| ChatStream (api_key : string) (up : UpStream)   (* stream_response() *)
| BinaryStream (resp : HttpxResponse)             (* stream_binary() *)
| SSEStream (resp : HttpxResponse).               (* stream_sse() *)

Inductive Response :=
| PlainResponse (content : string) (status : Z) (headers : dict string)
                (media_type : option string)
| StreamingResponse (body : Body) (status : Z) (headers : dict string)
                    (media_type : option string).

Definition response_status (r : Response) : Z :=
  match r with
  | PlainResponse _ st _ _ => st
  | StreamingResponse _ st _ _ => st
  end.

(** The status the caller sees: that of the response, or that of the
    [HTTPException] the framework turns into a response; any other
    exception is an internal server error. *)
Definition surfaced_status (r : Res Response) : Z :=
  match r with
  | Ok resp => response_status resp
  | Raise (HTTPException st _) => st
  | Raise _ => 500
  end.

Definition sse_headers : dict string :=
  [("Cache-Control", "no-cache"); ("Connection", "keep-alive");
   ("X-Accel-Buffering", "no")].

(** [dict(response.headers)] for httpx headers: lowered names, repeated
    values joined. *)
Definition httpx_headers_dict (hs : list (string * string)) : dict string :=
  fold_left
    (fun d kv =>
       let k := PyStr.lower (fst kv) in
       match dict_get k d with
       | Some v => dict_set k (v ++ ", " ++ snd kv) d
       | None => dict_set k (snd kv) d
       end)
    hs [].

(** ** The text of the upstream headers

    httpx decodes the header bytes of an answer as ASCII when all of them
    are ASCII, else as UTF-8 when all of them are valid UTF-8, else as
    latin-1 ([Headers.encoding]).  Starlette encodes the names and values
    of the headers given to a [Response] as latin-1
    ([Response.init_headers]), which raises [UnicodeEncodeError] on a
    character above U+00FF. *)
Module Codec.

Definition byte (c : ascii) : Z := Z.of_nat (nat_of_ascii c).

Fixpoint is_ascii (s : string) : bool :=
  match s with
  | EmptyString => true
  | String c t => (byte c <? 128) && is_ascii t
  end.

(** The payload of a continuation byte [10xxxxxx]. *)
Definition continuation (c : ascii) : option Z :=
  let b := byte c in
  if (128 <=? b) && (b <=? 191) then Some (b - 128) else None.

(** [bytes.decode("utf-8")]: the code points, or nothing for a
    [UnicodeDecodeError].  The decoder is strict: no overlong form, no
    surrogate, nothing above U+10FFFF. *)
Fixpoint utf8_decode (s : string) : option (list Z) :=
  match s with
  | EmptyString => Some []
  | String c0 t0 =>
      let b0 := byte c0 in
      if b0 <? 128 then option_map (cons b0) (utf8_decode t0)
      else if (194 <=? b0) && (b0 <=? 223) then
        match t0 with
        | String c1 t1 =>
            match continuation c1 with
            | Some x1 =>
                option_map (cons ((b0 - 192) * 64 + x1)) (utf8_decode t1)
            | None => None
            end
        | EmptyString => None
        end
      else if (224 <=? b0) && (b0 <=? 239) then
        match t0 with
        | String c1 (String c2 t2) =>
            match continuation c1, continuation c2 with
            | Some x1, Some x2 =>
                let cp := (b0 - 224) * 4096 + x1 * 64 + x2 in
                if (2048 <=? cp) && negb ((55296 <=? cp) && (cp <=? 57343))
                then option_map (cons cp) (utf8_decode t2)
                else None
            | _, _ => None
            end
        | _ => None
        end
      else if (240 <=? b0) && (b0 <=? 244) then
        match t0 with
        | String c1 (String c2 (String c3 t3)) =>
            match continuation c1, continuation c2, continuation c3 with
            | Some x1, Some x2, Some x3 =>
                let cp := (b0 - 240) * 262144 + x1 * 4096 + x2 * 64 + x3 in
                if (65536 <=? cp) && (cp <=? 1114111)
                then option_map (cons cp) (utf8_decode t3)
                else None
            | _, _, _ => None
            end
        | _ => None
        end
      else None
  end.

Definition is_utf8 (s : string) : bool :=
  match utf8_decode s with Some _ => true | None => false end.

(** [s.encode("latin-1")] for a str given by its code points: nothing
    for a [UnicodeEncodeError]. *)
Fixpoint latin1_encode (cps : list Z) : option string :=
  match cps with
  | [] => Some EmptyString
  | cp :: t =>
      if cp <=? 255
      then option_map (String (ascii_of_nat (Z.to_nat cp))) (latin1_encode t)
      else None
  end.

Inductive Encoding := ASCII | UTF8 | Latin1.

(** [Headers.encoding] *)
Definition encoding_of (hs : list (string * string)) : Encoding :=
  if forallb (fun kv => is_ascii (fst kv) && is_ascii (snd kv)) hs then ASCII
  else if forallb (fun kv => is_utf8 (fst kv) && is_utf8 (snd kv)) hs then UTF8
  else Latin1.

(** A header value decoded as UTF-8 by httpx and encoded as latin-1 by
    Starlette. *)
Definition transcode (v : string) : Res string :=
  match utf8_decode v with
  | Some cps =>
      match latin1_encode cps with
      | Some t => Ok t
      | None =>
          (* the text of the exception, without the character and its
             position *)
          Raise (PyError UnicodeEncodeError
                   "'latin-1' codec can't encode character")
      end
  | None => Ok v
  end.

Fixpoint transcode_all (hs : list (string * string))
  : Res (list (string * string)) :=
  match hs with
  | [] => Ok []
  | (k, v) :: t =>
      (v' <- transcode v ;;
       t' <- transcode_all t ;;
       Ok ((k, v') :: t'))%res
  end.

(** The [headers] of [Response(..., headers=dict(response.headers))], as
    the bytes Starlette stores: those received when httpx decoded them as
    ASCII or latin-1, the latin-1 form of the UTF-8 text otherwise. *)
Definition response_headers (hs : list (string * string))
  : Res (dict string) :=
  match encoding_of hs with
  | UTF8 => (hs' <- transcode_all hs ;; Ok (httpx_headers_dict hs'))%res
  | _ => Ok (httpx_headers_dict hs)
  end.

End Codec.

Module Routes.

Section WithEnv.
Context {env : Env}.

(** *** The collaborators, with their calls recorded *)

Definition verify_access_key (authorization : option string) : M bool :=
  (emit (EvVerify authorization) ;;;
   lift (Utils.verify_access_key authorization (Some config_access_key)))%M.

(** [key_manager.get_next_key()] *)
Definition get_next_key : M (option string) :=
  fun w =>
    let '(k, p') := KeyManager.acquire (now_ms (history w)) (pool w) in
    let w' := {| pool := p'; history := (history w ++ [EvGetNextKey])%list |} in
    match k, pool_exhausted (pool w) with
    | Some s, _ => (Ok (Some s), w')
    | None, ReturnsNone => (Ok None, w')
    | None, RaisesNoKeyAvailable =>
        (Raise (HTTPException 503 "No available API keys"), w')
    end.

(** [key_manager.disable_key(key, reset_time_ms)] *)
Definition disable_key (key : string) (reset_time_ms : option Z) : M unit :=
  fun w =>
    (Ok tt,
     {| pool := KeyManager.disable (now_ms (history w)) key reset_time_ms (pool w);
        history := (history w ++ [EvDisableKey key reset_time_ms])%list |}).

(** [client.request] with the keyword arguments [r]. *)
Definition client_request (r : HttpxRequest) : M HttpxResponse :=
  fun w =>
    (httpx_request (history w) r,
     {| pool := pool w; history := (history w ++ [EvHttpx r])%list |}).

(** [client.chat.completions.create(...)].  The oracle stands for the
    SDK and the upstream behind it, so it also answers for arguments the
    SDK refuses. *)
Definition create (c : ChatCall) : M JSON :=
  fun w =>
    (chat_create (history w) c,
     {| pool := pool w; history := (history w ++ [EvChat c])%list |}).

(** [client.chat.completions.create(..., stream=True)] *)
Definition create_stream (c : ChatCall) : M UpStream :=
  fun w =>
    (chat_create_stream (history w) c,
     {| pool := pool w; history := (history w ++ [EvChat c])%list |}).

(** *** Classification *)

Definition any_prefix (path : string) (endpoints : list string) : bool :=
  existsb (fun ep => PyStr.startswith ("/api/v1" ++ path) ep) endpoints.

Definition is_public (path : string) : bool := any_prefix path PUBLIC_ENDPOINTS.
Definition is_binary (path : string) : bool := any_prefix path BINARY_ENDPOINTS.

(** The [authorization] parameter, [request.headers.get] of the
    lowered name: the value of the first header stored under it. *)
Definition authorization_of (req : Request) : option string :=
  option_map snd
    (find (fun kv => String.eqb (fst kv) "authorization") (req_headers req)).

(** The model-variant check made for a POST to a chat-completion path;
    it only logs, but its statements may raise. *)
Definition model_variant_check (request_body : JSON) : Res unit :=
  (model <- Py.get request_body "model" (JStr EmptyString) ;;
   has_colon <- Py.contains ":" model ;;
   if has_colon
   then match model with
        | JStr _ => Ok tt                       (* model.split(":", 1) *)
        | _ => Raise (PyError AttributeError "object has no attribute 'split'")
        end
   else Ok tt)%res.

(** The body-parsing block of [proxy_endpoint]: the final values of
    [request_body] and [is_stream]. *)
Definition parse_body (req : Request) : option (dict JSON) * JSON :=
  if String.eqb (req_body req) EmptyString
  then (None, JBool false)
  else
    match json_loads (req_body req) with
    | None => (None, JBool false)
    | Some request_body =>
        match request_body, Py.get request_body "stream" (JBool false) with
        | JObj o, Ok is_stream =>
            if PyStr.contains "/chat/completions" (req_path req)
               && String.eqb (req_method req) "POST"
            then
              match model_variant_check request_body with
              | Ok _ => (Some o, is_stream)
              | Raise _ => (None, is_stream)
              end
            else (Some o, is_stream)
        | _, _ => (None, JBool false)
        end
    end.

(** The test that sends a request to [proxy_with_httpx]. *)
Definition goes_raw (path : string) : bool :=
  is_binary path
  || PyStr.contains "/models" path
  || negb (PyStr.contains "/chat/completions" path).

(** *** The structured path *)

(** The frame of one chunk. *)
Definition frame (c : Chunk) : string :=
  "data: " ++ json_dumps (chunk_model_dump c) ++ nl ++ nl.

Definition done_frame : string := "data: [DONE]" ++ nl ++ nl.

(** ["rate limit" in str(e).lower() and api_key] *)
Definition looks_rate_limited (e : exn) (api_key : string) : bool :=
  PyStr.contains "rate limit" (PyStr.lower (str_exn e))
  && negb (String.eqb api_key EmptyString).

(** [stream_response]: the frames yielded, in order. *)
Fixpoint stream_response (api_key : string) (up : UpStream) : M (list string) :=
  match up with
  | SNext chunk rest =>
      (frames <- stream_response api_key rest ;;
       ret (match chunk_choices chunk with
            | [] => frames
            | _ => frame chunk :: frames
            end))%M
  | SEnd => ret [done_frame]
  | SFail e =>
      if looks_rate_limited e api_key
      then (disable_key api_key None ;;; ret [])%M
      else ret []
  end.

(** The loop that moves the parameters the SDK does not know into
    [extra_body]. *)
Definition split_unsupported (completion_args : dict JSON)
  : dict JSON * dict JSON :=
  fold_left
    (fun '(args, extra) param =>
       match dict_get param args with
       | Some v => (dict_del param args, dict_set param v extra)
       | None => (args, extra)
       end)
    ["include_reasoning"; "transforms"; "route"]
    (completion_args, []).

Definition forward_headers (req : Request) : dict string :=
  dict_of_items (fun k => PyStr.mem (PyStr.lower k) ["http-referer"; "x-title"])
                (req_headers req).

(** The call made for a parsed body. *)
Definition chat_call (api_key : string) (req : Request)
           (request_body : dict JSON) (stream : bool) : ChatCall :=
  let '(args, extra_body) := split_unsupported request_body in
  {| chat_api_key := api_key;
     chat_args := dict_del "stream" args;
     chat_extra_headers := forward_headers req;
     chat_extra_body := extra_body;
     chat_stream := stream |}.

(** The call spreads [completion_args] next to the keywords
    [extra_headers] and [extra_body]: a body that holds one of these
    names gives a keyword twice, and Python raises [TypeError] before
    [create] is entered. *)
Definition keyword_collision (completion_args : dict JSON) : option string :=
  if dict_mem "extra_headers" completion_args then Some "extra_headers"
  else if dict_mem "extra_body" completion_args then Some "extra_body"
  else None.

(** The [try] block of [handle_chat_completions]. *)
Definition chat_attempt (api_key : string) (req : Request)
           (request_body : option (dict JSON)) (is_stream : JSON)
  : M Response :=
  match request_body with
  | None => raise (PyError AttributeError
                     "'NoneType' object has no attribute 'copy'")
  | Some body =>
      match keyword_collision
              (chat_args (chat_call api_key req body (Py.truthy is_stream))) with
      | Some name =>
          raise (PyError TypeError
                   ("create() got multiple values for keyword argument '"
                      ++ name ++ "'"))
      | None =>
        if Py.truthy is_stream
        then
          (response <- create_stream (chat_call api_key req body true) ;;
           ret (StreamingResponse (ChatStream api_key response) 200
                                  sse_headers (Some "text/event-stream")))%M
        else
          (response <- create (chat_call api_key req body false) ;;
           ret (PlainResponse (json_dumps response) 200 []
                              (Some "application/json")))%M
      end
  end.

(** [handle_chat_completions].  The handler calls itself from its
    [except] block; [fuel] bounds the depth of these calls. *)
Fixpoint handle_chat_completions (fuel : nat) (api_key : string)
         (req : Request) (request_body : option (dict JSON))
         (is_stream : JSON) : MP Response :=
  match fuel with
  | O => fun _ => None
  | S fuel' =>
      try_exceptP
        (liftP (chat_attempt api_key req request_body is_stream))
        is_Exception
        (fun e =>
           let fail : MP Response :=
             liftP (raise (HTTPException 500
                      ("Error processing chat completion: " ++ str_exn e))) in
           if looks_rate_limited e api_key
           then
             bindP (disable_key api_key None) (fun _ =>
             bindP get_next_key (fun new_api_key =>
               if truthy_key new_api_key
               then handle_chat_completions fuel' (fmt_key new_api_key)
                                            req request_body is_stream
               else fail))
           else fail)
  end.

(** *** The raw path *)

Definition url_of (req : Request) (path : string) : string :=
  match req_query_params req with
  | [] => OPENROUTER_BASE_URL ++ path
  | _ => OPENROUTER_BASE_URL ++ path ++ "?" ++ req_url_query req
  end.

Definition public_headers (req : Request) : dict string :=
  dict_of_items
    (fun k => negb (PyStr.mem (PyStr.lower k)
                      ["host"; "content-length"; "connection"]))
    (req_headers req).

Definition keyed_headers (req : Request) (api_key : option string)
  : dict string :=
  dict_set "Authorization" ("Bearer " ++ fmt_key api_key)
    (dict_of_items
       (fun k => negb (PyStr.mem (PyStr.lower k)
                         ["host"; "content-length"; "connection";
                          "authorization"]))
       (req_headers req)).

(** The construction of [req_kwargs]. *)
Definition build_request (req : Request) (path : string) (public : bool)
  : M HttpxRequest :=
  if public
  then ret {| hx_method := req_method req;
              hx_url := url_of req path;
              hx_headers := public_headers req;
              hx_content := req_body req |}
  else
    (api_key <- get_next_key ;;
     ret {| hx_method := req_method req;
            hx_url := url_of req path;
            hx_headers := keyed_headers req api_key;
            hx_content := req_body req |})%M.

Definition current_key_of (r : HttpxRequest) : option string :=
  option_map (PyStr.remove "Bearer ") (dict_get "Authorization" (hx_headers r)).

Definition with_authorization (r : HttpxRequest) (key : string) : HttpxRequest :=
  {| hx_method := hx_method r;
     hx_url := hx_url r;
     hx_headers := dict_set "Authorization" ("Bearer " ++ key) (hx_headers r);
     hx_content := hx_content r |}.

(** The first upstream request and its [except httpx.ConnectError]:
    on the left a response returned at once. *)
Definition first_request (path : string) (r : HttpxRequest)
  : M (Response + HttpxResponse) :=
  try_except
    (resp <- client_request r ;; ret (inr resp))%M
    (fun e => match e with ConnectError _ => true | _ => false end)
    (fun e =>
       if PyStr.contains "/models" path
       then ret (inl (PlainResponse
                        (json_dumps
                           (JObj [("error", JStr "Could not connect to OpenRouter API");
                                  ("details", JStr (str_exn e))]))
                        503 [] (Some "application/json")))
       else raise (HTTPException 503 "Unable to connect to OpenRouter API")).

(** The rate-limit check on the buffered response and the retry. *)
Definition failover (r : HttpxRequest) (openrouter_resp : HttpxResponse)
  : M HttpxResponse :=
  let '(has_rate_limit_error, reset_time_ms) :=
    Utils.check_rate_limit_error openrouter_resp in
  let current_key := current_key_of r in
  if has_rate_limit_error && truthy_key current_key
  then
    (disable_key (fmt_key current_key) reset_time_ms ;;;
     new_api_key <- get_next_key ;;
     if truthy_key new_api_key
     then client_request (with_authorization r (fmt_key new_api_key))
     else raise (HTTPException 429 "Rate limited and no available API keys"))%M
  else ret openrouter_resp.

(** The [Response] that closes the [try] block: the upstream status,
    body and headers.  Its construction raises when a header cannot be
    encoded. *)
Definition relay (resp : HttpxResponse) : Res Response :=
  (headers <- Codec.response_headers (resp_headers resp) ;;
   Ok (PlainResponse (resp_content resp) (resp_status_code resp)
                     headers None))%res.

(** The [StreamingResponse] of a binary endpoint. *)
Definition relay_binary (resp : HttpxResponse) : Res Response :=
  (headers <- Codec.response_headers (resp_headers resp) ;;
   Ok (StreamingResponse (BinaryStream resp) (resp_status_code resp)
                         headers None))%res.

(** The three [except] clauses that close [proxy_with_httpx]. *)
Definition httpx_handlers (e : exn) : M Response :=
  match e with
  | ConnectError _ =>
      raise (HTTPException 503 "Unable to connect to OpenRouter API")
  | TimeoutException _ =>
      raise (HTTPException 504 "OpenRouter API request timed out")
  | _ => raise (HTTPException 500 ("Proxy error: " ++ str_exn e))
  end.

(** What [proxy_with_httpx] does with the outcome of the first
    upstream request: the response is relayed as a binary stream, as an
    event stream, or buffered and checked for a rate limit. *)
Definition deliver (req_kwargs : HttpxRequest) (binary : bool)
           (is_stream : JSON) (first : Response + HttpxResponse)
  : M Response :=
  match first with
  | inl response => ret response
  | inr openrouter_resp =>
      if binary
      then lift (relay_binary openrouter_resp)
      else
        if Py.truthy is_stream
           && PyStr.contains "text/event-stream"
                (PyStr.lower (Utils.headers_get (resp_headers openrouter_resp)
                                                "content-type" EmptyString))
        then ret (StreamingResponse (SSEStream openrouter_resp) 200
                    sse_headers (Some "text/event-stream"))
        else
          (final <- failover req_kwargs openrouter_resp ;;
           lift (relay final))%M
  end.

(** [proxy_with_httpx] from the upstream request on. *)
Definition send (path : string) (req_kwargs : HttpxRequest)
           (binary : bool) (is_stream : JSON) : M Response :=
  (first <- first_request path req_kwargs ;;
   deliver req_kwargs binary is_stream first)%M.

(** [proxy_with_httpx] *)
Definition proxy_with_httpx (req : Request) (path : string)
           (public binary : bool) (is_stream : JSON) : M Response :=
  try_except
    (req_kwargs <- build_request req path public ;;
     send path req_kwargs binary is_stream)%M
    is_Exception
    httpx_handlers.

(** [stream_binary] *)
Definition stream_binary (resp : HttpxResponse) : list string :=
  if String.eqb (resp_content resp) EmptyString then [] else [resp_content resp].

(** [stream_sse] *)
Definition stream_sse (resp : HttpxResponse) : list string :=
  flat_map
    (fun line =>
       if PyStr.startswith line "data: "
       then if String.eqb (substring 6 (String.length line - 6) line) "[DONE]"
            then [done_frame]
            else [line ++ nl ++ nl]
       else if String.eqb line EmptyString then [] else [line ++ nl ++ nl])
    (aiter_lines resp).

(** The frames a streaming body delivers. *)
Definition run_body (b : Body) : M (list string) :=
  match b with
  | ChatStream api_key up => stream_response api_key up
  | BinaryStream resp => ret (stream_binary resp)
  | SSEStream resp => ret (stream_sse resp)
  end.

(** *** The endpoint *)

(** The key used on the structured path. *)
Definition structured_key (public : bool) : M string :=
  if negb public
  then
    (api_key <- get_next_key ;;
     if truthy_key api_key
     then ret (fmt_key api_key)
     else raise (HTTPException 503 "No available API keys"))%M
  else ret EmptyString.

(** [proxy_endpoint] after the access check: the body is parsed and
    the request is sent down one of the two paths. *)
Definition dispatch (fuel : nat) (req : Request) : MP Response :=
  let path := req_path req in
  let public := is_public path in
  let binary := is_binary path in
  let '(request_body, is_stream) := parse_body req in
  if goes_raw path
  then liftP (proxy_with_httpx req path public binary is_stream)
  else
    try_exceptP
      (bindP (structured_key public) (fun api_key =>
         if PyStr.contains "/chat/completions" path
         then handle_chat_completions fuel api_key req request_body is_stream
         else liftP (proxy_with_httpx req path public binary is_stream)))
      is_Exception
      (fun e => liftP (raise (HTTPException 500
                                ("Proxy error: " ++ str_exn e)))).

(** [proxy_endpoint] *)
Definition proxy_endpoint (fuel : nat) (req : Request) : MP Response :=
  bindP (if negb (is_public (req_path req))
         then verify_access_key (authorization_of req)
         else ret true)
        (fun _ => dispatch fuel req).

End WithEnv.

End Routes.

(** ** Reading the history *)

Definition is_httpx (ev : Event) : bool :=
  match ev with EvHttpx _ => true | _ => false end.

Definition is_chat (ev : Event) : bool :=
  match ev with EvChat _ => true | _ => false end.

Definition is_upstream (ev : Event) : bool := is_httpx ev || is_chat ev.

(** The upstream requests of the raw path, in order. *)
Definition httpx_calls (evs : list Event) : list HttpxRequest :=
  flat_map (fun ev => match ev with EvHttpx r => [r] | _ => [] end) evs.

(** The upstream calls of the structured path, in order. *)
Definition chat_calls (evs : list Event) : list ChatCall :=
  flat_map (fun ev => match ev with EvChat c => [c] | _ => [] end) evs.

(** The world once the access check of a request has been made. *)
Definition checked {env : Env} (req : Request) (w : World) : World :=
  {| pool := pool w;
     history := (history w ++ [EvVerify (Routes.authorization_of req)])%list |}.

(** The request passes the access check of [proxy_endpoint]: its path
    is public, or [verify_access_key] returns. *)
Definition passes_check {env : Env} (req : Request) : Prop :=
  Routes.is_public (req_path req) = true
  \/ exists b,
      Utils.verify_access_key (Routes.authorization_of req)
                              (Some config_access_key) = Ok b.

(** The world in which a request that passes the access check is
    dispatched. *)
Definition entered {env : Env} (req : Request) (w : World) : World :=
  if Routes.is_public (req_path req) then w else checked req w.

(** What the [except Exception] of [proxy_endpoint] makes of a run of
    the structured handler: an exception is raised again as an internal
    error. *)
Definition wrapped (run : option (Res Response * World))
  : option (Res Response * World) :=
  match run with
  | Some (Raise e, w) =>
      Some (Raise (HTTPException 500 ("Proxy error: " ++ str_exn e)), w)
  | _ => run
  end.

(** The world once [key] has been disabled with [reset_time_ms]. *)
Definition disabled {env : Env} (key : string) (reset_time_ms : option Z)
           (w : World) : World :=
  snd (Routes.disable_key key reset_time_ms w).

(** A key that [acquire] can select at time [t]: it is Available, or it
    is Cooling and its time has passed. *)
Definition selectable (t : Z) (k : ApiKey) : bool :=
  KeyManager.available (KeyManager.reactivate t k).

(** The number of keys of the pool that can be selected at time [t]. *)
Definition selectable_count (t : Z) (p : KeyPool) : nat :=
  length (filter (selectable t) (pool_keys p)).

(** Any event at all. *)
Definition anything : Event -> Prop := fun _ => True.

(** A response whose body, if it is streamed, was opened without a pool
    key. *)
Definition keyless (r : Res Response) : Prop :=
  match r with
  | Ok (StreamingResponse (ChatStream api_key _) _ _ _) => api_key = EmptyString
  | _ => True
  end.

(** A computation only appends to the history, and what it appends
    satisfies [P]. *)
Definition emits {A} (P : Event -> Prop) (m : M A) : Prop :=
  forall w r w', m w = (r, w') ->
    exists evs, history w' = (history w ++ evs)%list /\ Forall P evs.

Definition emitsP {A} (P : Event -> Prop) (m : MP A) : Prop :=
  forall w r w', m w = Some (r, w') ->
    exists evs, history w' = (history w ++ evs)%list /\ Forall P evs.

(** Header names as an ASGI server delivers them: lowercased. *)
Definition lowercase_names (req : Request) : Prop :=
  Forall (fun kv => PyStr.lower (fst kv) = fst kv) (req_headers req).

(** The value [dict(items)] holds for a name: that of its last item. *)
Fixpoint last_value (name : string) (items : list (string * string))
  : option string :=
  match items with
  | [] => None
  | (k, v) :: t =>
      match last_value name t with
      | Some x => Some x
      | None => if String.eqb name k then Some v else None
      end
  end.

(** The chunks an upstream stream delivers before it ends or fails. *)
Fixpoint chunks_of (up : UpStream) : list Chunk :=
  match up with
  | SNext c rest => c :: chunks_of rest
  | SEnd | SFail _ => []
  end.

(** The exception that ends the stream, if any. *)
Fixpoint failure_of (up : UpStream) : option exn :=
  match up with
  | SNext _ rest => failure_of rest
  | SEnd => None
  | SFail e => Some e
  end.

Definition has_choices (c : Chunk) : bool :=
  match chunk_choices c with [] => false | _ => true end.

(** ** The raw recognizer in the words of the specification *)

Module Spec.

(** The scheme and the token of an Authorization header: the text
    before its first space and the text after it. *)
Definition scheme_of (a : string) : string := fst (fst (PyStr.partition_space a)).
Definition token_of (a : string) : string := snd (PyStr.partition_space a).

Fixpoint has_space (s : string) : bool :=
  match s with
  | EmptyString => false
  | String c t => Ascii.eqb c " "%char || has_space t
  end.

(** The header is missing, its scheme is not bearer in any case of the
    letters, or its token is not the access key. *)
Definition rejected (authorization : option string) (access_key : string) : Prop :=
  match authorization with
  | None => True
  | Some a =>
      PyStr.lower (scheme_of a) <> "bearer" \/ token_of a <> access_key
  end.

Section WithEnv.
Context {env : Env}.

(** The top-level error object of a parsed body.  An absent one reads
    as the empty object, as [.get("error", {})] does. *)
Definition error_object (data : JSON) : option (dict JSON) :=
  match data with
  | JObj o =>
      match dict_get "error" o with
      | None => Some []
      | Some (JObj e) => Some e
      | Some _ => None
      end
  | _ => None
  end.

(** A field of the error object; an absent one reads as the empty
    string. *)
Definition field (name : string) (e : dict JSON) : JSON :=
  match dict_get name e with
  | Some v => v
  | None => JStr EmptyString
  end.

Definition json_content_type (response : HttpxResponse) : Prop :=
  PyStr.contains "application/json"
    (Utils.headers_get (resp_headers response) "content-type" EmptyString) = true.

(** The content type is JSON, the body parses, and the error object has
    the known status and the exact known message. *)
Definition raw_detected (response : HttpxResponse) (e : dict JSON) : Prop :=
  json_content_type response
  /\ exists data,
      json_loads (resp_content response) = Some data
      /\ error_object data = Some e
      /\ Py.eq_int (field "status" e) RATE_LIMIT_ERROR_CODE = true
      /\ Py.eq_str (field "message" e) RATE_LIMIT_ERROR_MESSAGE = true.

(** The X-RateLimit-Reset value of the error's metadata headers. *)
Definition reset_value (e : dict JSON) : option JSON :=
  match dict_get "metadata" e with
  | Some (JObj m) =>
      match dict_get "headers" m with
      | Some (JObj h) => dict_get "X-RateLimit-Reset" h
      | _ => None
      end
  | _ => None
  end.

(** The value is present and parses as the integer [n]. *)
Definition reset_parses (e : dict JSON) (n : Z) : Prop :=
  exists x, reset_value e = Some x /\ Py.int int_of_str x = Ok n.

(** The stream of frames as section 4.3 words it: one frame for each
    chunk that has choices, then the terminal frame, whatever happens
    upstream. *)
Definition always_terminated (api_key : string) (up : UpStream) (w : World)
  : Prop :=
  exists w',
    Routes.stream_response api_key up w
    = (Ok (map Routes.frame (filter has_choices (chunks_of up))
             ++ [Routes.done_frame])%list, w').

(** The bound of section 4.5 on the structured path: the upstream call
    is made at most twice. *)
Definition retried_at_most_once (fuel : nat) (api_key : string)
           (req : Request) (request_body : option (dict JSON))
           (is_stream : JSON) (w : World) : Prop :=
  forall r w',
    Routes.handle_chat_completions fuel api_key req request_body is_stream w
    = Some (r, w') ->
    (length (chat_calls (history w')) <= length (chat_calls (history w)) + 2)%nat.

(** Section 4.3 on a failed structured call: when the structured
    recognizer reports a rate limit, the used key is disabled with the
    reset time the recognizer parsed. *)
Definition decided_by_recognizer (fuel : nat) (api_key : string)
           (req : Request) (request_body : option (dict JSON))
           (is_stream : JSON) (w : World) : Prop :=
  forall err w1 r w',
    Routes.chat_attempt api_key req request_body is_stream w
    = (Raise (APIError err), w1) ->
    Routes.handle_chat_completions fuel api_key req request_body is_stream w
    = Some (r, w') ->
    fst (Utils.check_rate_limit_openai err) = true ->
    In (EvDisableKey api_key (snd (Utils.check_rate_limit_openai err)))
       (history w').

(** The header filtering as section 4.4 words it, for a public request:
    the headers sent upstream are the inbound headers without the three
    excluded names, each of the others passing through unchanged. *)
Definition remaining_pass_through (req : Request) (path : string)
           (binary : bool) (is_stream : JSON) (w : World) : Prop :=
  forall r w',
    Routes.proxy_with_httpx req path true binary is_stream w = (r, w') ->
    exists sent rest,
      history w' = (history w ++ EvHttpx sent :: rest)%list
      /\ forall kv,
          In kv (hx_headers sent)
          <-> In kv (req_headers req)
              /\ PyStr.mem (PyStr.lower (fst kv))
                           ["host"; "content-length"; "connection"] = false.

(** The classification as section 4.2 words it: a request that is not
    a POST to a chat-completion path with a body that parses is handled
    by the raw path. *)
Definition raw_unless_parsed_post (fuel : nat) (req : Request) (w : World)
  : Prop :=
  ~ (req_method req = "POST"
     /\ PyStr.contains "/chat/completions" (req_path req) = true
     /\ fst (Routes.parse_body req) <> None) ->
  Routes.dispatch fuel req w
  = liftP (Routes.proxy_with_httpx req (req_path req)
             (Routes.is_public (req_path req))
             (Routes.is_binary (req_path req))
             (snd (Routes.parse_body req))) w.

End WithEnv.

End Spec.

(** ** A concrete deployment, for running the handlers *)

Module Demo.

Definition q (s : string) : string :=
  String (ascii_of_nat 34) s ++ String (ascii_of_nat 34) EmptyString.

(** [int(s)] on plain decimal literals. *)
Fixpoint decimal_go (acc : Z) (s : string) : option Z :=
  match s with
  | EmptyString => Some acc
  | String c t =>
      let n := Z.of_nat (nat_of_ascii c) in
      if (48 <=? n) && (n <=? 57) then decimal_go (10 * acc + (n - 48)) t
      else None
  end.

Definition decimal (s : string) : option Z :=
  match s with
  | EmptyString => None
  | _ => decimal_go 0 s
  end.

Definition message : string := "Rate limit exceeded: free-models-per-day".

(** The body OpenRouter answers with when a key is rate limited. *)
Definition rate_limited_text : string :=
  "{" ++ q "error" ++ ": {" ++ q "status" ++ ": 429, " ++ q "message" ++ ": "
      ++ q message ++ ", " ++ q "metadata" ++ ": {" ++ q "headers" ++ ": {"
      ++ q "X-RateLimit-Reset" ++ ": " ++ q "1741305600000" ++ "}}}}".

Definition metadata_json : JSON :=
  JObj [("headers", JObj [("X-RateLimit-Reset", JStr "1741305600000")])].

Definition rate_limited_json : JSON :=
  JObj [("error", JObj [("status", JInt 429); ("message", JStr message);
                        ("metadata", metadata_json)])].

(** A chat-completion request body. *)
Definition chat_text : string :=
  "{" ++ q "model" ++ ": " ++ q "m" ++ ", " ++ q "messages" ++ ": []}".

Definition chat_fields : dict JSON :=
  [("model", JStr "m"); ("messages", JArr [])].

(** [json.loads] on the texts used below. *)
Definition loads (s : string) : option JSON :=
  if String.eqb s rate_limited_text then Some rate_limited_json
  else if String.eqb s chat_text then Some (JObj chat_fields)
  else if String.eqb s "{}" then Some (JObj [])
  else None.

Definition env_with
           (hx : list Event -> HttpxRequest -> Res HttpxResponse)
           (cc : list Event -> ChatCall -> Res JSON)
           (cs : list Event -> ChatCall -> Res UpStream) : Env :=
  {| RATE_LIMIT_ERROR_CODE := 429;
     RATE_LIMIT_ERROR_MESSAGE := message;
     OPENROUTER_BASE_URL := "https://openrouter.ai/api/v1";
     PUBLIC_ENDPOINTS := ["/api/v1/models"; "/api/v1/generation"];
     BINARY_ENDPOINTS := ["/api/v1/images"];
     config_access_key := "local-key";
     json_loads := loads;
     json_dumps := fun _ => "{}";
     int_of_str := decimal;
     aiter_lines := fun _ => [];
     now_ms := fun _ => 1000;
     httpx_request := hx;
     chat_create := cc;
     chat_create_stream := cs |}.

Definition ok_response : HttpxResponse :=
  {| resp_status_code := 200;
     resp_headers := [("content-type", "application/json")];
     resp_content := "{}" |}.

Definition rate_limited_response : HttpxResponse :=
  {| resp_status_code := 429;
     resp_headers := [("Content-Type", "application/json")];
     resp_content := rate_limited_text |}.

(** An SDK error whose text speaks of a rate limit and whose body
    carries a reset time. *)
Definition rate_limit_error : APIErr :=
  {| err_code := JInt 429;
     err_body := JObj [("metadata", metadata_json)];
     err_message := "Rate limit exceeded: free-models-per-day" |}.

(** The same status and reset time under another text. *)
Definition quota_error : APIErr :=
  {| err_code := JInt 429;
     err_body := JObj [("metadata", metadata_json)];
     err_message := "Too Many Requests" |}.

(** An upstream that answers every request well. *)
Definition healthy : Env :=
  env_with (fun _ _ => Ok ok_response)
           (fun _ _ => Ok (JObj []))
           (fun _ _ => Ok SEnd).

(** An upstream that rate limits every key. *)
Definition always_limited : Env :=
  env_with (fun _ _ => Ok rate_limited_response)
           (fun _ _ => Raise (APIError rate_limit_error))
           (fun _ _ => Raise (APIError rate_limit_error)).

(** An upstream that answers 429 with a reset time under a text that
    does not speak of a rate limit. *)
Definition quota_limited : Env :=
  env_with (fun _ _ => Ok rate_limited_response)
           (fun _ _ => Raise (APIError quota_error))
           (fun _ _ => Raise (APIError quota_error)).

(** An upstream that rate limits the key sk-a only. *)
Definition limits_first : Env :=
  env_with
    (fun _ r =>
       match dict_get "Authorization" (hx_headers r) with
       | Some v => if String.eqb v "Bearer sk-a"
                   then Ok rate_limited_response else Ok ok_response
       | None => Ok ok_response
       end)
    (fun _ c => if String.eqb (chat_api_key c) "sk-a"
                then Raise (APIError rate_limit_error) else Ok (JObj []))
    (fun _ c => if String.eqb (chat_api_key c) "sk-a"
                then Raise (APIError rate_limit_error) else Ok SEnd).

(** The SDK error for a connection that fails or drops. *)
Definition connection_error : APIErr :=
  {| err_code := JNull; err_body := JNull; err_message := "Connection error." |}.

(** An upstream that cannot be reached. *)
Definition unreachable : Env :=
  env_with (fun _ _ => Raise (ConnectError "All connection attempts failed"))
           (fun _ _ => Raise (APIError connection_error))
           (fun _ _ => Raise (APIError connection_error)).

Definition key (s : string) : ApiKey := {| secret := s; coolingUntil := None |}.

Definition pool_of (ks : list ApiKey) (sig : ExhaustedSignal) : KeyPool :=
  {| pool_keys := ks; pool_cursor := 0; pool_cooldown_ms := 60000;
     pool_exhausted := sig |}.

Definition world_of (ks : list ApiKey) (sig : ExhaustedSignal) : World :=
  {| pool := pool_of ks sig; history := [] |}.

Definition three_keys : World :=
  world_of [key "sk-a"; key "sk-b"; key "sk-c"] ReturnsNone.

Definition one_key : World := world_of [key "sk-a"] ReturnsNone.

Definition cooling (s : string) : ApiKey :=
  {| secret := s; coolingUntil := Some 900000 |}.

Definition request (method path body : string)
           (headers : list (string * string)) : Request :=
  {| req_method := method; req_path := path; req_headers := headers;
     req_body := body; req_query_params := []; req_url_query := EmptyString |}.

Definition authorized : list (string * string) :=
  [("host", "localhost:5555"); ("authorization", "Bearer local-key");
   ("accept", "*/*")].

Definition chunk (n : Z) : Chunk :=
  {| chunk_choices := [JInt n]; chunk_model_dump := JObj [("n", JInt n)] |}.

Definition keepalive : Chunk :=
  {| chunk_choices := []; chunk_model_dump := JObj [] |}.

(** Three chunks, then the connection drops. *)
Definition dropped : UpStream :=
  SNext (chunk 1) (SNext (chunk 2) (SNext (chunk 3)
    (SFail (APIError connection_error)))).

Definition chat_request : Request :=
  request "POST" "/chat/completions" chat_text authorized.

(** A chat-completion path asked for with GET. *)
Definition get_chat_request : Request :=
  request "GET" "/chat/completions" chat_text authorized.

(** A chat-completion request whose body is not JSON. *)
Definition garbled_chat_request : Request :=
  request "POST" "/chat/completions" "model=m" authorized.

(** A request for the raw path. *)
Definition embeddings_request : Request :=
  request "POST" "/embeddings" chat_text authorized.

(** Every key of the pool is cooling. *)
Definition exhausted (sig : ExhaustedSignal) : World :=
  world_of [cooling "sk-a"; cooling "sk-b"] sig.

Definition status_of (run : option (Res Response * World)) : option Z :=
  option_map (fun x => surfaced_status (fst x)) run.

(** A request to a public path. *)
Definition models_request : Request :=
  request "GET" "/models" EmptyString [("host", "localhost:5555"); ("accept", "*/*")].

(** A request to a public path with a repeated header. *)
Definition repeated_request : Request :=
  request "GET" "/models" EmptyString
          [("host", "localhost:5555"); ("accept", "text/html");
           ("accept", "application/json")].

(** A request with a wrong access key. *)
Definition intruder_request : Request :=
  request "POST" "/chat/completions" chat_text
          [("host", "localhost:5555"); ("authorization", "Bearer guess")].

(** A request whose bearer scheme is written in capitals. *)
Definition shouting_request : Request :=
  request "POST" "/chat/completions" chat_text
          [("authorization", "BEARER local-key")].

(** An SDK error that is not a rate limit. *)
Definition server_error : APIErr :=
  {| err_code := JInt 500; err_body := JNull;
     err_message := "Internal Server Error" |}.

(** The first structured attempt under an upstream that rate limits
    every key, and the world it leaves. *)
Definition limited_attempt : Res Response * World :=
  Routes.chat_attempt (env := always_limited) "sk-a" chat_request
                      (Some chat_fields) (JBool false) three_keys.

Definition quota_attempt : Res Response * World :=
  Routes.chat_attempt (env := quota_limited) "sk-a" chat_request
                      (Some chat_fields) (JBool false) three_keys.

(** The replacement key and the world once the first key is disabled. *)
Definition replacement : Res (option string) * World :=
  Routes.get_next_key (env := always_limited)
    (snd (Routes.disable_key (env := always_limited) "sk-a" None
            (snd limited_attempt))).

(** The raw path under an upstream that rate limits every key. *)
Definition limited_raw : Res Response * World :=
  Routes.proxy_with_httpx (env := always_limited) embeddings_request
                          "/embeddings" false false (JBool false) three_keys.

Definition public_raw : Res Response * World :=
  Routes.proxy_with_httpx (env := healthy) models_request "/models"
                          true false (JBool false) three_keys.

Definition keyed_raw : Res Response * World :=
  Routes.proxy_with_httpx (env := healthy) embeddings_request "/embeddings"
                          false false (JBool false) three_keys.

End Demo.


(** ** More readers of requests and histories *)

(** What the structured handler may ask of its collaborators for a
    request: chat calls that carry the arguments built from the body,
    whatever the key, the disabling of a key without a reset time, and the
    acquisition of a key. *)
Definition structured_event (req : Request) (request_body : option (dict JSON))
           (is_stream : JSON) (ev : Event) : Prop :=
  match ev with
  | EvChat c =>
      exists key body,
        request_body = Some body
        /\ c = Routes.chat_call key req body (Py.truthy is_stream)
  | EvDisableKey _ reset_time_ms => reset_time_ms = None
  | EvGetNextKey => True
  | _ => False
  end.

(** What the raw path may ask of its collaborators for a request:
    upstream requests with the method, the address and the body of the
    inbound request, and calls of the key manager. *)
Definition raw_event {env : Env} (req : Request) (path : string) (ev : Event)
  : Prop :=
  match ev with
  | EvHttpx r =>
      hx_method r = req_method req
      /\ hx_url r = Routes.url_of req path
      /\ hx_content r = req_body req
  | EvDisableKey _ _ | EvGetNextKey => True
  | _ => False
  end.

(** The world once the request [r] has been sent upstream. *)
Definition sent (r : HttpxRequest) (w : World) : World :=
  {| pool := pool w; history := (history w ++ [EvHttpx r])%list |}.

(** The request [proxy_with_httpx] builds with the pool key [key]. *)
Definition keyed_request {env : Env} (req : Request) (path : string)
           (key : option string) : HttpxRequest :=
  {| hx_method := req_method req;
     hx_url := Routes.url_of req path;
     hx_headers := Routes.keyed_headers req key;
     hx_content := req_body req |}.

(** The request [proxy_with_httpx] builds for a public path. *)
Definition public_request {env : Env} (req : Request) (path : string)
  : HttpxRequest :=
  {| hx_method := req_method req;
     hx_url := Routes.url_of req path;
     hx_headers := Routes.public_headers req;
     hx_content := req_body req |}.

(** The test that relays an upstream answer as an event stream. *)
Definition relayed_as_events (is_stream : JSON) (resp : HttpxResponse) : bool :=
  Py.truthy is_stream
  && PyStr.contains "text/event-stream"
       (PyStr.lower (Utils.headers_get (resp_headers resp) "content-type"
                                       EmptyString)).

(** The names and values of the headers of an upstream answer are all
    ASCII. *)
Definition ascii_headers (resp : HttpxResponse) : bool :=
  forallb (fun kv => Codec.is_ascii (fst kv) && Codec.is_ascii (snd kv))
          (resp_headers resp).

(** A header value that httpx decodes as UTF-8 and that holds a
    character above U+00FF. *)
Definition beyond_latin1 (v : string) : bool :=
  match Codec.utf8_decode v with
  | Some cps => existsb (fun cp => 255 <? cp) cps
  | None => false
  end.

(** What [proxy_with_httpx] answers once the response that ends its [try]
    block is built, or its construction has raised: the response, or the
    internal error of the last handler. *)
Definition closed (built : Res Response) : Res Response :=
  match built with
  | Ok response => Ok response
  | Raise e => Raise (HTTPException 500 ("Proxy error: " ++ str_exn e))
  end.

(** The names the structured path moves out of the call arguments. *)
Definition unsupported_params : list string :=
  ["include_reasoning"; "transforms"; "route"].

(** One turn of the loop of [split_unsupported]. *)
Definition move_param
  : dict JSON * dict JSON -> string -> dict JSON * dict JSON :=
  fun '(args, extra) param =>
    match dict_get param args with
    | Some v => (dict_del param args, dict_set param v extra)
    | None => (args, extra)
    end.

Module Cases.

(** An inbound request with the metadata headers of the structured path. *)
Definition titled_request : Request :=
Demo.request "POST" "/chat/completions" Demo.chat_text
             [("authorization", "Bearer local-key"); ("x-title", "notes");
              ("accept", "*/*")].

(** A body with a parameter the SDK does not know and a stream flag. *)
Definition routed_fields : dict JSON :=
[("model", JStr "m"); ("route", JStr "fallback"); ("stream", JBool true)].

(** A body with a field named as a keyword of the chat call. *)
Definition colliding_fields : dict JSON :=
[("model", JStr "m"); ("messages", JArr []); ("extra_body", JObj [])].

(** An upstream that answers with an event stream. *)
Definition events_response : HttpxResponse :=
{| resp_status_code := 200;
   resp_headers := [("Content-Type", "text/event-stream; charset=utf-8")];
   resp_content := "data: [DONE]" |}.

Definition streaming : Env :=
{| RATE_LIMIT_ERROR_CODE := 429;
   RATE_LIMIT_ERROR_MESSAGE := Demo.message;
   OPENROUTER_BASE_URL := "https://openrouter.ai/api/v1";
   PUBLIC_ENDPOINTS := ["/api/v1/models"; "/api/v1/generation"];
   BINARY_ENDPOINTS := ["/api/v1/images"];
   config_access_key := "local-key";
   json_loads := Demo.loads;
   json_dumps := fun _ => "{}";
   int_of_str := Demo.decimal;
   aiter_lines := fun _ => ["data: {}"; EmptyString; ": ping"; "data: [DONE]"];
   now_ms := fun _ => 1000;
   httpx_request := fun _ _ => Ok events_response;
   chat_create := fun _ _ => Ok (JObj []);
   chat_create_stream := fun _ _ => Ok SEnd |}.

(** The euro sign in UTF-8: the bytes E2 82 AC. *)
Definition euro : string :=
String (ascii_of_nat 226) (String (ascii_of_nat 130)
  (String (ascii_of_nat 172) EmptyString)).

(** An answer with a header value that is UTF-8 text beyond latin-1. *)
Definition priced_response : HttpxResponse :=
{| resp_status_code := 200;
   resp_headers := [("content-type", "application/json"); ("x-price", euro)];
   resp_content := "{}" |}.

Definition priced : Env :=
Demo.env_with (fun _ _ => Ok priced_response)
              (fun _ _ => Ok (JObj []))
              (fun _ _ => Ok SEnd).

(** An answer with a header value that is UTF-8 text within latin-1:
  e with an acute accent, the bytes C3 A9. *)
Definition accented_response : HttpxResponse :=
{| resp_status_code := 200;
   resp_headers :=
     [("X-Name", String (ascii_of_nat 195) (String (ascii_of_nat 169)
                   EmptyString))];
   resp_content := "{}" |}.

(** An upstream that does not answer in time. *)
Definition slow : Env :=
Demo.env_with (fun _ _ => Raise (TimeoutException "timed out"))
              (fun _ _ => Ok (JObj []))
              (fun _ _ => Ok SEnd).

Definition images_request : Request :=
Demo.request "POST" "/images/generate" Demo.chat_text Demo.authorized.

Definition two_keys : World :=
Demo.world_of [Demo.key "sk-a"; Demo.key "sk-b"] ReturnsNone.

(** The world once the first key has been taken from the pool. *)
Definition keyed (env : Env) (w : World) : World :=
snd (Routes.get_next_key (env := env) w).

(** The raw path under an upstream that rate limits every key, with two
  keys in the pool. *)
Definition limited_run : Res Response * World :=
Routes.proxy_with_httpx (env := Demo.always_limited) Demo.embeddings_request
                        "/embeddings" false false (JBool false) two_keys.

End Cases.


(** * Properties *)

Import Routes.
Unset Implicit Arguments.

(** ** The model at work *)

Example lower_mixed_case : PyStr.lower "BeArEr" = "bearer".
Proof. reflexivity. Qed.

Example partition_first_space :
  PyStr.partition_space "Bearer a b" = ("Bearer", " ", "a b").
Proof. reflexivity. Qed.

Example partition_without_space :
  PyStr.partition_space "Bearer" = ("Bearer", EmptyString, EmptyString).
Proof. reflexivity. Qed.

Example remove_bearer_prefix : PyStr.remove "Bearer " "Bearer sk-a" = "sk-a".
Proof. reflexivity. Qed.

Example status_as_text : PyStr.of_Z 503 = "503".
Proof. reflexivity. Qed.

Example dict_keeps_last_value :
  dict_of_items (fun _ => true) [("a", "1"); ("b", "2"); ("a", "3")]
  = [("a", "3"); ("b", "2")].
Proof. reflexivity. Qed.

Example float_status_equals_code : Py.eq_int (JFloat (FFinite 429 0)) 429 = true.
Proof. reflexivity. Qed.

Example recognizers_on_rate_limit :
  Utils.check_rate_limit_error (env := Demo.healthy) Demo.rate_limited_response
  = (true, Some 1741305600000)
  /\ Utils.check_rate_limit_openai (env := Demo.healthy) Demo.rate_limit_error
     = (true, Some 1741305600000)
  /\ Utils.check_rate_limit_openai (env := Demo.healthy) Demo.server_error
     = (false, None).
Proof. repeat split; reflexivity. Qed.

(** The scenario of section 8: the first key is rate limited with a reset
    time, it is disabled until then, and the answer obtained with the
    second key is returned. *)
Example failover_to_second_key :
  let run := Routes.proxy_with_httpx (env := Demo.limits_first)
               Demo.embeddings_request "/embeddings" false false (JBool false)
               (Demo.world_of [Demo.key "sk-a"; Demo.key "sk-b"] ReturnsNone) in
  fst run = Routes.relay Demo.ok_response
  /\ pool_keys (pool (snd run))
     = [{| secret := "sk-a"; coolingUntil := Some 1741305600000 |}; Demo.key "sk-b"]
  /\ map hx_headers (httpx_calls (history (snd run)))
     = [[("accept", "*/*"); ("Authorization", "Bearer sk-a")];
        [("accept", "*/*"); ("Authorization", "Bearer sk-b")]].
Proof. vm_compute. repeat split. Qed.

(** ** Strings and dicts *)

Lemma eqb_false_sym (a b : string) : String.eqb a b = false -> String.eqb b a = false.
Proof. rewrite (String.eqb_sym a b). trivial. Qed.

(** ** The recognizers *)

Section Recognizers.
Context {env : Env}.

Lemma eq_int_empty_string (c : Z) : Py.eq_int (JStr EmptyString) c = false.
Proof. reflexivity. Qed.

(** The outer condition of the raw recognizer holds exactly for an error
    object with the known status and message. *)
Lemma error_matches_spec (data : JSON) :
  Utils.error_matches data = Ok true <->
  exists e, Spec.error_object data = Some e
            /\ Py.eq_int (Spec.field "status" e) RATE_LIMIT_ERROR_CODE = true
            /\ Py.eq_str (Spec.field "message" e) RATE_LIMIT_ERROR_MESSAGE = true.
Proof.
  unfold Utils.error_matches, Spec.error_object, Spec.field.
  destruct data as [| | | | |l|o]; simpl;
    try (split; [discriminate | intros (e & He & _); discriminate]).
  destruct (dict_get "error" o) as [v|] eqn:Herr; simpl.
  - destruct v as [| | | | |l|e]; simpl;
      try (split; [discriminate | intros (e' & He & _); discriminate]).
    destruct (Py.eq_int _ RATE_LIMIT_ERROR_CODE) eqn:Hst; simpl.
    + split.
      * intros H. exists e. repeat split; trivial. now injection H.
      * intros (e' & He & _ & Hm). injection He as <-. now rewrite Hm.
    + split; [discriminate|].
      intros (e' & He & Hs & _). injection He as <-. congruence.
  - split; [discriminate|].
    intros (e' & He & Hs & _). injection He as <-. discriminate.
Qed.

(** Once the outer condition holds, the reset time returned is the
    parsed X-RateLimit-Reset value of the metadata headers. *)
Lemma reset_after_match (data : JSON) (e : dict JSON) :
  Spec.error_object data = Some e ->
  Utils.error_matches data = Ok true ->
  forall n,
    (match Utils.reset_header_present data with
     | Ok true =>
         match rcatch (n <- Utils.reset_of_data data ;; Ok (Some n))%res
                      is_ValueError_or_TypeError (fun _ => Ok None) with
         | Ok r => r
         | Raise _ => None
         end
     | _ => None
     end = Some n)
    <-> Spec.reset_parses e n.
Proof.
  intros He Hm n. unfold Spec.reset_parses, Spec.reset_value.
  unfold Utils.reset_header_present, Utils.reset_of_data, Utils.reset_of_body.
  destruct data as [| | | | |l|o]; try discriminate.
  unfold Utils.error_matches, Spec.error_object in *. simpl in *.
  destruct (dict_get "error" o) as [v|] eqn:Herr; [|discriminate].
  destruct v as [| | | | |l|e0]; try discriminate.
  injection He as ->. simpl.
  destruct (dict_get "metadata" e) as [m|] eqn:Hmeta; simpl.
  2:{ split; [discriminate | intros (x & Hx & _); discriminate]. }
  destruct m as [| | | | |l|m]; simpl;
    try (split; [discriminate | intros (x & Hx & _); discriminate]).
  destruct (dict_get "headers" m) as [h|] eqn:Hh; simpl.
  2:{ split; [discriminate | intros (x & Hx & _); discriminate]. }
  destruct h as [| | | | |l|h]; simpl;
    try (split; [discriminate | intros (x & Hx & _); discriminate]).
  - destruct (PyStr.contains _ s); simpl;
      (split; [discriminate | intros (x & Hx & _); discriminate]).
  - destruct (existsb _ l); simpl;
      (split; [discriminate | intros (x & Hx & _); discriminate]).
  - unfold dict_mem. destruct (dict_get "X-RateLimit-Reset" h) as [x|] eqn:Hx; simpl.
    + destruct (Py.int int_of_str x) as [z|ex] eqn:Hint; simpl.
      * split.
        -- intros H. injection H as <-. eauto.
        -- intros (x' & Hx' & Hn). injection Hx' as <-. congruence.
      * split.
        -- destruct (is_ValueError_or_TypeError ex); discriminate.
        -- intros (x' & Hx' & Hn). injection Hx' as <-. congruence.
    + split; [discriminate | intros (x & Hx' & _); discriminate].
Qed.

(** The raw recognizer, case by case. *)
Lemma check_rate_limit_error_cases (response : HttpxResponse) :
  (Utils.check_rate_limit_error response = (false, None)
   /\ forall e, ~ Spec.raw_detected response e)
  \/ (exists e, Spec.raw_detected response e
             /\ fst (Utils.check_rate_limit_error response) = true
             /\ forall n, snd (Utils.check_rate_limit_error response) = Some n
                          <-> Spec.reset_parses e n).
Proof.
  unfold Utils.check_rate_limit_error, Spec.raw_detected, Spec.json_content_type.
  destruct (PyStr.contains "application/json" _) eqn:Hct.
  2:{ left. split; [reflexivity|]. intros e (H & _). discriminate. }
  unfold Utils.response_json.
  destruct (json_loads (resp_content response)) as [data|] eqn:Hload.
  2:{ left. split; [reflexivity|]. intros e (_ & d & H & _). discriminate. }
  destruct (Utils.error_matches data) as [[|]|ex] eqn:Hm.
  - right. apply error_matches_spec in Hm as Hm'. destruct Hm' as (e & He & Hs & Hmsg).
    exists e. split; [|split].
    + split; [reflexivity|]. exists data. auto.
    + destruct (Utils.reset_header_present data) as [[|]|]; trivial.
      destruct (rcatch _ _ _); reflexivity.
    + intros n. rewrite <- (reset_after_match data e He Hm n).
      destruct (Utils.reset_header_present data) as [[|]|]; simpl; try reflexivity.
      destruct (rcatch _ _ _); reflexivity.
  - left. split; [reflexivity|].
    intros e (_ & d & Hd & He & Hs & Hmsg).
    assert (Hd' : d = data) by congruence. subst d.
    assert (Utils.error_matches data = Ok true) by (apply error_matches_spec; eauto).
    congruence.
  - left. split; [reflexivity|].
    intros e (_ & d & Hd & He & Hs & Hmsg).
    assert (Hd' : d = data) by congruence. subst d.
    assert (Utils.error_matches data = Ok true) by (apply error_matches_spec; eauto).
    congruence.
Qed.

Lemma raw_detected_unique (response : HttpxResponse) (e e' : dict JSON) :
  Spec.raw_detected response e -> Spec.raw_detected response e' -> e = e'.
Proof.
  intros (_ & d & Hd & He & _) (_ & d' & Hd' & He' & _). congruence.
Qed.

(** C6: the raw recognizer reports a rate limit if and only if the
    content type of the buffered response is JSON, the body parses, and
    the top-level error object has the known status and the exact known
    message; the reset time it returns is the X-RateLimit-Reset value of
    the error's metadata headers when that value is present and parses as
    an integer, and none otherwise. *)
Theorem C6_raw_recognizer (response : HttpxResponse) :
  (fst (Utils.check_rate_limit_error response) = true
   <-> exists e, Spec.raw_detected response e)
  /\ (forall n,
        snd (Utils.check_rate_limit_error response) = Some n
        <-> exists e, Spec.raw_detected response e /\ Spec.reset_parses e n).
Proof.
  destruct (check_rate_limit_error_cases response)
    as [[Hr Hno] | (e & He & Hfst & Hsnd)].
  - rewrite Hr. simpl. split.
    + split; [discriminate|]. intros (e & He). now apply Hno in He.
    + intros n. split; [discriminate|]. intros (e & He & _). now apply Hno in He.
  - split.
    + split; eauto.
    + intros n. rewrite Hsnd. split.
      * eauto.
      * intros (e' & He' & Hp). now rewrite (raw_detected_unique response e e' He He').
Qed.

(** C10: neither recognizer returns a reset time without reporting a
    rate limit. *)
Theorem C10_reset_only_when_detected (err : APIErr) (response : HttpxResponse) :
  (fst (Utils.check_rate_limit_openai err) = false
   -> snd (Utils.check_rate_limit_openai err) = None)
  /\ (fst (Utils.check_rate_limit_error response) = false
      -> snd (Utils.check_rate_limit_error response) = None).
Proof.
  split.
  - unfold Utils.check_rate_limit_openai.
    destruct (Py.eq_int _ _ && Py.is_dict _).
    + destruct (Utils.reset_of_body _); simpl.
      * discriminate.
      * destruct (PyStr.contains _ _); simpl; trivial.
    + simpl. destruct (PyStr.contains _ _); simpl; trivial.
  - destruct (check_rate_limit_error_cases response)
      as [[Hr _] | (e & _ & Hfst & _)].
    + now rewrite Hr.
    + rewrite Hfst. discriminate.
Qed.

End Recognizers.

(** ** What a computation appends to the history *)

Create HintDb emits.

Section Emits.
Context {env : Env}.
Variable P : Event -> Prop.

Lemma emits_ret A (a : A) : emits P (ret a).
Proof.
  intros w r w' H. injection H as <- <-. exists []. now rewrite app_nil_r.
Qed.

Lemma emits_raise A (e : exn) : emits P (@raise A e).
Proof.
  intros w r w' H. injection H as <- <-. exists []. now rewrite app_nil_r.
Qed.

Lemma emits_lift A (x : Res A) : emits P (lift x).
Proof.
  intros w r w' H. injection H as <- <-. exists []. now rewrite app_nil_r.
Qed.

Lemma emits_emit (ev : Event) : P ev -> emits P (emit ev).
Proof.
  intros Hev w r w' H. injection H as <- <-. exists [ev]. simpl. auto.
Qed.

Lemma emits_bind A B (m : M A) (f : A -> M B) :
  emits P m -> (forall a, emits P (f a)) -> emits P (bind m f).
Proof.
  intros Hm Hf w r w' H. unfold bind in H.
  destruct (m w) as [[a|e] w1] eqn:E; apply Hm in E as (evs1 & E1 & F1).
  - apply Hf in H as (evs2 & E2 & F2).
    exists (evs1 ++ evs2)%list. rewrite E2, E1, app_assoc.
    split; [reflexivity | now apply Forall_app].
  - injection H as <- <-. eauto.
Qed.

Lemma emits_try_except A (m : M A) (handles : exn -> bool) (h : exn -> M A) :
  emits P m -> (forall e, emits P (h e)) -> emits P (try_except m handles h).
Proof.
  intros Hm Hh w r w' H. unfold try_except in H.
  destruct (m w) as [[a|e] w1] eqn:E; apply Hm in E as (evs1 & E1 & F1).
  - injection H as <- <-. eauto.
  - destruct (handles e).
    + apply Hh in H as (evs2 & E2 & F2).
      exists (evs1 ++ evs2)%list. rewrite E2, E1, app_assoc.
      split; [reflexivity | now apply Forall_app].
    + injection H as <- <-. eauto.
Qed.

Lemma emits_get_next_key : P EvGetNextKey -> emits P get_next_key.
Proof.
  intros Hev w r w' H. unfold get_next_key in H.
  destruct (KeyManager.acquire _ _) as [k p'].
  exists [EvGetNextKey]. split; [|auto].
  destruct k; [|destruct (pool_exhausted (pool w))]; now injection H as <- <-.
Qed.

Lemma emits_disable_key (key : string) (reset : option Z) :
  P (EvDisableKey key reset) -> emits P (disable_key key reset).
Proof.
  intros Hev w r w' H. injection H as <- <-. exists [EvDisableKey key reset]. auto.
Qed.

Lemma emits_client_request (r : HttpxRequest) :
  P (EvHttpx r) -> emits P (client_request r).
Proof.
  intros Hev w x w' H. injection H as <- <-. exists [EvHttpx r]. auto.
Qed.

Lemma emits_create (c : ChatCall) : P (EvChat c) -> emits P (create c).
Proof.
  intros Hev w x w' H. injection H as <- <-. exists [EvChat c]. auto.
Qed.

Lemma emits_create_stream (c : ChatCall) : P (EvChat c) -> emits P (create_stream c).
Proof.
  intros Hev w x w' H. injection H as <- <-. exists [EvChat c]. auto.
Qed.

Lemma emitsP_liftP A (m : M A) : emits P m -> emitsP P (liftP m).
Proof.
  intros Hm w r w' H. injection H as H. eauto.
Qed.

Lemma emitsP_bindP A B (m : M A) (f : A -> MP B) :
  emits P m -> (forall a, emitsP P (f a)) -> emitsP P (bindP m f).
Proof.
  intros Hm Hf w r w' H. unfold bindP in H.
  destruct (m w) as [[a|e] w1] eqn:E; apply Hm in E as (evs1 & E1 & F1).
  - apply Hf in H as (evs2 & E2 & F2).
    exists (evs1 ++ evs2)%list. rewrite E2, E1, app_assoc.
    split; [reflexivity | now apply Forall_app].
  - injection H as <- <-. eauto.
Qed.

Lemma emitsP_try_exceptP A (m : MP A) (handles : exn -> bool) (h : exn -> MP A) :
  emitsP P m -> (forall e, emitsP P (h e)) -> emitsP P (try_exceptP m handles h).
Proof.
  intros Hm Hh w r w' H. unfold try_exceptP in H.
  destruct (m w) as [[[a|e] w1]|] eqn:E; [| |discriminate];
    apply Hm in E as (evs1 & E1 & F1).
  - injection H as <- <-. eauto.
  - destruct (handles e).
    + apply Hh in H as (evs2 & E2 & F2).
      exists (evs1 ++ evs2)%list. rewrite E2, E1, app_assoc.
      split; [reflexivity | now apply Forall_app].
    + injection H as <- <-. eauto.
Qed.

End Emits.

#[export] Hint Resolve emits_ret emits_raise emits_lift emits_emit emits_bind
  emits_try_except emits_get_next_key emits_disable_key emits_client_request
  emits_create emits_create_stream emitsP_liftP emitsP_bindP emitsP_try_exceptP
  : emits.

(** The events of the key manager and of one of the two upstream clients. *)
Definition allows_pool (P : Event -> Prop) : Prop :=
  P EvGetNextKey /\ forall key reset, P (EvDisableKey key reset).

Section EmitsRoutes.
Context {env : Env}.
Variable P : Event -> Prop.
Hypothesis Hpool : allows_pool P.

Lemma emits_stream_response (api_key : string) (up : UpStream) :
  emits P (stream_response api_key up).
Proof.
  destruct Hpool as [_ Hd].
  induction up as [c rest IH| |e]; simpl.
  - apply emits_bind; [exact IH|]. intros frames. apply emits_ret.
  - apply emits_ret.
  - destruct (looks_rate_limited e api_key); auto with emits.
Qed.

Section Structured.
Hypothesis Hchat : forall c, P (EvChat c).

Lemma emits_chat_attempt api_key req request_body is_stream :
  emits P (chat_attempt api_key req request_body is_stream).
Proof.
  unfold chat_attempt. destruct request_body; [|auto with emits].
  destruct (keyword_collision _); [auto with emits|].
  destruct (Py.truthy is_stream); auto with emits.
Qed.

Lemma emitsP_handle_chat_completions fuel :
  forall api_key req request_body is_stream,
    emitsP P (handle_chat_completions fuel api_key req request_body is_stream).
Proof.
  destruct Hpool as [Hg Hd].
  induction fuel as [|fuel IH]; intros; simpl.
  - intros w r w' H. discriminate.
  - apply emitsP_try_exceptP.
    + apply emitsP_liftP, emits_chat_attempt.
    + intros e. destruct (looks_rate_limited e api_key); [|auto with emits].
      apply emitsP_bindP; [auto with emits|]. intros _.
      apply emitsP_bindP; [auto with emits|]. intros k.
      destruct (truthy_key k); auto with emits.
Qed.
End Structured.

Section Raw.
Hypothesis Hhttpx : forall r, P (EvHttpx r).

Lemma emits_failover r resp : emits P (failover r resp).
Proof.
  destruct Hpool as [Hg Hd].
  unfold failover. destruct (Utils.check_rate_limit_error resp) as [has reset].
  destruct (has && truthy_key (current_key_of r)); [|auto with emits].
  apply emits_bind; [auto with emits|]. intros _.
  apply emits_bind; [auto with emits|]. intros k.
  destruct (truthy_key k); auto with emits.
Qed.

Lemma emits_first_request path rk : emits P (first_request path rk).
Proof.
  unfold first_request. apply emits_try_except; [auto with emits|].
  intros e. destruct (PyStr.contains "/models" path); auto with emits.
Qed.

Lemma emits_deliver rk binary is_stream first :
  emits P (deliver rk binary is_stream first).
Proof.
  destruct first as [resp|resp]; simpl; [auto with emits|].
  destruct binary; [auto with emits|].
  destruct (Py.truthy is_stream && _); [auto with emits|].
  apply emits_bind; [apply emits_failover | auto with emits].
Qed.

Lemma emits_send path rk binary is_stream :
  emits P (send path rk binary is_stream).
Proof.
  unfold send. apply emits_bind.
  - apply emits_first_request.
  - apply emits_deliver.
Qed.

Lemma emits_httpx_handlers e : emits P (httpx_handlers e).
Proof. destruct e; simpl; auto with emits. Qed.

Lemma emits_proxy_with_httpx req path public binary is_stream :
  emits P (proxy_with_httpx req path public binary is_stream).
Proof.
  destruct Hpool as [Hg Hd].
  unfold proxy_with_httpx. apply emits_try_except.
  - apply emits_bind.
    + unfold build_request. destruct public; auto with emits.
    + intros rk. apply emits_send.
  - apply emits_httpx_handlers.
Qed.
End Raw.

End EmitsRoutes.

(** ** The access check *)

Lemma eqb_lower_space (c : ascii) :
  Ascii.eqb (PyStr.lower_ascii c) " "%char = Ascii.eqb c " "%char.
Proof. destruct c as [[] [] [] [] [] [] [] []]; reflexivity. Qed.

Lemma has_space_lower (s : string) :
  Spec.has_space (PyStr.lower s) = Spec.has_space s.
Proof.
  induction s as [|c t IH]; simpl; [reflexivity|].
  now rewrite eqb_lower_space, IH.
Qed.

Lemma partition_space_join (s t : string) :
  Spec.has_space s = false ->
  PyStr.partition_space (s ++ " " ++ t) = (s, " ", t).
Proof.
  change (" " ++ t) with (String " "%char t).
  induction s as [|c s IH]; simpl; intros H; [reflexivity|].
  apply orb_false_iff in H as [Hc Hs]. rewrite Hc, (IH Hs). reflexivity.
Qed.

Lemma bearer_scheme_join (scheme token : string) :
  PyStr.lower scheme = "bearer" ->
  Spec.scheme_of (scheme ++ " " ++ token) = scheme
  /\ Spec.token_of (scheme ++ " " ++ token) = token.
Proof.
  intros H. unfold Spec.scheme_of, Spec.token_of.
  rewrite partition_space_join; [auto|].
  rewrite <- has_space_lower, H. reflexivity.
Qed.

Lemma verify_rejects (authorization : option string) (access_key : string) :
  Spec.rejected authorization access_key ->
  exists detail,
    Utils.verify_access_key authorization (Some access_key)
    = Raise (HTTPException 401 detail).
Proof.
  unfold Utils.verify_access_key, Spec.rejected, Spec.scheme_of, Spec.token_of.
  destruct authorization as [a|]; [|eauto].
  destruct (String.eqb a EmptyString); [eauto|].
  destruct (PyStr.partition_space a) as [[scheme sep] token]. simpl.
  destruct (String.eqb (PyStr.lower scheme) "bearer") eqn:Hs; simpl; [|eauto].
  destruct (String.eqb token access_key) eqn:Ht; simpl; [|eauto].
  apply String.eqb_eq in Hs, Ht. intros [H|H]; contradiction.
Qed.

Lemma verify_accepts (a access_key : string) :
  PyStr.lower (Spec.scheme_of a) = "bearer" ->
  Spec.token_of a = access_key ->
  Utils.verify_access_key (Some a) (Some access_key) = Ok true.
Proof.
  unfold Utils.verify_access_key, Spec.scheme_of, Spec.token_of.
  destruct a as [|c a]; [discriminate|].
  change (String.eqb (String c a) EmptyString) with false. cbv iota.
  destruct (PyStr.partition_space (String c a)) as [[scheme sep] token].
  simpl fst; simpl snd. intros -> ->. simpl. now rewrite String.eqb_refl.
Qed.

Section Endpoint.
Context {env : Env}.

Lemma emits_structured_key (P : Event -> Prop) (public : bool) :
  P EvGetNextKey -> emits P (structured_key public).
Proof.
  intros Hg. unfold structured_key. destruct public; simpl; [auto with emits|].
  apply emits_bind; [auto with emits|]. intros k.
  destruct (truthy_key k); auto with emits.
Qed.

Lemma emitsP_dispatch (P : Event -> Prop) (fuel : nat) (req : Request) :
  allows_pool P -> (forall c, P (EvChat c)) -> (forall r, P (EvHttpx r)) ->
  emitsP P (dispatch fuel req).
Proof.
  intros Hpool Hc Hh. unfold dispatch.
  destruct (parse_body req) as [request_body is_stream].
  destruct (goes_raw (req_path req)).
  - apply emitsP_liftP, emits_proxy_with_httpx; assumption.
  - apply emitsP_try_exceptP; [|auto with emits].
    apply emitsP_bindP; [apply emits_structured_key, Hpool|].
    intros api_key. destruct (PyStr.contains _ _).
    + apply emitsP_handle_chat_completions; assumption.
    + apply emitsP_liftP, emits_proxy_with_httpx; assumption.
Qed.

Lemma proxy_endpoint_non_public (fuel : nat) (req : Request) (w : World) :
  is_public (req_path req) = false ->
  proxy_endpoint fuel req w
  = match Utils.verify_access_key (authorization_of req) (Some config_access_key) with
    | Ok _ => dispatch fuel req (checked req w)
    | Raise e => Some (Raise e, checked req w)
    end.
Proof.
  intros Hpub. unfold proxy_endpoint. rewrite Hpub. simpl negb. cbv iota.
  unfold bindP, verify_access_key, bind, emit, lift. fold (checked req w).
  destruct (Utils.verify_access_key _ _); reflexivity.
Qed.

Lemma proxy_endpoint_public (fuel : nat) (req : Request) (w : World) :
  is_public (req_path req) = true ->
  proxy_endpoint fuel req w = dispatch fuel req w.
Proof.
  intros Hpub. unfold proxy_endpoint. rewrite Hpub. reflexivity.
Qed.

(** C7: on a non-public path the access key is verified before anything
    else.  A missing Authorization header, a scheme other than bearer
    (in any case of the letters) or a token other than the configured
    access key is rejected with status 401, with no key acquired and no
    upstream call made; a bearer header with the configured key passes,
    and whatever the request does afterwards comes after the check. *)
Theorem C7_access_key_verified_first (fuel : nat) (req : Request) (w : World) :
  is_public (req_path req) = false ->
  (Spec.rejected (authorization_of req) config_access_key ->
   exists detail,
     proxy_endpoint fuel req w
     = Some (Raise (HTTPException 401 detail), checked req w))
  /\ (forall scheme,
        PyStr.lower scheme = "bearer" ->
        authorization_of req = Some (scheme ++ " " ++ config_access_key) ->
        proxy_endpoint fuel req w = dispatch fuel req (checked req w))
  /\ (forall r w',
        proxy_endpoint fuel req w = Some (r, w') ->
        exists rest,
          history w'
          = (history w ++ EvVerify (authorization_of req) :: rest)%list).
Proof.
  intros Hpub. rewrite (proxy_endpoint_non_public fuel req w Hpub).
  split; [|split].
  - intros Hrej. apply verify_rejects in Hrej as (detail & ->). eauto.
  - intros scheme Hs Ha. rewrite Ha.
    destruct (bearer_scheme_join scheme config_access_key Hs) as [H1 H2].
    rewrite verify_accepts; [reflexivity | now rewrite H1 | exact H2].
  - intros r w'.
    destruct (Utils.verify_access_key _ _) as [b|e].
    + intros H.
      apply (emitsP_dispatch (fun _ => True)) in H as (evs & E & _);
        [| split; trivial | trivial | trivial].
      exists evs. rewrite E. simpl. now rewrite <- app_assoc.
    + intros H. injection H as <- <-. exists []. reflexivity.
Qed.

End Endpoint.

(** ** The raw path: the headers sent upstream *)

Section Dicts.
Context {V : Type}.

Lemma dict_get_set (k k' : string) (v : V) (d : dict V) :
  dict_get k (dict_set k' v d)
  = if String.eqb k k' then Some v else dict_get k d.
Proof.
  induction d as [|[k0 v0] t IH]; simpl.
  - reflexivity.
  - destruct (String.eqb k' k0) eqn:E0; simpl.
    + apply String.eqb_eq in E0. subst k0.
      destruct (String.eqb k k'); reflexivity.
    + rewrite IH. destruct (String.eqb k k') eqn:E1; [|reflexivity].
      apply String.eqb_eq in E1. subst k'. now rewrite E0.
Qed.

End Dicts.

Lemma dict_get_fold (keep : string -> bool) (items : list (string * string)) :
  forall (d : dict string) (k : string),
    dict_get k
      (fold_left (fun d kv => if keep (fst kv) then dict_set (fst kv) (snd kv) d else d)
                 items d)
    = match (if keep k then last_value k items else None) with
      | Some v => Some v
      | None => dict_get k d
      end.
Proof.
  induction items as [|[k0 v0] t IH]; intros d k; simpl.
  - now destruct (keep k).
  - rewrite IH. destruct (keep k) eqn:Hk.
    + destruct (last_value k t); [reflexivity|].
      destruct (String.eqb k k0) eqn:E.
      * apply String.eqb_eq in E. subst k0. rewrite Hk, dict_get_set.
        now rewrite String.eqb_refl.
      * destruct (keep k0); [|reflexivity]. now rewrite dict_get_set, E.
    + destruct (keep k0) eqn:Hk0; [|reflexivity].
      rewrite dict_get_set. destruct (String.eqb k k0) eqn:E; [|reflexivity].
      apply String.eqb_eq in E. congruence.
Qed.

Lemma dict_set_new {V : Type} (k : string) (v : V) (d : dict V) :
  dict_get k d = None -> dict_set k v d = (d ++ [(k, v)])%list.
Proof.
  induction d as [|[k0 v0] t IH]; simpl; [reflexivity|].
  destruct (String.eqb k k0); [discriminate|].
  intros H. now rewrite IH.
Qed.

Lemma dict_get_app {V : Type} (k : string) (d1 d2 : dict V) :
  dict_get k (d1 ++ d2)%list
  = match dict_get k d1 with
    | Some v => Some v
    | None => dict_get k d2
    end.
Proof.
  induction d1 as [|[k0 v0] t IH]; simpl; [reflexivity|].
  now destruct (String.eqb k k0).
Qed.

(** [dict(items)] filtered by name, for items whose names are all
    different: the items that are kept, in order. *)
Lemma dict_of_items_distinct (keep : string -> bool)
      (items : list (string * string)) :
  NoDup (map fst items) ->
  dict_of_items keep items = filter (fun kv => keep (fst kv)) items.
Proof.
  unfold dict_of_items.
  assert (Hgen : forall d : dict string,
             NoDup (map fst items) ->
             (forall kv, In kv items -> dict_get (fst kv) d = None) ->
             fold_left (fun d kv => if keep (fst kv)
                                    then dict_set (fst kv) (snd kv) d else d)
                       items d
             = (d ++ filter (fun kv => keep (fst kv)) items)%list).
  { induction items as [|[k v] t IH]; intros d Hnd Hfresh; simpl.
    - now rewrite app_nil_r.
    - inversion Hnd as [|? ? Hk Ht]; subst.
      destruct (keep k).
      + rewrite (dict_set_new k v d (Hfresh (k, v) (or_introl eq_refl))).
        rewrite IH; [now rewrite <- app_assoc | exact Ht |].
        intros [k' v'] Hin. rewrite dict_get_app.
        rewrite (Hfresh (k', v') (or_intror Hin)). simpl.
        destruct (String.eqb k' k) eqn:E; [|reflexivity].
        apply String.eqb_eq in E. subst k'.
        exfalso. apply Hk. now apply (in_map fst) in Hin.
      + apply IH; [exact Ht|]. intros kv Hin. apply Hfresh. now right. }
  intros Hnd. now apply (Hgen [] Hnd).
Qed.

(** No header named Authorization is left by the filter of a request
    made with a pool key. *)
Lemma keyed_filter_has_no_key (items : list (string * string)) :
  dict_get "Authorization"
    (filter (fun kv => negb (PyStr.mem (PyStr.lower (fst kv))
                               ["host"; "content-length"; "connection";
                                "authorization"]))
            items) = None.
Proof.
  induction items as [|[k v] t IH]; [reflexivity|]. cbn [filter].
  destruct (negb (PyStr.mem (PyStr.lower (fst (k, v))) _)) eqn:Hkeep;
    [|exact IH].
  cbn [dict_get]. destruct (String.eqb "Authorization" k) eqn:E; [|exact IH].
  apply String.eqb_eq in E. subst k. vm_compute in Hkeep. discriminate.
Qed.

(** [dict(items)] filtered by name holds, for a name that is kept, the
    value of its last item. *)
Lemma dict_get_of_items (keep : string -> bool) (items : list (string * string))
      (k : string) :
  dict_get k (dict_of_items keep items)
  = if keep k then last_value k items else None.
Proof.
  unfold dict_of_items. rewrite dict_get_fold.
  destruct (if keep k then last_value k items else None); reflexivity.
Qed.

Section RawPath.
Context {env : Env}.

Lemma anything_allows_pool : allows_pool anything.
Proof. split; intros; exact I. Qed.

Lemma get_next_key_history (w : World) x w1 :
  get_next_key w = (x, w1) ->
  history w1 = (history w ++ [EvGetNextKey])%list.
Proof.
  unfold get_next_key. destruct (KeyManager.acquire _ _) as [k p'].
  destruct k; [|destruct (pool_exhausted (pool w))];
    intros H; now injection H as <- <-.
Qed.

(** The first upstream request leaves one event, whatever its outcome. *)
Lemma first_request_world path rk (w : World) x w1 :
  first_request path rk w = (x, w1) ->
  w1 = {| pool := pool w; history := (history w ++ [EvHttpx rk])%list |}.
Proof.
  unfold first_request, try_except, bind, client_request, ret, raise.
  destruct (httpx_request (history w) rk) as [resp|e].
  - intros H. now injection H as <- <-.
  - destruct e; try (intros H; now injection H as <- <-).
    destruct (PyStr.contains "/models" path); intros H; now injection H as <- <-.
Qed.

Lemma send_starts path rk binary is_stream (w : World) r w' :
  send path rk binary is_stream w = (r, w') ->
  exists rest, history w' = (history w ++ EvHttpx rk :: rest)%list.
Proof.
  unfold send, bind.
  destruct (first_request path rk w) as [[first|e] w1] eqn:Hf;
    apply first_request_world in Hf; subst w1.
  - intros H.
    apply (emits_deliver anything anything_allows_pool) in H as (evs & E & _);
      [|intros; exact I].
    exists evs. rewrite E. simpl. now rewrite <- app_assoc.
  - intros H. injection H as <- <-. exists []. reflexivity.
Qed.

(** The handlers that close [proxy_with_httpx] leave the world alone. *)
Lemma httpx_handlers_world e (w : World) :
  exists e', httpx_handlers e w = (Raise e', w).
Proof. destruct e; simpl; unfold raise; eauto. Qed.

Lemma proxy_with_httpx_after_build req path public binary is_stream
      (w : World) rk w1 :
  build_request req path public w = (Ok rk, w1) ->
  forall r w',
    proxy_with_httpx req path public binary is_stream w = (r, w') ->
    exists rest, history w' = (history w1 ++ EvHttpx rk :: rest)%list.
Proof.
  intros Hb r w'. unfold proxy_with_httpx, try_except, bind. rewrite Hb.
  destruct (send path rk binary is_stream w1) as [[resp|e] w2] eqn:Hs;
    apply send_starts in Hs as (rest & E).
  - intros H. injection H as <- <-. eauto.
  - simpl. destruct (httpx_handlers_world e w2) as (e' & ->).
    intros H. injection H as <- <-. eauto.
Qed.

(** C9 (amended): on the raw path the headers sent upstream are a dict
    made of the inbound headers without host, content-length and
    connection, the names compared in any case of the letters: every
    other name is sent once, with the last value the inbound headers
    give it, so that of a repeated name only the last value is sent.
    When the inbound names are all different, the headers sent are
    exactly the inbound headers that are not excluded, in their order.
    For a public request nothing else changes; otherwise an inbound
    authorization header is dropped as well and a bearer header carrying
    the key taken from the pool is put in its place, after the others. *)
Theorem C9_forwarded_headers (req : Request) (path : string)
        (binary : bool) (is_stream : JSON) (w : World) :
  (forall r w',
      proxy_with_httpx req path true binary is_stream w = (r, w') ->
      exists sent rest,
        history w' = (history w ++ EvHttpx sent :: rest)%list
        /\ (forall name,
               dict_get name (hx_headers sent)
               = if PyStr.mem (PyStr.lower name)
                      ["host"; "content-length"; "connection"]
                 then None
                 else last_value name (req_headers req))
        /\ (NoDup (map fst (req_headers req)) ->
            hx_headers sent
            = filter (fun kv => negb (PyStr.mem (PyStr.lower (fst kv))
                                        ["host"; "content-length"; "connection"]))
                     (req_headers req)))
  /\ (forall key w1 r w',
         get_next_key w = (Ok (Some key), w1) ->
         proxy_with_httpx req path false binary is_stream w = (r, w') ->
         exists sent rest,
           history w' = (history w ++ EvGetNextKey :: EvHttpx sent :: rest)%list
           /\ dict_get "Authorization" (hx_headers sent) = Some ("Bearer " ++ key)
           /\ (forall name,
                  name <> "Authorization" ->
                  dict_get name (hx_headers sent)
                  = if PyStr.mem (PyStr.lower name)
                         ["host"; "content-length"; "connection"; "authorization"]
                    then None
                    else last_value name (req_headers req))
           /\ (NoDup (map fst (req_headers req)) ->
               hx_headers sent
               = (filter (fun kv => negb (PyStr.mem (PyStr.lower (fst kv))
                                            ["host"; "content-length";
                                             "connection"; "authorization"]))
                         (req_headers req)
                    ++ [("Authorization", ("Bearer " ++ key)%string)])%list)).
Proof.
  split.
  - intros r w' H.
    eapply proxy_with_httpx_after_build in H as (rest & E); [|reflexivity].
    eexists; exists rest. split; [exact E|].
    cbn [hx_headers]. unfold public_headers. split.
    + intros name. rewrite dict_get_of_items. now destruct (PyStr.mem _ _).
    + apply dict_of_items_distinct.
  - intros key w1 r w' Hk H.
    eapply proxy_with_httpx_after_build in H as (rest & E).
    2:{ unfold build_request, bind. rewrite Hk. reflexivity. }
    apply get_next_key_history in Hk. rewrite Hk, <- app_assoc in E.
    eexists; exists rest. split; [exact E|]. cbn [hx_headers].
    unfold keyed_headers. split; [|split].
    + now rewrite dict_get_set.
    + intros name Hname. rewrite dict_get_set.
      destruct (String.eqb name "Authorization") eqn:En.
      * apply String.eqb_eq in En. contradiction.
      * rewrite dict_get_of_items. now destruct (PyStr.mem _ _).
    + intros Hnd. rewrite (dict_of_items_distinct _ _ Hnd).
      apply dict_set_new, keyed_filter_has_no_key.
Qed.

(** C9 fails as stated: of two inbound accept headers only the second
    is sent upstream. *)
Lemma C9_repeated_header_is_dropped :
  ~ Spec.remaining_pass_through (env := Demo.healthy) Demo.repeated_request
      "/models" false (JBool false) Demo.three_keys.
Proof.
  intros H. destruct (H _ _ eq_refl) as (sent & rest & E & Hset).
  vm_compute in E. injection E as <- _.
  assert (Hin : In ("accept", "text/html") (hx_headers
            {| hx_method := "GET";
               hx_url := "https://openrouter.ai/api/v1/models";
               hx_headers := [("accept", "application/json")];
               hx_content := EmptyString |})).
  { apply Hset. split; [|reflexivity]. right. left. reflexivity. }
  simpl in Hin. destruct Hin as [Hin | []]. discriminate.
Qed.

End RawPath.

(** ** The structured path *)

Section StructuredPath.
Context {env : Env}.

(** One invocation of the handler. *)
Lemma handle_step (fuel : nat) (api_key : string) (req : Request)
      (request_body : option (dict JSON)) (is_stream : JSON) (w : World) :
  handle_chat_completions (S fuel) api_key req request_body is_stream w
  = match chat_attempt api_key req request_body is_stream w with
    | (Ok response, w1) => Some (Ok response, w1)
    | (Raise e, w1) =>
        let failure :=
          HTTPException 500 ("Error processing chat completion: " ++ str_exn e) in
        if looks_rate_limited e api_key
        then
          match get_next_key (disabled api_key None w1) with
          | (Ok new_api_key, w3) =>
              if truthy_key new_api_key
              then handle_chat_completions fuel (fmt_key new_api_key) req
                                           request_body is_stream w3
              else Some (Raise failure, w3)
          | (Raise e', w3) => Some (Raise e', w3)
          end
        else Some (Raise failure, w1)
    end.
Proof.
  simpl. unfold try_exceptP, liftP, bindP.
  destruct (chat_attempt api_key req request_body is_stream w) as [[resp|e] w1].
  - reflexivity.
  - simpl. destruct (looks_rate_limited e api_key); [|reflexivity].
    unfold disabled. simpl.
    destruct (get_next_key _) as [[k|e'] w3]; [|reflexivity].
    destruct (truthy_key k); reflexivity.
Qed.

Lemma truthy_key_some (k : string) :
  k <> EmptyString -> truthy_key (Some k) = true.
Proof.
  intros Hk. simpl. destruct (String.eqb k EmptyString) eqn:E; [|reflexivity].
  apply String.eqb_eq in E. contradiction.
Qed.

(** The frames of [stream_response] and what it leaves in the world. *)
Lemma stream_response_run (api_key : string) (up : UpStream) (w : World) :
  stream_response api_key up w
  = (Ok (map frame (filter has_choices (chunks_of up))
           ++ match failure_of up with
              | None => [done_frame]
              | Some _ => []
              end)%list,
     match failure_of up with
     | Some e => if looks_rate_limited e api_key
                 then disabled api_key None w else w
     | None => w
     end).
Proof.
  induction up as [c rest IH| |e]; simpl.
  - unfold bind. rewrite IH. unfold ret.
    assert (Hc : has_choices c
                 = match chunk_choices c with [] => false | _ => true end)
      by reflexivity.
    destruct (chunk_choices c); rewrite Hc; reflexivity.
  - reflexivity.
  - destruct (looks_rate_limited e api_key); reflexivity.
Qed.

(** C2 (amended): the frames delivered for a streaming structured call
    are one frame for each upstream chunk that has choices, in order,
    followed by exactly one terminal frame when the upstream stream ends
    normally and by nothing when it fails; no exception escapes, and no
    upstream call is made again: at most the used key is disabled. *)
Theorem C2_stream_frames (api_key : string) (up : UpStream) (w : World) :
  exists w',
    stream_response api_key up w
    = (Ok (map frame (filter has_choices (chunks_of up))
             ++ match failure_of up with
                | None => [done_frame]
                | Some _ => []
                end)%list, w')
    /\ (history w' = history w
        \/ history w' = (history w ++ [EvDisableKey api_key None])%list).
Proof.
  rewrite stream_response_run. eexists. split; [reflexivity|].
  destruct (failure_of up) as [e|]; [|now left].
  destruct (looks_rate_limited e api_key); [now right | now left].
Qed.

(** C2 fails as stated: after three chunks and a dropped connection the
    caller gets three frames and no terminal frame. *)
Lemma C2_stream_not_terminated :
  ~ Spec.always_terminated (env := Demo.healthy) "sk-a" Demo.dropped
      Demo.three_keys.
Proof.
  intros (w' & H). vm_compute in H. discriminate.
Qed.

(** C3 (amended): a failure of the structured call is treated as a rate
    limit exactly when the lowered text of the exception contains
    "rate limit" and the used key is not empty.  Then the used key is
    disabled with no reset time, so for the default cooldown, before a
    replacement is acquired, and the handler is run again with the
    replacement; otherwise a generic failure with status 500 is raised. *)
Theorem C3_structured_failure (fuel : nat) (api_key : string) (req : Request)
        (request_body : option (dict JSON)) (is_stream : JSON)
        (w w1 : World) (e : exn) :
  chat_attempt api_key req request_body is_stream w = (Raise e, w1) ->
  (looks_rate_limited e api_key = false ->
   handle_chat_completions (S fuel) api_key req request_body is_stream w
   = Some (Raise (HTTPException 500
                    ("Error processing chat completion: " ++ str_exn e)), w1))
  /\ (looks_rate_limited e api_key = true ->
      (forall r w',
          handle_chat_completions (S fuel) api_key req request_body is_stream w
          = Some (r, w') ->
          exists rest,
            history w'
            = (history w1 ++ EvDisableKey api_key None :: EvGetNextKey :: rest)%list)
      /\ pool (disabled api_key None w1)
         = KeyManager.disable (now_ms (history w1)) api_key None (pool w1)
      /\ (forall new_api_key w3,
             get_next_key (disabled api_key None w1) = (Ok (Some new_api_key), w3) ->
             new_api_key <> EmptyString ->
             handle_chat_completions (S fuel) api_key req request_body is_stream w
             = handle_chat_completions fuel new_api_key req request_body
                                       is_stream w3)).
Proof.
  intros Hattempt. split.
  - intros Hno. now rewrite handle_step, Hattempt, Hno.
  - intros Hyes. split; [|split].
    + intros r w'. rewrite handle_step, Hattempt. cbv zeta. rewrite Hyes.
      destruct (get_next_key (disabled api_key None w1)) as [[k|e'] w3] eqn:Hk;
        apply get_next_key_history in Hk; unfold disabled in Hk; simpl in Hk.
      * destruct (truthy_key k).
        -- intros H.
           apply (emitsP_handle_chat_completions (fun _ => True)) in H
             as (evs & E & _); [| split; trivial | trivial].
           exists evs. rewrite E, Hk. now rewrite <- !app_assoc.
        -- intros H. injection H as <- <-. exists [].
           rewrite Hk. now rewrite <- app_assoc.
      * intros H. injection H as <- <-. exists [].
        rewrite Hk. now rewrite <- app_assoc.
    + reflexivity.
    + intros k w3 Hk Hne. rewrite handle_step, Hattempt. cbv zeta.
      now rewrite Hyes, Hk, truthy_key_some.
Qed.

(** C3 fails as stated: the recognizer finds a rate limit with a reset
    time in an error whose text does not speak of one, and the handler
    disables no key; and when the text does speak of one, the key is
    disabled without the reset time. *)
Lemma C3_recognizer_not_consulted :
  ~ Spec.decided_by_recognizer (env := Demo.quota_limited) 3 "sk-a"
      Demo.chat_request (Some Demo.chat_fields) (JBool false) Demo.three_keys
  /\ ~ Spec.decided_by_recognizer (env := Demo.always_limited) 3 "sk-a"
         Demo.chat_request (Some Demo.chat_fields) (JBool false) Demo.one_key.
Proof.
  split; intros H.
  - specialize (H Demo.quota_error _ _ _ eq_refl eq_refl eq_refl).
    vm_compute in H. intuition discriminate.
  - specialize (H Demo.rate_limit_error _ _ _ eq_refl eq_refl eq_refl).
    vm_compute in H. intuition discriminate.
Qed.

End StructuredPath.

(** ** Failover *)

Section Failover.
Context {env : Env}.

Lemma httpx_calls_app (l1 l2 : list Event) :
  httpx_calls (l1 ++ l2) = (httpx_calls l1 ++ httpx_calls l2)%list.
Proof. apply flat_map_app. Qed.

(** The retry of the raw path differs from the first request in the
    Authorization header only. *)
Lemma with_authorization_only_key (r : HttpxRequest) (key : string) :
  hx_method (with_authorization r key) = hx_method r
  /\ hx_url (with_authorization r key) = hx_url r
  /\ hx_content (with_authorization r key) = hx_content r
  /\ dict_get "Authorization" (hx_headers (with_authorization r key))
     = Some ("Bearer " ++ key)
  /\ forall name,
      name <> "Authorization" ->
      dict_get name (hx_headers (with_authorization r key))
      = dict_get name (hx_headers r).
Proof.
  repeat split; simpl.
  - now rewrite dict_get_set.
  - intros name Hn. rewrite dict_get_set.
    destruct (String.eqb name "Authorization") eqn:E; [|reflexivity].
    apply String.eqb_eq in E. contradiction.
Qed.

(** The retry of the structured path differs from the first call in the
    key only. *)
Lemma chat_call_only_key (api_key new_api_key : string) (req : Request)
      (body : dict JSON) (stream : bool) :
  chat_call new_api_key req body stream
  = {| chat_api_key := new_api_key;
       chat_args := chat_args (chat_call api_key req body stream);
       chat_extra_headers := chat_extra_headers (chat_call api_key req body stream);
       chat_extra_body := chat_extra_body (chat_call api_key req body stream);
       chat_stream := chat_stream (chat_call api_key req body stream) |}.
Proof.
  unfold chat_call. destruct (split_unsupported body). reflexivity.
Qed.

(** [failover] either makes no upstream request, or ends with the one
    retry, whose outcome is its own. *)
Lemma failover_shape (rk : HttpxRequest) (resp : HttpxResponse)
      (w : World) x w' :
  failover rk resp w = (x, w') ->
  exists evs,
    history w' = (history w ++ evs)%list
    /\ (httpx_calls evs = []
        \/ exists pre key,
            evs = (pre ++ [EvHttpx (with_authorization rk key)])%list
            /\ httpx_calls pre = []
            /\ x = httpx_request (history w ++ pre)
                                 (with_authorization rk key)).
Proof.
  unfold failover.
  destruct (Utils.check_rate_limit_error resp) as [has reset].
  destruct (has && truthy_key (current_key_of rk)).
  - unfold bind, disable_key.
    set (w1 := {| pool := _; history := _ |}).
    destruct (get_next_key w1) as [[k|e] w2] eqn:Hk;
      apply get_next_key_history in Hk; subst w1; simpl in Hk.
    + destruct (truthy_key k).
      * unfold client_request. intros H. injection H as <- <-. simpl.
        exists ([EvDisableKey (fmt_key (current_key_of rk)) reset; EvGetNextKey]
                  ++ [EvHttpx (with_authorization rk (fmt_key k))])%list.
        split.
        -- rewrite Hk. now rewrite <- !app_assoc.
        -- right. eexists; eexists. split; [reflexivity|].
           split; [reflexivity|]. rewrite Hk. now rewrite <- app_assoc.
      * intros H. injection H as <- <-.
        exists [EvDisableKey (fmt_key (current_key_of rk)) reset; EvGetNextKey].
        split; [|now left]. rewrite Hk. now rewrite <- app_assoc.
    + intros H. injection H as <- <-.
      exists [EvDisableKey (fmt_key (current_key_of rk)) reset; EvGetNextKey].
      split; [|now left]. rewrite Hk. now rewrite <- app_assoc.
  - intros H. injection H as <- <-. exists []. split; [|now left].
    now rewrite app_nil_r.
Qed.

Lemma send_shape (path : string) (rk : HttpxRequest) (binary : bool)
      (is_stream : JSON) (w : World) x w' :
  send path rk binary is_stream w = (x, w') ->
  exists evs,
    history w' = (history w ++ EvHttpx rk :: evs)%list
    /\ (httpx_calls evs = []
        \/ exists pre key,
            evs = (pre ++ [EvHttpx (with_authorization rk key)])%list
            /\ httpx_calls pre = []
            /\ x = rbind (httpx_request (history w ++ EvHttpx rk :: pre)
                                         (with_authorization rk key))
                         relay).
Proof.
  unfold send, bind.
  destruct (first_request path rk w) as [[first|e] w1] eqn:Hf;
    apply first_request_world in Hf; subst w1.
  - destruct first as [response|resp]; simpl.
    + intros H. injection H as <- <-. exists []. split; [reflexivity | now left].
    + destruct binary.
      { intros H. injection H as <- <-. exists []. split; [reflexivity | now left]. }
      destruct (Py.truthy is_stream && _).
      { intros H. injection H as <- <-. exists []. split; [reflexivity | now left]. }
      unfold bind, lift.
      destruct (failover rk resp _) as [y w2] eqn:Hfo.
      apply failover_shape in Hfo as (evs & E & Hshape). simpl in E.
      intros H. exists evs. split.
      * destruct y; injection H as <- <-; rewrite E; now rewrite <- app_assoc.
      * destruct Hshape as [Hnone | (pre & key & -> & Hpre & Hy)]; [now left|].
        right. exists pre, key. split; [reflexivity|]. split; [exact Hpre|].
        simpl in Hy. rewrite <- app_assoc in Hy. simpl in Hy. rewrite <- Hy.
        destruct y; now injection H as <- <-.
  - intros H. injection H as <- <-. exists []. split; [reflexivity | now left].
Qed.

Lemma build_request_calls (req : Request) (path : string) (public : bool)
      (w : World) x w1 :
  build_request req path public w = (x, w1) ->
  exists evs, history w1 = (history w ++ evs)%list /\ httpx_calls evs = [].
Proof.
  unfold build_request. destruct public.
  - intros H. injection H as <- <-. exists []. now rewrite app_nil_r.
  - unfold bind. destruct (get_next_key w) as [[k|e] w2] eqn:Hk;
      apply get_next_key_history in Hk; intros H; injection H as <- <-;
      exists [EvGetNextKey]; auto.
Qed.

(** The raw path makes at most two upstream requests; a second one is
    the retry, and the handler answers with the outcome of the retry. *)
Lemma proxy_with_httpx_shape (req : Request) (path : string)
      (public binary : bool) (is_stream : JSON) (w : World) r w' :
  proxy_with_httpx req path public binary is_stream w = (r, w') ->
  exists evs,
    history w' = (history w ++ evs)%list
    /\ ((length (httpx_calls evs) <= 1)%nat
        \/ exists pre first key,
            evs = (pre ++ [EvHttpx (with_authorization first key)])%list
            /\ httpx_calls pre = [first]
            /\ r = match rbind (httpx_request (history w ++ pre)
                                               (with_authorization first key))
                               relay with
                   | Ok response => Ok response
                   | Raise e => fst (httpx_handlers e w')
                   end).
Proof.
  unfold proxy_with_httpx, try_except, bind.
  destruct (build_request req path public w) as [[rk|e] w1] eqn:Hb;
    apply build_request_calls in Hb as (evs0 & E0 & C0).
  - destruct (send path rk binary is_stream w1) as [x w2] eqn:Hs.
    apply send_shape in Hs as (evs & E & Hshape).
    intros H.
    assert (Hw2 : w2 = w' /\ r = match x with
                                 | Ok resp => Ok resp
                                 | Raise e => fst (httpx_handlers e w2)
                                 end).
    { destruct x as [resp|e]; simpl in H.
      - now injection H as <- <-.
      - destruct (httpx_handlers_world e w2) as (e' & He').
        rewrite He' in H |- *. now injection H as <- <-. }
    destruct Hw2 as [<- Hr].
    exists (evs0 ++ EvHttpx rk :: evs)%list. split.
    + rewrite E, E0. symmetry. apply app_assoc.
    + destruct Hshape as [Hnone | (pre & key & -> & Hpre & Hx)].
      * left. rewrite httpx_calls_app, C0. simpl. rewrite Hnone. simpl. lia.
      * right. exists (evs0 ++ EvHttpx rk :: pre)%list, rk, key.
        split; [now rewrite <- app_assoc|].
        split; [rewrite httpx_calls_app, C0; simpl; now rewrite Hpre|].
        rewrite Hr, Hx, E0. now rewrite <- app_assoc.
  - simpl. destruct (httpx_handlers_world e w1) as (e' & ->).
    intros H. injection H as <- <-. exists evs0. split; [exact E0|].
    left. rewrite C0. simpl. lia.
Qed.

(** C1 (amended): on the raw path a request is sent upstream at most
    twice; the second request is the first with only the Authorization
    header replaced, nothing follows it, and the handler ends with its
    outcome: the answer of the retry is relayed, with an internal error
    when the response cannot be built from its headers, and the failure
    of the retry is handled as that of any request.  On the structured path the
    retry is a new run of the same handler with only the key replaced,
    so a retry that fails with a rate-limit signal is followed by a
    further disable, acquire and re-execution for as long as a
    replacement key is acquired. *)
Theorem C1_bounded_failover :
  (forall req path public binary is_stream (w : World) r w',
      proxy_with_httpx req path public binary is_stream w = (r, w') ->
      exists evs,
        history w' = (history w ++ evs)%list
        /\ ((length (httpx_calls evs) <= 1)%nat
            \/ exists pre first key,
                evs = (pre ++ [EvHttpx (with_authorization first key)])%list
                /\ httpx_calls pre = [first]
                /\ (forall name,
                       name <> "Authorization" ->
                       dict_get name (hx_headers (with_authorization first key))
                       = dict_get name (hx_headers first))
                /\ r = match httpx_request (history w ++ pre)
                                           (with_authorization first key) with
                       | Ok final =>
                           match relay final with
                           | Ok response => Ok response
                           | Raise e => fst (httpx_handlers e w')
                           end
                       | Raise e => fst (httpx_handlers e w')
                       end))
  /\ (forall fuel api_key req request_body is_stream (w w1 w3 : World) e
             new_api_key,
         chat_attempt api_key req request_body is_stream w = (Raise e, w1) ->
         looks_rate_limited e api_key = true ->
         get_next_key (disabled api_key None w1)
         = (Ok (Some new_api_key), w3) ->
         new_api_key <> EmptyString ->
         handle_chat_completions (S fuel) api_key req request_body is_stream w
         = handle_chat_completions fuel new_api_key req request_body
                                   is_stream w3
         /\ forall body stream,
             chat_call new_api_key req body stream
             = {| chat_api_key := new_api_key;
                  chat_args := chat_args (chat_call api_key req body stream);
                  chat_extra_headers :=
                    chat_extra_headers (chat_call api_key req body stream);
                  chat_extra_body :=
                    chat_extra_body (chat_call api_key req body stream);
                  chat_stream := chat_stream (chat_call api_key req body stream) |}).
Proof.
  split.
  - intros req path public binary is_stream w r w' H.
    apply proxy_with_httpx_shape in H as (evs & E & Hshape).
    exists evs. split; [exact E|].
    destruct Hshape as [Hle | (pre & first & key & Hevs & Hpre & Hr)];
      [now left|].
    right. exists pre, first, key. repeat split; trivial.
    + apply with_authorization_only_key.
    + rewrite Hr. now destruct (httpx_request (history w ++ pre) _).
  - intros fuel api_key req request_body is_stream w w1 w3 e k
           Hattempt Hlimited Hk Hne.
    split.
    + rewrite handle_step, Hattempt. cbv zeta.
      now rewrite Hlimited, Hk, truthy_key_some.
    + intros body stream. apply chat_call_only_key.
Qed.

(** C1 fails as stated on the structured path: with three keys and an
    upstream that rate limits each of them, the call is made three
    times. *)
Lemma C1_structured_retries_again :
  ~ Spec.retried_at_most_once (env := Demo.always_limited) 5 "sk-a"
      Demo.chat_request (Some Demo.chat_fields) (JBool false) Demo.three_keys.
Proof.
  intros H. specialize (H _ _ eq_refl). vm_compute in H. lia.
Qed.

End Failover.

(** ** Public paths *)

Section PublicPaths.
Context {env : Env}.

Lemma looks_rate_limited_no_key (e : exn) :
  looks_rate_limited e EmptyString = false.
Proof. unfold looks_rate_limited. apply andb_false_r. Qed.

Lemma last_value_absent (name : string) (items : list (string * string)) :
  Forall (fun kv => fst kv <> name) items -> last_value name items = None.
Proof.
  induction 1 as [|[k v] t Hk _ IH]; simpl; [reflexivity|].
  rewrite IH. destruct (String.eqb name k) eqn:E; [|reflexivity].
  apply String.eqb_eq in E. simpl in Hk. congruence.
Qed.

(** With lowercased header names a public request carries no key. *)
Lemma public_request_has_no_key (req : Request) :
  lowercase_names req ->
  dict_get "Authorization" (public_headers req) = None.
Proof.
  intros Hlow. unfold public_headers. rewrite dict_get_of_items.
  change (negb (PyStr.mem (PyStr.lower "Authorization")
                  ["host"; "content-length"; "connection"])) with true.
  cbv iota. apply last_value_absent.
  eapply Forall_impl; [|exact Hlow].
  intros [k v] Hk Heq. simpl in *. subst k. discriminate.
Qed.

Lemma first_request_keyless path rk (w : World) response w1 :
  first_request path rk w = (Ok (inl response), w1) -> keyless (Ok response).
Proof.
  unfold first_request, try_except, bind, client_request, ret, raise.
  destruct (httpx_request (history w) rk) as [resp|e]; [discriminate|].
  destruct e; try discriminate.
  destruct (PyStr.contains "/models" path); [|discriminate].
  intros H. injection H as <- _. exact I.
Qed.

Lemma relay_keyless (resp : HttpxResponse) :
  keyless (relay resp) /\ keyless (relay_binary resp).
Proof.
  unfold relay, relay_binary.
  destruct (Codec.response_headers (resp_headers resp)); simpl; auto.
Qed.

Local Ltac finish :=
  unfold ret; simpl; eexists; eexists; split; [reflexivity | exact I].

(** The construction of the relayed response: it is returned, or the
    handlers close the request. *)
Local Ltac relayed built :=
  unfold lift; simpl;
  let Hk := fresh "Hk" in
  pose proof built as Hk;
  match type of Hk with
  | keyless ?x =>
      destruct x as [? | ?e];
      [ eexists; eexists; split; [reflexivity | exact Hk]
      | match goal with
        | |- context [httpx_handlers ?e0 ?w0] =>
            destruct (httpx_handlers_world e0 w0) as (? & ->)
        end;
        finish ]
  end.

(** The raw path on a public request: one upstream request, and the
    pool as it was. *)
Lemma public_raw (req : Request) (path : string) (binary : bool)
      (is_stream : JSON) (w : World) :
  lowercase_names req ->
  exists r rk,
    proxy_with_httpx req path true binary is_stream w
    = (r, {| pool := pool w; history := (history w ++ [EvHttpx rk])%list |})
    /\ keyless r.
Proof.
  intros Hlow. unfold proxy_with_httpx, try_except, bind, build_request, ret.
  set (rk := {| hx_method := _; hx_url := _; hx_headers := _; hx_content := _ |}).
  unfold send, bind.
  destruct (first_request path rk w) as [[first|e] w1] eqn:Hf.
  - destruct first as [response|resp].
    + apply first_request_keyless in Hf as Hk.
      apply first_request_world in Hf. subst w1. simpl. unfold ret.
      eexists; eexists; split; [reflexivity | exact Hk].
    + apply first_request_world in Hf. subst w1. cbn [deliver].
      destruct binary; [relayed (proj2 (relay_keyless resp))|].
      destruct (Py.truthy is_stream && _); [finish|].
      unfold failover, bind.
      destruct (Utils.check_rate_limit_error resp) as [has reset].
      unfold current_key_of. cbn [hx_headers rk].
      rewrite (public_request_has_no_key req Hlow). cbn [option_map truthy_key].
      rewrite andb_false_r. unfold ret.
      relayed (proj1 (relay_keyless resp)).
  - apply first_request_world in Hf. subst w1. simpl.
    destruct (httpx_handlers_world e
                {| pool := pool w; history := (history w ++ [EvHttpx rk])%list |})
      as (e' & ->).
    finish.
Qed.

Lemma keyless_body_runs (body : Body) st hs mt (w : World) :
  keyless (Ok (StreamingResponse body st hs mt)) ->
  exists frames, run_body body w = (Ok frames, w).
Proof.
  destruct body as [api_key up|resp|resp]; simpl.
  - intros ->. rewrite stream_response_run.
    destruct (failure_of up) as [e|]; [|eauto].
    rewrite looks_rate_limited_no_key. eauto.
  - unfold ret. eauto.
  - unfold ret. eauto.
Qed.

(** The structured path without a key: at most one upstream call, and
    the pool as it was. *)
Lemma keyless_chat (fuel : nat) (req : Request)
      (request_body : option (dict JSON)) (is_stream : JSON) (w : World) :
  exists r evs,
    handle_chat_completions (S fuel) EmptyString req request_body is_stream w
    = Some (r, {| pool := pool w; history := (history w ++ evs)%list |})
    /\ Forall (fun ev => is_upstream ev = true) evs
    /\ keyless r.
Proof.
  rewrite handle_step. unfold chat_attempt.
  destruct request_body as [body|].
  - destruct (keyword_collision _) as [name|].
    { unfold raise. cbv zeta. rewrite looks_rate_limited_no_key.
      eexists; exists []. rewrite app_nil_r. destruct w. simpl.
      split; [reflexivity|]. split; [constructor | exact I]. }
    destruct (Py.truthy is_stream); unfold bind, create, create_stream, ret.
    + destruct (chat_create_stream _ _) as [up|e]; simpl.
      * eexists; eexists. split; [reflexivity|]. split; [|reflexivity].
        repeat constructor.
      * rewrite looks_rate_limited_no_key.
        eexists; eexists. split; [reflexivity|]. split; [|exact I].
        repeat constructor.
    + destruct (chat_create _ _) as [resp|e]; simpl.
      * eexists; eexists. split; [reflexivity|]. split; [|exact I].
        repeat constructor.
      * rewrite looks_rate_limited_no_key.
        eexists; eexists. split; [reflexivity|]. split; [|exact I].
        repeat constructor.
  - unfold raise. simpl.
    exists (Raise (HTTPException 500
              ("Error processing chat completion: "
                 ++ "'NoneType' object has no attribute 'copy'"))), [].
    rewrite app_nil_r. destruct w. simpl. repeat split. constructor.
Qed.

(** C8: a request to a public path is not checked for the access key
    and takes no key from the pool, on the structured path and on the raw
    path: the pool is left as it was, the only calls made are upstream
    calls, and a streamed body changes nothing when it is delivered. *)
Theorem C8_public_paths_use_no_key (fuel : nat) (req : Request) (w : World) :
  is_public (req_path req) = true ->
  lowercase_names req ->
  (0 < fuel)%nat ->
  exists r w' evs,
    proxy_endpoint fuel req w = Some (r, w')
    /\ pool w' = pool w
    /\ history w' = (history w ++ evs)%list
    /\ Forall (fun ev => is_upstream ev = true) evs
    /\ forall body st hs mt,
        r = Ok (StreamingResponse body st hs mt) ->
        exists frames, run_body body w' = (Ok frames, w').
Proof.
  intros Hpub Hlow Hfuel.
  rewrite (proxy_endpoint_public fuel req w Hpub).
  destruct fuel as [|fuel]; [lia|].
  assert (Hraw : forall binary is_stream,
             exists r w' evs,
               liftP (proxy_with_httpx req (req_path req) true binary is_stream) w
               = Some (r, w')
               /\ pool w' = pool w
               /\ history w' = (history w ++ evs)%list
               /\ Forall (fun ev => is_upstream ev = true) evs
               /\ keyless r).
  { intros binary is_stream.
    destruct (public_raw req (req_path req) binary is_stream w Hlow)
      as (r & rk & Hrun & Hk).
    unfold liftP. rewrite Hrun.
    eexists; eexists; exists [EvHttpx rk]. repeat split; trivial.
    repeat constructor. }
  assert (Hkeyless : exists r w' evs,
             dispatch (S fuel) req w = Some (r, w')
             /\ pool w' = pool w
             /\ history w' = (history w ++ evs)%list
             /\ Forall (fun ev => is_upstream ev = true) evs
             /\ keyless r).
  { unfold dispatch. rewrite Hpub.
    destruct (parse_body req) as [request_body is_stream].
    destruct (goes_raw (req_path req)); [apply Hraw|].
    unfold try_exceptP, bindP.
    change (structured_key true) with (@ret string EmptyString).
    unfold ret.
    destruct (PyStr.contains "/chat/completions" (req_path req)).
    - destruct (keyless_chat fuel req request_body is_stream w)
        as (r & evs & Hrun & Hevs & Hk).
      rewrite Hrun. destruct r as [resp|e].
      + eexists; eexists; exists evs. repeat split; trivial.
      + simpl. unfold liftP, raise.
        eexists; eexists; exists evs. repeat split; trivial.
    - destruct (Hraw (is_binary (req_path req)) is_stream)
        as (r & w' & evs & Hrun & Hp & Hh & Hevs & Hk).
      rewrite Hrun. destruct r as [resp|e].
      + exists (Ok resp), w', evs. repeat split; trivial.
      + simpl. unfold liftP, raise.
        eexists; exists w', evs. repeat split; trivial. }
  destruct Hkeyless as (r & w' & evs & Hrun & Hp & Hh & Hevs & Hk).
  exists r, w', evs. repeat split; trivial.
  intros body st hs mt ->. eapply keyless_body_runs. exact Hk.
Qed.

End PublicPaths.

(** ** Classification *)

Section Classification.
Context {env : Env}.

Lemma chat_calls_none (evs : list Event) :
  Forall (fun ev => is_chat ev = false) evs -> chat_calls evs = [].
Proof.
  induction 1 as [|ev t Hev _ IH]; simpl; [reflexivity|].
  rewrite IH. destruct ev; try reflexivity. discriminate.
Qed.

Lemma httpx_calls_none (evs : list Event) :
  Forall (fun ev => is_httpx ev = false) evs -> httpx_calls evs = [].
Proof.
  induction 1 as [|ev t Hev _ IH]; simpl; [reflexivity|].
  rewrite IH. destruct ev; try reflexivity. discriminate.
Qed.

Lemma goes_raw_false (path : string) :
  goes_raw path = false
  <-> is_binary path = false
      /\ PyStr.contains "/models" path = false
      /\ PyStr.contains "/chat/completions" path = true.
Proof.
  unfold goes_raw.
  destruct (is_binary path), (PyStr.contains "/models" path),
    (PyStr.contains "/chat/completions" path); simpl; intuition congruence.
Qed.

(** A body that is empty or does not parse. *)
Lemma parse_body_failure (req : Request) :
  req_body req = EmptyString \/ json_loads (req_body req) = None ->
  parse_body req = (None, JBool false).
Proof.
  unfold parse_body. intros [-> | H]; [reflexivity|].
  rewrite H. now destruct (String.eqb _ _).
Qed.

Lemma emitsP_proxy_endpoint (P : Event -> Prop) (fuel : nat) (req : Request) :
  (forall a, P (EvVerify a)) ->
  emitsP P (dispatch fuel req) ->
  emitsP P (proxy_endpoint fuel req).
Proof.
  intros Hv Hd. unfold proxy_endpoint. apply emitsP_bindP; [|intros _; exact Hd].
  destruct (negb _); [|apply emits_ret].
  unfold verify_access_key. apply emits_bind; [apply emits_emit, Hv|].
  intros _. apply emits_lift.
Qed.

Lemma dispatch_raw (fuel : nat) (req : Request) :
  goes_raw (req_path req) = true ->
  forall w0,
    dispatch fuel req w0
    = liftP (proxy_with_httpx req (req_path req) (is_public (req_path req))
               (is_binary (req_path req)) (snd (parse_body req))) w0.
Proof.
  intros Hraw w0. unfold dispatch. rewrite Hraw.
  now destruct (parse_body req).
Qed.

(** A request that passes the access check is dispatched. *)
Lemma proxy_endpoint_enters (fuel : nat) (req : Request) (w : World) :
  passes_check req ->
  proxy_endpoint fuel req w = dispatch fuel req (entered req w).
Proof.
  unfold passes_check, entered. intros Hpass.
  destruct (is_public (req_path req)) eqn:Hpub.
  - now apply proxy_endpoint_public.
  - rewrite (proxy_endpoint_non_public fuel req w Hpub).
    destruct Hpass as [H | (b & ->)]; [discriminate | reflexivity].
Qed.

(** The structured branch of [dispatch]: the handler is run with the key
    taken for the request. *)
Lemma dispatch_structured (fuel : nat) (req : Request) (w0 : World) :
  goes_raw (req_path req) = false ->
  dispatch fuel req w0
  = match structured_key (is_public (req_path req)) w0 with
    | (Ok api_key, w1) =>
        wrapped (handle_chat_completions fuel api_key req
                   (fst (parse_body req)) (snd (parse_body req)) w1)
    | (Raise e, w1) =>
        Some (Raise (HTTPException 500 ("Proxy error: " ++ str_exn e)), w1)
    end.
Proof.
  intros Hraw. unfold dispatch. rewrite Hraw.
  destruct (parse_body req) as [request_body is_stream].
  apply goes_raw_false in Hraw as (_ & _ & ->).
  unfold try_exceptP, bindP. cbn [fst snd].
  destruct (structured_key (is_public (req_path req)) w0) as [[api_key|e] w1];
    [|reflexivity].
  destruct (handle_chat_completions fuel api_key req request_body is_stream w1)
    as [[[response|e] w2]|]; reflexivity.
Qed.

(** With a parsed body whose names do not collide with the keywords of
    the call, the structured handler starts with the chat call. *)
Lemma handle_first_call (fuel : nat) (api_key : string) (req : Request)
      (body : dict JSON) (is_stream : JSON) (w1 : World) r w' :
  keyword_collision
    (chat_args (chat_call api_key req body (Py.truthy is_stream))) = None ->
  handle_chat_completions fuel api_key req (Some body) is_stream w1
  = Some (r, w') ->
  exists rest,
    history w'
    = (history w1
         ++ EvChat (chat_call api_key req body (Py.truthy is_stream)) :: rest)%list.
Proof.
  intros Hcol. destruct fuel as [|fuel]; [discriminate|].
  rewrite handle_step.
  assert (Hfirst : exists x,
             chat_attempt api_key req (Some body) is_stream w1
             = (x, {| pool := pool w1;
                      history :=
                        (history w1
                           ++ [EvChat (chat_call api_key req body
                                         (Py.truthy is_stream))])%list |})).
  { unfold chat_attempt. rewrite Hcol.
    destruct (Py.truthy is_stream); unfold bind, create, create_stream, ret.
    - destruct (chat_create_stream _ _); eauto.
    - destruct (chat_create _ _); eauto. }
  destruct Hfirst as (x & ->). set (c := chat_call _ _ _ _).
  destruct x as [response|e].
  - intros H. injection H as <- <-. exists []. reflexivity.
  - cbv zeta. destruct (looks_rate_limited e api_key).
    + destruct (get_next_key (disabled api_key None _)) as [[k|e'] w3] eqn:Hk;
        apply get_next_key_history in Hk; unfold disabled in Hk; simpl in Hk.
      * destruct (truthy_key k).
        -- intros H.
           apply (emitsP_handle_chat_completions anything) in H
             as (evs & E & _); [| split; intros; exact I | intros; exact I].
           exists ([EvDisableKey api_key None; EvGetNextKey] ++ evs)%list.
           rewrite E, Hk. now rewrite <- !app_assoc.
        -- intros H. injection H as <- <-.
           exists [EvDisableKey api_key None; EvGetNextKey].
           rewrite Hk. now rewrite <- !app_assoc.
      * intros H. injection H as <- <-.
        exists [EvDisableKey api_key None; EvGetNextKey].
        rewrite Hk. now rewrite <- !app_assoc.
    + intros H. injection H as <- <-. exists []. reflexivity.
Qed.

Lemma wrapped_world (run : option (Res Response * World)) r w' :
  wrapped run = Some (r, w') -> exists x, run = Some (x, w').
Proof.
  destruct run as [[[response|e] w2]|]; simpl; intros H;
    [injection H as <- <- | injection H as <- <- | discriminate]; eauto.
Qed.

(** C4 (amended): a request that passes the access check takes the
    structured path exactly when its path is not a binary endpoint,
    contains /chat/completions and does not contain /models, whatever
    its method and whether or not its body parsed; every other request
    takes the raw path.  On the raw path the answer of the endpoint is
    that of [proxy_with_httpx], and no chat call is made.  On the
    structured path a key is taken as the path requires and the answer
    is that of [handle_chat_completions] run with that key, the parsed
    body (present or not) and the stream flag, an exception being raised
    again as an internal error; no raw upstream request is made, and
    with a parsed body the first upstream call is the chat call built
    from it.  A body that is empty or does not parse leaves no parsed
    body and a false stream flag, and raises nothing by itself. *)
Theorem C4_dispatch (fuel : nat) (req : Request) (w : World) :
  passes_check req ->
  (goes_raw (req_path req) = false
   <-> is_binary (req_path req) = false
       /\ PyStr.contains "/models" (req_path req) = false
       /\ PyStr.contains "/chat/completions" (req_path req) = true)
  /\ (goes_raw (req_path req) = true ->
      proxy_endpoint fuel req w
      = Some (proxy_with_httpx req (req_path req) (is_public (req_path req))
                (is_binary (req_path req)) (snd (parse_body req))
                (entered req w)))
  /\ (goes_raw (req_path req) = false ->
      proxy_endpoint fuel req w
      = match structured_key (is_public (req_path req)) (entered req w) with
        | (Ok api_key, w1) =>
            wrapped (handle_chat_completions fuel api_key req
                       (fst (parse_body req)) (snd (parse_body req)) w1)
        | (Raise e, w1) =>
            Some (Raise (HTTPException 500 ("Proxy error: " ++ str_exn e)), w1)
        end)
  /\ (forall r w',
         proxy_endpoint fuel req w = Some (r, w') ->
         exists evs,
           history w' = (history w ++ evs)%list
           /\ (goes_raw (req_path req) = true -> chat_calls evs = [])
           /\ (goes_raw (req_path req) = false -> httpx_calls evs = []))
  /\ (forall r w' api_key w1 body,
         goes_raw (req_path req) = false ->
         proxy_endpoint fuel req w = Some (r, w') ->
         structured_key (is_public (req_path req)) (entered req w)
         = (Ok api_key, w1) ->
         fst (parse_body req) = Some body ->
         keyword_collision
           (chat_args (chat_call api_key req body
                         (Py.truthy (snd (parse_body req))))) = None ->
         exists rest,
           history w'
           = (history w1
                ++ EvChat (chat_call api_key req body
                             (Py.truthy (snd (parse_body req))))
                :: rest)%list)
  /\ (req_body req = EmptyString \/ json_loads (req_body req) = None ->
      parse_body req = (None, JBool false)).
Proof.
  intros Hpass.
  split; [apply goes_raw_false|].
  split; [|split; [|split; [|split; [|apply parse_body_failure]]]].
  - intros Hraw. rewrite (proxy_endpoint_enters fuel req w Hpass).
    now rewrite (dispatch_raw fuel req Hraw).
  - intros Hraw. rewrite (proxy_endpoint_enters fuel req w Hpass).
    now apply dispatch_structured.
  - intros r w' Hrun. destruct (goes_raw (req_path req)) eqn:Hraw.
    + apply (emitsP_proxy_endpoint (fun ev => is_chat ev = false)) in Hrun
        as (evs & E & F).
      * exists evs. split; [exact E|]. split; [|discriminate].
        intros _. now apply chat_calls_none.
      * reflexivity.
      * unfold dispatch. rewrite Hraw. destruct (parse_body req).
        apply emitsP_liftP, emits_proxy_with_httpx; [split|]; reflexivity.
    + apply (emitsP_proxy_endpoint (fun ev => is_httpx ev = false)) in Hrun
        as (evs & E & F).
      * exists evs. split; [exact E|]. split; [discriminate|].
        intros _. now apply httpx_calls_none.
      * reflexivity.
      * unfold dispatch. rewrite Hraw. destruct (parse_body req).
        apply goes_raw_false in Hraw as (_ & _ & ->).
        apply emitsP_try_exceptP; [|intros; apply emitsP_liftP, emits_raise].
        apply emitsP_bindP; [now apply emits_structured_key|].
        intros api_key.
        apply emitsP_handle_chat_completions; [split|]; reflexivity.
  - intros r w' api_key w1 body Hraw Hrun Hkey Hbody Hcol.
    rewrite (proxy_endpoint_enters fuel req w Hpass) in Hrun.
    rewrite (dispatch_structured fuel req _ Hraw), Hkey, Hbody in Hrun.
    apply wrapped_world in Hrun as (x & Hrun).
    exact (handle_first_call fuel api_key req body _ w1 x w' Hcol Hrun).
Qed.

(** C4 fails as stated: a GET to a chat-completion path, and a POST
    whose body is not JSON, are both handled by the structured path. *)
Lemma C4_structured_without_post_or_body :
  ~ Spec.raw_unless_parsed_post (env := Demo.healthy) 3
      Demo.get_chat_request Demo.three_keys
  /\ ~ Spec.raw_unless_parsed_post (env := Demo.healthy) 3
         Demo.garbled_chat_request Demo.three_keys.
Proof.
  split; intros H.
  - assert (Hne : ~ (req_method Demo.get_chat_request = "POST"
                     /\ PyStr.contains "/chat/completions"
                          (req_path Demo.get_chat_request) = true
                     /\ fst (parse_body (env := Demo.healthy)
                               Demo.get_chat_request) <> None))
      by (intros (Hm & _); discriminate).
    specialize (H Hne). vm_compute in H. discriminate.
  - assert (Hne : ~ (req_method Demo.garbled_chat_request = "POST"
                     /\ PyStr.contains "/chat/completions"
                          (req_path Demo.garbled_chat_request) = true
                     /\ fst (parse_body (env := Demo.healthy)
                               Demo.garbled_chat_request) <> None))
      by (intros (_ & _ & Hp); now apply Hp).
    specialize (H Hne). vm_compute in H. discriminate.
Qed.

End Classification.

(** ** Error statuses *)

(** An [HTTPException] raised inside [proxy_with_httpx] leaves it with
    status 500, whatever status it was raised with. *)
Lemma httpx_handlers_lose_status {env : Env} (st : Z) (detail : string) (w : World) :
  httpx_handlers (HTTPException st detail) w
  = (Raise (HTTPException 500 ("Proxy error: " ++ str_exn (HTTPException st detail))), w).
Proof. reflexivity. Qed.

(** A timeout of the raw path is answered with 504, and a connection
    failure of the retry with 503. *)
Lemma httpx_handlers_timeout {env : Env} (text : string) (w : World) :
  httpx_handlers (TimeoutException text) w
  = (Raise (HTTPException 504 "OpenRouter API request timed out"), w)
  /\ httpx_handlers (ConnectError text) w
     = (Raise (HTTPException 503 "Unable to connect to OpenRouter API"), w).
Proof. split; reflexivity. Qed.

(** C5: the statuses 503 and 429 raised inside the two handlers do not
    reach the caller.  With every key cooling a chat completion is
    answered with 500, however the pool reports that it is exhausted; a
    rate limit with no replacement key is answered with 500; and so is a
    connection failure of the first request on a path other than the
    models path. *)
Theorem C5_statuses_lost :
  Demo.status_of (proxy_endpoint (env := Demo.healthy) 3 Demo.chat_request
                    (Demo.exhausted ReturnsNone)) = Some 500
  /\ Demo.status_of (proxy_endpoint (env := Demo.healthy) 3 Demo.chat_request
                       (Demo.exhausted RaisesNoKeyAvailable)) = Some 500
  /\ Demo.status_of (proxy_endpoint (env := Demo.always_limited) 3
                       Demo.embeddings_request Demo.one_key) = Some 500
  /\ Demo.status_of (proxy_endpoint (env := Demo.unreachable) 3
                       Demo.embeddings_request Demo.three_keys) = Some 500.
Proof. repeat split; vm_compute; reflexivity. Qed.

(** ** The properties at work on the concrete deployment *)

(** The rate-limit answer of the upstream is recognized, with its reset
    time. *)
Lemma C6_raw_recognizer_witness :
  fst (Utils.check_rate_limit_error (env := Demo.healthy) Demo.rate_limited_response)
  = true
  /\ snd (Utils.check_rate_limit_error (env := Demo.healthy)
            Demo.rate_limited_response)
     = Some 1741305600000.
Proof.
  pose proof (C6_raw_recognizer (env := Demo.healthy) Demo.rate_limited_response)
    as [Hdetected Hreset].
  assert (Hd : Spec.raw_detected (env := Demo.healthy) Demo.rate_limited_response
                 [("status", JInt 429); ("message", JStr Demo.message);
                  ("metadata", Demo.metadata_json)]).
  { split; [reflexivity|]. eexists. repeat split; reflexivity. }
  split.
  - apply Hdetected. eexists. exact Hd.
  - apply Hreset. eexists. split; [exact Hd|].
    exists (JStr "1741305600000"). split; reflexivity.
Defined.

(** A server error and a good answer carry no reset time. *)
Lemma C10_reset_only_when_detected_witness :
  snd (Utils.check_rate_limit_openai (env := Demo.healthy) Demo.server_error) = None
  /\ snd (Utils.check_rate_limit_error (env := Demo.healthy) Demo.ok_response) = None.
Proof.
  pose proof (C10_reset_only_when_detected (env := Demo.healthy)
                Demo.server_error Demo.ok_response) as [Hopenai Hraw].
  split; [apply Hopenai | apply Hraw]; reflexivity.
Defined.

(** A guessed key is rejected before anything else happens; a bearer
    scheme in capitals with the right key passes. *)
Lemma C7_access_key_verified_first_witness :
  (exists detail,
      proxy_endpoint (env := Demo.healthy) 3 Demo.intruder_request Demo.three_keys
      = Some (Raise (HTTPException 401 detail),
              checked (env := Demo.healthy) Demo.intruder_request Demo.three_keys))
  /\ proxy_endpoint (env := Demo.healthy) 3 Demo.shouting_request Demo.three_keys
     = dispatch (env := Demo.healthy) 3 Demo.shouting_request
                (checked (env := Demo.healthy) Demo.shouting_request Demo.three_keys).
Proof.
  split.
  - apply (C7_access_key_verified_first (env := Demo.healthy) 3
             Demo.intruder_request Demo.three_keys eq_refl).
    right. vm_compute. discriminate.
  - apply (proj1 (proj2 (C7_access_key_verified_first (env := Demo.healthy) 3
                           Demo.shouting_request Demo.three_keys eq_refl))
             "BEARER"); reflexivity.
Defined.

(** The models listing leaves the pool alone. *)
Lemma C8_public_paths_use_no_key_witness :
  is_public (env := Demo.healthy) (req_path Demo.models_request) = true
  /\ lowercase_names Demo.models_request
  /\ exists r w' evs,
      proxy_endpoint (env := Demo.healthy) 1 Demo.models_request Demo.three_keys
      = Some (r, w')
      /\ pool w' = pool Demo.three_keys
      /\ history w' = (history Demo.three_keys ++ evs)%list
      /\ Forall (fun ev => is_upstream ev = true) evs
      /\ forall body st hs mt,
          r = Ok (StreamingResponse body st hs mt) ->
          exists frames, run_body (env := Demo.healthy) body w' = (Ok frames, w').
Proof.
  assert (Hlow : lowercase_names Demo.models_request)
    by (repeat constructor).
  split; [reflexivity|]. split; [exact Hlow|].
  apply (C8_public_paths_use_no_key (env := Demo.healthy) 1 Demo.models_request
           Demo.three_keys eq_refl Hlow).
  lia.
Defined.

(** The headers sent for the models listing and for an embeddings
    request. *)
Lemma C9_forwarded_headers_witness :
  (exists sent rest,
      history (snd Demo.public_raw)
      = (history Demo.three_keys ++ EvHttpx sent :: rest)%list
      /\ (forall name,
             dict_get name (hx_headers sent)
             = if PyStr.mem (PyStr.lower name)
                    ["host"; "content-length"; "connection"]
               then None
               else last_value name (req_headers Demo.models_request))
      /\ (NoDup (map fst (req_headers Demo.models_request)) ->
          hx_headers sent
          = filter (fun kv => negb (PyStr.mem (PyStr.lower (fst kv))
                                      ["host"; "content-length"; "connection"]))
                   (req_headers Demo.models_request)))
  /\ (exists sent rest,
         history (snd Demo.keyed_raw)
         = (history Demo.three_keys ++ EvGetNextKey :: EvHttpx sent :: rest)%list
         /\ dict_get "Authorization" (hx_headers sent) = Some ("Bearer " ++ "sk-a")
         /\ (forall name,
                name <> "Authorization" ->
                dict_get name (hx_headers sent)
                = if PyStr.mem (PyStr.lower name)
                       ["host"; "content-length"; "connection"; "authorization"]
                  then None
                  else last_value name (req_headers Demo.embeddings_request))
         /\ (NoDup (map fst (req_headers Demo.embeddings_request)) ->
             hx_headers sent
             = (filter (fun kv => negb (PyStr.mem (PyStr.lower (fst kv))
                                          ["host"; "content-length";
                                           "connection"; "authorization"]))
                       (req_headers Demo.embeddings_request)
                  ++ [("Authorization", ("Bearer " ++ "sk-a")%string)])%list)).
Proof.
  split.
  - apply (proj1 (C9_forwarded_headers (env := Demo.healthy) Demo.models_request
                    "/models" false (JBool false) Demo.three_keys)
             (fst Demo.public_raw) (snd Demo.public_raw)).
    reflexivity.
  - apply (proj2 (C9_forwarded_headers (env := Demo.healthy)
                    Demo.embeddings_request "/embeddings" false (JBool false)
                    Demo.three_keys)
             "sk-a"
             (snd (get_next_key (env := Demo.healthy) Demo.three_keys))
             (fst Demo.keyed_raw) (snd Demo.keyed_raw)); reflexivity.
Defined.

(** A GET to the chat-completion path is answered by the structured
    handler, run with the first key of the pool. *)
Lemma C4_dispatch_witness :
  passes_check (env := Demo.healthy) Demo.get_chat_request
  /\ proxy_endpoint (env := Demo.healthy) 3 Demo.get_chat_request
                    Demo.three_keys
     = wrapped
         (handle_chat_completions (env := Demo.healthy) 3 "sk-a"
            Demo.get_chat_request (Some Demo.chat_fields) (JBool false)
            (snd (get_next_key (env := Demo.healthy)
                    (checked (env := Demo.healthy) Demo.get_chat_request
                             Demo.three_keys)))).
Proof.
  assert (Hpass : passes_check (env := Demo.healthy) Demo.get_chat_request)
    by (right; exists true; reflexivity).
  split; [exact Hpass|].
  exact (proj1 (proj2 (proj2 (C4_dispatch (env := Demo.healthy) 3
                                Demo.get_chat_request Demo.three_keys Hpass)))
           eq_refl).
Defined.

(** A quota error is surfaced as it is; a rate-limit error sends the
    handler round again with the next key. *)
Lemma C3_structured_failure_witness :
  handle_chat_completions (env := Demo.quota_limited) 3 "sk-a" Demo.chat_request
                          (Some Demo.chat_fields) (JBool false) Demo.three_keys
  = Some (Raise (HTTPException 500
                   ("Error processing chat completion: "
                      ++ str_exn (APIError Demo.quota_error))),
          snd Demo.quota_attempt)
  /\ handle_chat_completions (env := Demo.always_limited) 3 "sk-a"
       Demo.chat_request (Some Demo.chat_fields) (JBool false) Demo.three_keys
     = handle_chat_completions (env := Demo.always_limited) 2 "sk-b"
         Demo.chat_request (Some Demo.chat_fields) (JBool false)
         (snd Demo.replacement).
Proof.
  split.
  - apply (proj1 (C3_structured_failure (env := Demo.quota_limited) 2 "sk-a"
                    Demo.chat_request (Some Demo.chat_fields) (JBool false)
                    Demo.three_keys (snd Demo.quota_attempt)
                    (APIError Demo.quota_error) eq_refl)).
    reflexivity.
  - apply (proj2 (C3_structured_failure (env := Demo.always_limited) 2 "sk-a"
                    Demo.chat_request (Some Demo.chat_fields) (JBool false)
                    Demo.three_keys (snd Demo.limited_attempt)
                    (APIError Demo.rate_limit_error) eq_refl)).
    + reflexivity.
    + reflexivity.
    + discriminate.
Defined.

(** The raw path retries once; the structured handler starts over with
    the next key. *)
Lemma C1_bounded_failover_witness :
  (exists evs,
      history (snd Demo.limited_raw) = (history Demo.three_keys ++ evs)%list
      /\ ((length (httpx_calls evs) <= 1)%nat
          \/ exists pre first key,
              evs = (pre ++ [EvHttpx (with_authorization first key)])%list
              /\ httpx_calls pre = [first]
              /\ (forall name,
                     name <> "Authorization" ->
                     dict_get name (hx_headers (with_authorization first key))
                     = dict_get name (hx_headers first))
              /\ fst Demo.limited_raw
                 = match httpx_request (Env := Demo.always_limited)
                           (history Demo.three_keys ++ pre)
                           (with_authorization first key) with
                   | Ok final =>
                       match relay final with
                       | Ok response => Ok response
                       | Raise e =>
                           fst (httpx_handlers e (snd Demo.limited_raw))
                       end
                   | Raise e =>
                       fst (httpx_handlers e (snd Demo.limited_raw))
                   end))
  /\ handle_chat_completions (env := Demo.always_limited) 3 "sk-a"
       Demo.chat_request (Some Demo.chat_fields) (JBool false) Demo.three_keys
     = handle_chat_completions (env := Demo.always_limited) 2 "sk-b"
         Demo.chat_request (Some Demo.chat_fields) (JBool false)
         (snd Demo.replacement).
Proof.
  split.
  - apply (proj1 (C1_bounded_failover (env := Demo.always_limited))
             Demo.embeddings_request "/embeddings" false false (JBool false)
             Demo.three_keys (fst Demo.limited_raw) (snd Demo.limited_raw)).
    reflexivity.
  - apply (proj2 (C1_bounded_failover (env := Demo.always_limited))
             2%nat "sk-a" Demo.chat_request (Some Demo.chat_fields) (JBool false)
             Demo.three_keys (snd Demo.limited_attempt) (snd Demo.replacement)
             (APIError Demo.rate_limit_error) "sk-b").
    + reflexivity.
    + reflexivity.
    + reflexivity.
    + discriminate.
Defined.

(** ** The structured handler returns *)

(** While the clock stands still and the cooldown is positive, every
    re-execution of the structured handler follows the loss of a key that
    could be selected, so the handler returns within as many runs as there
    are such keys, and two more. *)
Section Termination.
Context {env : Env}.
Variable t : Z.
Hypothesis steady : forall h, now_ms h = t.

Lemma available_selectable (k : ApiKey) :
  KeyManager.available k = true -> selectable t k = true.
Proof.
  unfold selectable, KeyManager.reactivate, KeyManager.available.
  destruct (coolingUntil k) eqn:E; [discriminate | now rewrite E].
Qed.

Lemma selectable_reactivate (k : ApiKey) :
  selectable t (KeyManager.reactivate t k) = selectable t k.
Proof.
  unfold selectable. f_equal. unfold KeyManager.reactivate.
  destruct (coolingUntil k) as [u|] eqn:E; [|now rewrite E].
  destruct (u <=? t) eqn:Hu; simpl; [reflexivity | now rewrite E, Hu].
Qed.

Lemma selectable_count_reactivate (ks : list ApiKey) :
  length (filter (selectable t) (map (KeyManager.reactivate t) ks))
  = length (filter (selectable t) ks).
Proof.
  induction ks as [|k ks IH]; simpl; [reflexivity|].
  rewrite selectable_reactivate. destruct (selectable t k); simpl; now rewrite IH.
Qed.

Lemma acquire_steady (p : KeyPool) :
  selectable_count t (snd (KeyManager.acquire t p)) = selectable_count t p
  /\ pool_cooldown_ms (snd (KeyManager.acquire t p)) = pool_cooldown_ms p
  /\ forall s, fst (KeyManager.acquire t p) = Some s ->
               exists k, In k (pool_keys (snd (KeyManager.acquire t p)))
                         /\ secret k = s /\ selectable t k = true.
Proof.
  unfold KeyManager.acquire, selectable_count. simpl.
  split; [apply selectable_count_reactivate|]. split; [reflexivity|].
  intros s Hs.
  destruct (find KeyManager.available _) as [k|] eqn:Hfind; [|discriminate].
  injection Hs as <-. apply find_some in Hfind as [Hin Hav].
  exists k. split; [|auto using available_selectable].
  rewrite <- (firstn_skipn (pool_cursor p)
                (map (KeyManager.reactivate t) (pool_keys p))).
  apply in_or_app. apply in_app_or in Hin. tauto.
Qed.

(** Disabling a key never makes a key selectable, and it takes a
    selectable key of that secret away. *)
Lemma disable_count (key : string) (p : KeyPool) :
  0 < pool_cooldown_ms p ->
  (selectable_count t (KeyManager.disable t key None p)
   <= selectable_count t p)%nat
  /\ ((exists k, In k (pool_keys p) /\ secret k = key
                 /\ selectable t k = true) ->
      (selectable_count t (KeyManager.disable t key None p)
       < selectable_count t p)%nat).
Proof.
  intros Hpos. unfold selectable_count, KeyManager.disable. simpl.
  assert (Hoff : forall k,
             selectable t {| secret := secret k;
                             coolingUntil := Some (t + pool_cooldown_ms p) |}
             = false).
  { intros k. unfold selectable, KeyManager.reactivate. simpl.
    destruct (Z.leb_spec (t + pool_cooldown_ms p) t); [lia | reflexivity]. }
  induction (pool_keys p) as [|k ks [IHle IHlt]]; simpl.
  - split; [lia|]. intros (k & [] & _).
  - destruct (String.eqb (secret k) key) eqn:E.
    + rewrite Hoff. split.
      * destruct (selectable t k); simpl; lia.
      * intros (k' & [<- | Hin] & Hs & Hav).
        -- rewrite Hav. simpl. lia.
        -- specialize (IHlt (ex_intro _ k' (conj Hin (conj Hs Hav)))).
           destruct (selectable t k); simpl; lia.
    + destruct (selectable t k) eqn:Hav; simpl.
      * split; [lia|].
        intros (k' & [<- | Hin] & Hs & Hav').
        -- apply String.eqb_neq in E. contradiction.
        -- apply -> Nat.succ_lt_mono. apply IHlt. eauto.
      * split; [exact IHle|].
        intros (k' & [<- | Hin] & Hs & Hav').
        -- congruence.
        -- apply IHlt. eauto.
Qed.

Lemma chat_attempt_pool api_key req request_body is_stream (w : World) x w1 :
  chat_attempt api_key req request_body is_stream w = (x, w1) ->
  pool w1 = pool w.
Proof.
  unfold chat_attempt. destruct request_body as [body|].
  - destruct (keyword_collision _); [intros H; now injection H as <- <-|].
    destruct (Py.truthy is_stream); unfold bind, create, create_stream, ret.
    + destruct (chat_create_stream _ _); intros H; now injection H as <- <-.
    + destruct (chat_create _ _); intros H; now injection H as <- <-.
  - intros H. now injection H as <- <-.
Qed.

Lemma get_next_key_pool (w : World) x w3 :
  get_next_key w = (x, w3) ->
  pool w3 = snd (KeyManager.acquire (now_ms (history w)) (pool w))
  /\ forall s, x = Ok (Some s) ->
               fst (KeyManager.acquire (now_ms (history w)) (pool w)) = Some s.
Proof.
  unfold get_next_key.
  destruct (KeyManager.acquire _ _) as [k p'].
  destruct k; [|destruct (pool_exhausted _)]; intros H; injection H as <- <-;
    (split; [reflexivity|]); intros s' Hs; simpl; congruence.
Qed.

(** What a disable and an acquire leave of the pool. *)
Lemma rotate_steady (api_key : string) (w1 : World) x w3 :
  0 < pool_cooldown_ms (pool w1) ->
  get_next_key (disabled api_key None w1) = (x, w3) ->
  pool_cooldown_ms (pool w3) = pool_cooldown_ms (pool w1)
  /\ (selectable_count t (pool w3) <= selectable_count t (pool w1))%nat
  /\ ((exists k, In k (pool_keys (pool w1)) /\ secret k = api_key
                 /\ selectable t k = true) ->
      (selectable_count t (pool w3) < selectable_count t (pool w1))%nat)
  /\ forall new_api_key,
      x = Ok (Some new_api_key) ->
      exists k, In k (pool_keys (pool w3)) /\ secret k = new_api_key
                /\ selectable t k = true.
Proof.
  intros Hpos Hk. apply get_next_key_pool in Hk as [Hw3 Hx].
  rewrite steady in Hw3, Hx.
  assert (Hp2 : pool (disabled api_key None w1)
                = KeyManager.disable t api_key None (pool w1))
    by (unfold disabled, disable_key; simpl; now rewrite steady).
  rewrite Hp2 in Hw3, Hx.
  set (p2 := KeyManager.disable t api_key None (pool w1)) in *.
  destruct (acquire_steady p2) as (Hcount & Hcool & Hsel).
  destruct (disable_count api_key (pool w1) Hpos) as [Hle Hlt].
  fold p2 in Hle, Hlt.
  rewrite Hw3, Hcount. repeat split; trivial.
  intros s Hs. apply Hsel, Hx, Hs.
Qed.

Lemma handle_returns_with_key (fuel : nat) :
  forall api_key req request_body is_stream (w : World),
    0 < pool_cooldown_ms (pool w) ->
    (exists k, In k (pool_keys (pool w)) /\ secret k = api_key
               /\ selectable t k = true) ->
    (selectable_count t (pool w) < fuel)%nat ->
    exists r w',
      handle_chat_completions fuel api_key req request_body is_stream w
      = Some (r, w').
Proof.
  induction fuel as [|fuel IH]; intros api_key req request_body is_stream w
                                       Hpos Hkey Hfuel; [lia|].
  rewrite handle_step.
  destruct (chat_attempt api_key req request_body is_stream w)
    as [[response|e] w1] eqn:Hattempt; [eauto|].
  apply chat_attempt_pool in Hattempt. cbv zeta.
  destruct (looks_rate_limited e api_key); [|eauto].
  rewrite <- Hattempt in Hpos, Hkey, Hfuel.
  destruct (get_next_key (disabled api_key None w1)) as [[k|e'] w3] eqn:Hk;
    [|eauto].
  destruct (rotate_steady api_key w1 _ _ Hpos Hk)
    as (Hcool & _ & Hlt & Hsel).
  destruct k as [s|]; [|simpl; eauto].
  destruct (truthy_key (Some s)); [|eauto].
  apply IH.
  - now rewrite Hcool.
  - now apply Hsel.
  - specialize (Hlt Hkey). lia.
Qed.

(** Enough fuel: the handler returns. *)
Theorem handle_chat_completions_returns (fuel : nat) :
  forall api_key req request_body is_stream (w : World),
    0 < pool_cooldown_ms (pool w) ->
    (selectable_count t (pool w) + 2 <= fuel)%nat ->
    exists r w',
      handle_chat_completions fuel api_key req request_body is_stream w
      = Some (r, w').
Proof.
  intros api_key req request_body is_stream w Hpos Hfuel.
  destruct fuel as [|fuel]; [lia|].
  rewrite handle_step.
  destruct (chat_attempt api_key req request_body is_stream w)
    as [[response|e] w1] eqn:Hattempt; [eauto|].
  apply chat_attempt_pool in Hattempt. cbv zeta.
  destruct (looks_rate_limited e api_key); [|eauto].
  rewrite <- Hattempt in Hpos, Hfuel.
  destruct (get_next_key (disabled api_key None w1)) as [[k|e'] w3] eqn:Hk;
    [|eauto].
  destruct (rotate_steady api_key w1 _ _ Hpos Hk)
    as (Hcool & Hle & _ & Hsel).
  destruct k as [s|]; [|simpl; eauto].
  destruct (truthy_key (Some s)); [|eauto].
  apply handle_returns_with_key.
  - now rewrite Hcool.
  - now apply Hsel.
  - lia.
Qed.

Lemma structured_key_steady (public : bool) (w : World) x w1 :
  structured_key public w = (x, w1) ->
  pool_cooldown_ms (pool w1) = pool_cooldown_ms (pool w)
  /\ selectable_count t (pool w1) = selectable_count t (pool w).
Proof.
  unfold structured_key. destruct public; simpl.
  - intros H. now injection H as <- <-.
  - unfold bind. destruct (get_next_key w) as [[k|e] w2] eqn:Hk;
      apply get_next_key_pool in Hk as [Hw2 _]; rewrite steady in Hw2;
      destruct (acquire_steady (pool w)) as (Hcount & Hcool & _);
      rewrite <- Hw2 in Hcount, Hcool.
    + destruct (truthy_key k); intros H; injection H as <- <-; auto.
    + intros H. injection H as <- <-. auto.
Qed.

(** X15: enough fuel, the endpoint returns.  Suppose the clock stands
    still at [t] and the cooldown is positive, and count the keys that
    can be selected at [t]: those Available and those Cooling whose time
    has passed.  A recursion depth of that number and two more is enough
    for [proxy_endpoint], whatever the upstream answers. *)
Theorem proxy_endpoint_returns (fuel : nat) (req : Request) (w : World) :
  0 < pool_cooldown_ms (pool w) ->
  (selectable_count t (pool w) + 2 <= fuel)%nat ->
  exists r w', proxy_endpoint fuel req w = Some (r, w').
Proof.
  intros Hpos Hfuel. unfold proxy_endpoint, bindP.
  destruct ((if negb (is_public (req_path req))
             then verify_access_key (authorization_of req)
             else ret true) w) as [[b|e] w0] eqn:Hv; [|eauto].
  assert (Hw0 : pool w0 = pool w).
  { destruct (negb _).
    - unfold verify_access_key, bind, emit, lift in Hv.
      destruct (Utils.verify_access_key _ _);
        [injection Hv as _ <-; reflexivity | discriminate].
    - now injection Hv as _ <-. }
  rewrite <- Hw0 in Hpos, Hfuel.
  unfold dispatch. destruct (parse_body req) as [request_body is_stream].
  destruct (goes_raw (req_path req)).
  { unfold liftP. destruct (proxy_with_httpx _ _ _ _ _ w0). eauto. }
  unfold try_exceptP, bindP.
  destruct (structured_key (is_public (req_path req)) w0) as [[api_key|e] w1] eqn:Hk.
  - apply structured_key_steady in Hk as (Hcool & Hcount).
    destruct (PyStr.contains "/chat/completions" (req_path req)).
    + destruct (handle_chat_completions_returns fuel api_key req request_body
                  is_stream w1) as (r & w' & ->).
      * now rewrite Hcool.
      * lia.
      * destruct r; simpl; unfold liftP, raise; eauto.
    + unfold liftP. destruct (proxy_with_httpx _ _ _ _ _ w1) as [[r|e] w'];
        simpl; unfold raise; eauto.
  - simpl. unfold liftP, raise. eauto.
Qed.

End Termination.

(** With three keys and an upstream that rate limits each of them, five
    runs are enough. *)
Lemma limited_endpoint_returns :
  0 < pool_cooldown_ms (pool Demo.three_keys)
  /\ (selectable_count 1000 (pool Demo.three_keys) + 2 <= 5)%nat
  /\ exists r w',
      proxy_endpoint (env := Demo.always_limited) 5 Demo.chat_request
                     Demo.three_keys
      = Some (r, w').
Proof.
  assert (Hpos : 0 < pool_cooldown_ms (pool Demo.three_keys)) by reflexivity.
  assert (Hfuel : (selectable_count 1000 (pool Demo.three_keys) + 2 <= 5)%nat)
    by (vm_compute; lia).
  repeat split; trivial.
  apply (proxy_endpoint_returns (env := Demo.always_limited) 1000
           (fun _ => eq_refl) 5%nat Demo.chat_request Demo.three_keys
           Hpos Hfuel).
Defined.

(** * Further properties of the two files *)

(** ** utils.py *)

Section MoreRecognizers.
Context {env : Env}.

(** The reset time of an error body is the parsed X-RateLimit-Reset
    value of its metadata headers. *)
Lemma reset_of_body_spec (b : dict JSON) (n : Z) :
  Utils.reset_of_body (JObj b) = Ok n <-> Spec.reset_parses b n.
Proof.
  unfold Utils.reset_of_body, Spec.reset_parses, Spec.reset_value. simpl.
  destruct (dict_get "metadata" b) as [m|]; simpl.
  2:{ split; [discriminate | intros (x & Hx & _); discriminate]. }
  destruct m as [| | | | |l|m]; simpl;
    try (split; [discriminate | intros (x & Hx & _); discriminate]).
  destruct (dict_get "headers" m) as [h|]; simpl.
  2:{ split; [discriminate | intros (x & Hx & _); discriminate]. }
  destruct h as [| | | | |l|h]; simpl;
    try (split; [discriminate | intros (x & Hx & _); discriminate]).
  destruct (dict_get "X-RateLimit-Reset" h) as [x|]; simpl.
  - split; [eauto|]. intros (x' & Hx & Hn). now injection Hx as <-.
  - split; [discriminate | intros (x & Hx & _); discriminate].
Qed.

(** X1: the structured recognizer returns a reset time exactly when the
    code of the error is the known code, its body is an object, and the
    X-RateLimit-Reset value of the metadata headers of the body parses
    as an integer; it reports a rate limit exactly when it returns a
    reset time or the message of the error contains the known text. *)
Theorem openai_recognizer (err : APIErr) :
  (forall n,
      snd (Utils.check_rate_limit_openai err) = Some n
      <-> Py.eq_int (err_code err) RATE_LIMIT_ERROR_CODE = true
          /\ exists b, err_body err = JObj b /\ Spec.reset_parses b n)
  /\ (fst (Utils.check_rate_limit_openai err) = true
      <-> (exists n, snd (Utils.check_rate_limit_openai err) = Some n)
          \/ PyStr.contains RATE_LIMIT_ERROR_MESSAGE (err_message err) = true).
Proof.
  unfold Utils.check_rate_limit_openai.
  destruct (Py.eq_int (err_code err) RATE_LIMIT_ERROR_CODE) eqn:Hcode; simpl.
  - destruct (err_body err) as [| | | | |l|b] eqn:Hbody; simpl;
      try (destruct (PyStr.contains _ _); simpl;
           (split; [intros n; split; [discriminate
                                     | intros (_ & b' & Hb & _); discriminate]
                   | split; [intros H; try discriminate; now right
                            | intros [(n & Hn) | H]; congruence]])).
    destruct (Utils.reset_of_body (JObj b)) as [n|e] eqn:Hreset; simpl.
    + apply reset_of_body_spec in Hreset. split.
      * intros n'. split.
        -- intros H. injection H as <-. eauto.
        -- intros (_ & b' & Hb & Hp). injection Hb as <-.
           apply reset_of_body_spec in Hreset, Hp. congruence.
      * split; [eauto | reflexivity].
    + destruct (PyStr.contains _ _); simpl.
      * split.
        -- intros n. split; [discriminate|].
           intros (_ & b' & Hb & Hp). injection Hb as <-.
           apply reset_of_body_spec in Hp. congruence.
        -- split; [now right | reflexivity].
      * split.
        -- intros n. split; [discriminate|].
           intros (_ & b' & Hb & Hp). injection Hb as <-.
           apply reset_of_body_spec in Hp. congruence.
        -- split; [discriminate | intros [(n & Hn) | H]; discriminate].
  - destruct (PyStr.contains _ _); simpl.
    + split.
      * intros n. split; [discriminate | intros (H & _); discriminate].
      * split; [now right | reflexivity].
    + split.
      * intros n. split; [discriminate | intros (H & _); discriminate].
      * split; [discriminate | intros [(n & Hn) | H]; discriminate].
Qed.

End MoreRecognizers.

(** The parts of a header: the scheme has no space, and the separator is
    missing only when there is nothing after the scheme. *)
Lemma partition_space_parts (a scheme sep token : string) :
  PyStr.partition_space a = (scheme, sep, token) ->
  Spec.has_space scheme = false
  /\ ((sep = " " /\ a = scheme ++ " " ++ token)
      \/ (sep = EmptyString /\ token = EmptyString /\ a = scheme)).
Proof.
  revert scheme sep token.
  induction a as [|c a IH]; simpl; intros scheme sep token H.
  - injection H as <- <- <-. auto.
  - destruct (Ascii.eqb c " "%char) eqn:Hc.
    + injection H as <- <- <-. apply Ascii.eqb_eq in Hc. subst c.
      split; [reflexivity|]. left. auto.
    + destruct (PyStr.partition_space a) as [[s0 sep0] t0].
      injection H as <- <- <-.
      destruct (IH s0 sep0 t0 eq_refl) as [Hs [[-> ->] | (-> & -> & ->)]].
      * split; [simpl; now rewrite Hc|]. left. auto.
      * split; [simpl; now rewrite Hc|]. right. auto.
Qed.

Lemma partition_space_no_space (s : string) :
  Spec.has_space s = false ->
  PyStr.partition_space s = (s, EmptyString, EmptyString).
Proof.
  induction s as [|c s IH]; simpl; intros H; [reflexivity|].
  apply orb_false_iff in H as [Hc Hs]. now rewrite Hc, (IH Hs).
Qed.

Lemma bearer_has_no_space (scheme : string) :
  PyStr.lower scheme = "bearer" -> Spec.has_space scheme = false.
Proof. intros H. now rewrite <- has_space_lower, H. Qed.

(** X2: [verify_access_key] returns True exactly for a header made of a
    scheme that reads bearer in any case of the letters, one space and the
    access key, and, when the access key is empty, for the bare scheme; in
    every other case, and always when no access key is given, it raises an
    exception with status 401.  It never returns False. *)
Theorem verify_access_key_accepts_iff (authorization : option string)
        (access_key : string) :
  (Utils.verify_access_key authorization (Some access_key) = Ok true
   <-> exists scheme,
        PyStr.lower scheme = "bearer"
        /\ (authorization = Some (scheme ++ " " ++ access_key)
            \/ (access_key = EmptyString /\ authorization = Some scheme)))
  /\ (forall key,
         Utils.verify_access_key authorization key = Ok true
         \/ exists detail,
             Utils.verify_access_key authorization key
             = Raise (HTTPException 401 detail))
  /\ (exists detail,
         Utils.verify_access_key authorization None
         = Raise (HTTPException 401 detail)).
Proof.
  split; [|split].
  - split.
    + unfold Utils.verify_access_key.
      destruct authorization as [a|]; [|discriminate].
      destruct (String.eqb a EmptyString); [discriminate|].
      destruct (PyStr.partition_space a) as [[scheme sep] token] eqn:Hp.
      destruct (String.eqb (PyStr.lower scheme) "bearer") eqn:Hs; simpl;
        [|discriminate].
      destruct (String.eqb token access_key) eqn:Ht; simpl; [|discriminate].
      intros _. apply String.eqb_eq in Hs, Ht. subst token.
      apply partition_space_parts in Hp as [_ [[_ Ha] | (_ & Hk & Ha)]];
        exists scheme; (split; [exact Hs|]).
      * left. now rewrite Ha.
      * right. split; [exact Hk | now rewrite Ha].
    + intros (scheme & Hs & [-> | [-> ->]]).
      * destruct (bearer_scheme_join scheme access_key Hs) as [H1 H2].
        apply verify_accepts; [now rewrite H1 | exact H2].
      * apply verify_accepts; unfold Spec.scheme_of, Spec.token_of;
          rewrite (partition_space_no_space scheme (bearer_has_no_space scheme Hs));
          [exact Hs | reflexivity].
  - intros key. unfold Utils.verify_access_key.
    destruct authorization as [a|]; [|eauto].
    destruct (String.eqb a EmptyString); [eauto|].
    destruct (PyStr.partition_space a) as [[scheme sep] token].
    destruct (negb _); [eauto|].
    destruct key as [k|]; [|eauto].
    destruct (negb _); eauto.
  - unfold Utils.verify_access_key.
    destruct authorization as [a|]; [|eauto].
    destruct (String.eqb a EmptyString); [eauto|].
    destruct (PyStr.partition_space a) as [[scheme sep] token].
    destruct (negb _); eauto.
Qed.

(** ** routes.py: the structured path *)

Lemma dict_get_del {V : Type} (k k' : string) (d : dict V) :
  dict_get k (dict_del k' d) = if String.eqb k k' then None else dict_get k d.
Proof.
  unfold dict_del. induction d as [|[k0 v0] t IH]; simpl.
  - now destruct (String.eqb k k').
  - destruct (String.eqb k' k0) eqn:E0; simpl.
    + apply String.eqb_eq in E0. subst k0. rewrite IH.
      now destruct (String.eqb k k').
    + rewrite IH. destruct (String.eqb k k') eqn:E1; [|reflexivity].
      apply String.eqb_eq in E1. subst k'. now rewrite E0.
Qed.

Lemma mem_middle (k p : string) (l1 l2 : list string) :
  PyStr.mem k (l1 ++ p :: l2) = PyStr.mem k (p :: l1 ++ l2).
Proof.
  unfold PyStr.mem. rewrite existsb_app. simpl. rewrite existsb_app.
  destruct (String.eqb k p), (existsb (String.eqb k) l1); reflexivity.
Qed.

(** The loop that moves parameters, for any list of names: a name that
    has been dealt with is gone from the arguments and sits in the side
    bucket with the value the body gave it. *)
Lemma move_params_spec (body : dict JSON) (params : list string) :
  forall (acc : dict JSON * dict JSON) (done : list string),
    (forall k, dict_get k (fst acc)
               = if PyStr.mem k done then None else dict_get k body) ->
    (forall k, dict_get k (snd acc)
               = if PyStr.mem k done then dict_get k body else None) ->
    (forall k, dict_get k (fst (fold_left move_param params acc))
               = if PyStr.mem k (params ++ done) then None else dict_get k body)
    /\ (forall k, dict_get k (snd (fold_left move_param params acc))
                  = if PyStr.mem k (params ++ done) then dict_get k body else None).
Proof.
  induction params as [|p params IH]; intros [args extra] done Hargs Hextra;
    simpl in *; [auto|].
  assert (Hstep :
            (forall k, dict_get k (fst (move_param (args, extra) p))
                       = if PyStr.mem k (p :: done) then None else dict_get k body)
            /\ (forall k, dict_get k (snd (move_param (args, extra) p))
                          = if PyStr.mem k (p :: done) then dict_get k body else None)).
  { unfold move_param, PyStr.mem in *. simpl.
    destruct (dict_get p args) as [v|] eqn:Hp; simpl.
    - assert (Hv : existsb (String.eqb p) done = false /\ dict_get p body = Some v).
      { rewrite Hargs in Hp. destruct (existsb (String.eqb p) done); [discriminate|auto]. }
      destruct Hv as [Hnot Hv]. split; intros k.
      + rewrite dict_get_del, Hargs. now destruct (String.eqb k p).
      + rewrite dict_get_set, Hextra.
        destruct (String.eqb k p) eqn:E; [|reflexivity].
        apply String.eqb_eq in E. subst k. simpl. now rewrite Hv.
    - split; intros k.
      + rewrite Hargs. destruct (String.eqb k p) eqn:E; [|reflexivity].
        apply String.eqb_eq in E. subst k. simpl.
        rewrite Hargs in Hp. now destruct (existsb (String.eqb p) done).
      + rewrite Hextra. destruct (String.eqb k p) eqn:E; [|reflexivity].
        apply String.eqb_eq in E. subst k. simpl.
        rewrite Hargs in Hp. now destruct (existsb (String.eqb p) done). }
  destruct Hstep as [Hargs' Hextra'].
  destruct (IH (move_param (args, extra) p) (p :: done) Hargs' Hextra') as [H1 H2].
  split; intros k.
  - rewrite H1, mem_middle. reflexivity.
  - rewrite H2, mem_middle. reflexivity.
Qed.

Lemma split_unsupported_fold (body : dict JSON) :
  split_unsupported body = fold_left move_param unsupported_params (body, []).
Proof. reflexivity. Qed.

(** X3: the arguments of the chat call are the fields of the body without
    stream, include_reasoning, transforms and route, each with the value
    the body gave it; the side bucket extra_body holds those of
    include_reasoning, transforms and route that the body has, with their
    values, and nothing else. *)
Theorem chat_call_arguments (api_key : string) (req : Request)
        (body : dict JSON) (stream : bool) (k : string) :
  dict_get k (chat_args (chat_call api_key req body stream))
  = (if PyStr.mem k ("stream" :: unsupported_params) then None
     else dict_get k body)
  /\ dict_get k (chat_extra_body (chat_call api_key req body stream))
     = (if PyStr.mem k unsupported_params then dict_get k body else None)
  /\ chat_api_key (chat_call api_key req body stream) = api_key
  /\ chat_stream (chat_call api_key req body stream) = stream.
Proof.
  unfold chat_call. rewrite split_unsupported_fold.
  destruct (move_params_spec body unsupported_params (body, []) [])
    as [Hargs Hextra]; [reflexivity | reflexivity |].
  rewrite app_nil_r in Hargs, Hextra.
  destruct (fold_left move_param unsupported_params (body, [])) as [args extra].
  simpl in Hargs, Hextra. cbn [chat_args chat_extra_body chat_api_key chat_stream].
  repeat split.
  - rewrite dict_get_del, Hargs.
    change (PyStr.mem k ("stream" :: unsupported_params))
      with (String.eqb k "stream" || PyStr.mem k unsupported_params).
    now destruct (String.eqb k "stream").
  - apply Hextra.
Qed.

(** X4: of the inbound headers the chat call carries those named
    http-referer or x-title, in any case of the letters, each with its
    last inbound value, and no other. *)
Theorem chat_call_headers (api_key : string) (req : Request)
        (body : dict JSON) (stream : bool) (name : string) :
  dict_get name (chat_extra_headers (chat_call api_key req body stream))
  = if PyStr.mem (PyStr.lower name) ["http-referer"; "x-title"]
    then last_value name (req_headers req)
    else None.
Proof.
  unfold chat_call. destruct (split_unsupported body) as [args extra].
  cbn [chat_extra_headers]. unfold forward_headers.
  apply dict_get_of_items.
Qed.

Section StructuredCalls.
Context {env : Env}.

Lemma chat_attempt_events api_key req request_body is_stream (w : World) x w1 :
  chat_attempt api_key req request_body is_stream w = (x, w1) ->
  exists evs,
    history w1 = (history w ++ evs)%list
    /\ Forall (structured_event req request_body is_stream) evs.
Proof.
  unfold chat_attempt. destruct request_body as [body|].
  - destruct (keyword_collision _).
    { intros H. injection H as <- <-. exists []. now rewrite app_nil_r. }
    destruct (Py.truthy is_stream) eqn:Hs;
      unfold bind, create, create_stream, ret.
    + destruct (chat_create_stream _ _); intros H; injection H as <- <-;
        eexists; (split; [reflexivity|]); repeat constructor;
        exists api_key, body; rewrite Hs; auto.
    + destruct (chat_create _ _); intros H; injection H as <- <-;
        eexists; (split; [reflexivity|]); repeat constructor;
        exists api_key, body; rewrite Hs; auto.
  - intros H. injection H as <- <-. exists []. now rewrite app_nil_r.
Qed.

(** X5: whatever the number of retries, the structured handler makes no
    raw upstream request and no access check, disables keys only
    without a reset time, and makes every chat call with the arguments
    built from the body and the stream flag of the request: the calls
    differ in the key only. *)
Theorem structured_handler_events (fuel : nat) :
  forall api_key req request_body is_stream (w : World) r w',
    handle_chat_completions fuel api_key req request_body is_stream w
    = Some (r, w') ->
    exists evs,
      history w' = (history w ++ evs)%list
      /\ Forall (structured_event req request_body is_stream) evs.
Proof.
  induction fuel as [|fuel IH];
    intros api_key req request_body is_stream w r w'; [discriminate|].
  rewrite handle_step.
  destruct (chat_attempt api_key req request_body is_stream w)
    as [[response|e] w1] eqn:Hattempt;
    apply chat_attempt_events in Hattempt as (evs1 & E1 & F1).
  - intros H. injection H as <- <-. eauto.
  - cbv zeta. destruct (looks_rate_limited e api_key).
    + destruct (get_next_key (disabled api_key None w1)) as [[k|e'] w3] eqn:Hk;
        apply get_next_key_history in Hk; unfold disabled in Hk; simpl in Hk.
      * destruct (truthy_key k).
        -- intros H. apply IH in H as (evs3 & E3 & F3).
           exists (evs1 ++ [EvDisableKey api_key None; EvGetNextKey] ++ evs3)%list.
           split.
           ++ rewrite E3, Hk, E1. now rewrite <- !app_assoc.
           ++ apply Forall_app. split; [exact F1|].
              apply Forall_app. split; [|exact F3].
              repeat constructor.
        -- intros H. injection H as <- <-.
           exists (evs1 ++ [EvDisableKey api_key None; EvGetNextKey])%list.
           split.
           ++ rewrite Hk, E1. now rewrite <- !app_assoc.
           ++ apply Forall_app. split; [exact F1|]. repeat constructor.
      * intros H. injection H as <- <-.
        exists (evs1 ++ [EvDisableKey api_key None; EvGetNextKey])%list.
        split.
        -- rewrite Hk, E1. now rewrite <- !app_assoc.
        -- apply Forall_app. split; [exact F1|]. repeat constructor.
    + intros H. injection H as <- <-. eauto.
Qed.

(** X6: without a parsed body the structured path makes no upstream
    call and disables no key: the request is answered with status 500,
    and at most a key has been taken from the pool. *)
Theorem absent_body_is_an_error (fuel : nat) (req : Request) (w : World) :
  goes_raw (req_path req) = false ->
  fst (parse_body req) = None ->
  exists detail w',
    dispatch (S fuel) req w = Some (Raise (HTTPException 500 detail), w')
    /\ (history w' = history w
        \/ history w' = (history w ++ [EvGetNextKey])%list).
Proof.
  intros Hraw Hbody. unfold dispatch. rewrite Hraw.
  destruct (parse_body req) as [request_body is_stream]. simpl in Hbody.
  subst request_body.
  apply goes_raw_false in Hraw as (_ & _ & ->).
  assert (Hhandle : forall api_key w0,
             handle_chat_completions (S fuel) api_key req None is_stream w0
             = Some (Raise (HTTPException 500
                              ("Error processing chat completion: "
                                 ++ "'NoneType' object has no attribute 'copy'")),
                     w0)).
  { intros api_key w0. rewrite handle_step. reflexivity. }
  unfold try_exceptP, bindP, structured_key.
  destruct (negb (is_public (req_path req))).
  - unfold bind.
    destruct (get_next_key w) as [[k|e] w1] eqn:Hk;
      apply get_next_key_history in Hk.
    + destruct (truthy_key k).
      * unfold ret. rewrite Hhandle. simpl. unfold liftP, raise. eauto.
      * unfold raise. simpl. unfold liftP, raise. eauto.
    + simpl. unfold liftP, raise. eauto.
  - unfold ret. rewrite Hhandle. simpl. unfold liftP, raise. eauto.
Qed.

Lemma chat_args_get (api_key : string) (req : Request) (body : dict JSON)
      (stream : bool) (k : string) :
  dict_get k (chat_args (chat_call api_key req body stream))
  = if PyStr.mem k ("stream" :: unsupported_params) then None
    else dict_get k body.
Proof.
  unfold chat_call. rewrite split_unsupported_fold.
  destruct (move_params_spec body unsupported_params (body, []) [])
    as [Hargs _]; [reflexivity | reflexivity |].
  rewrite app_nil_r in Hargs.
  destruct (fold_left move_param unsupported_params (body, [])) as [args extra].
  simpl in Hargs. cbn [chat_args].
  rewrite dict_get_del, Hargs.
  change (PyStr.mem k ("stream" :: unsupported_params))
    with (String.eqb k "stream" || PyStr.mem k unsupported_params).
  now destruct (String.eqb k "stream").
Qed.

Lemma keyword_collision_body (api_key : string) (req : Request)
      (body : dict JSON) (stream : bool) :
  keyword_collision (chat_args (chat_call api_key req body stream))
  = if dict_mem "extra_headers" body then Some "extra_headers"
    else if dict_mem "extra_body" body then Some "extra_body"
    else None.
Proof.
  unfold keyword_collision, dict_mem. now rewrite !chat_args_get.
Qed.

(** X17: a body that holds a field named extra_headers or extra_body
    gives the chat call a keyword twice: the call is not made, no key
    is disabled and nothing is retried, and the request is answered
    with status 500. *)
Theorem colliding_keyword_is_an_error (fuel : nat) (api_key : string)
        (req : Request) (body : dict JSON) (is_stream : JSON) (w : World) :
  dict_mem "extra_headers" body = true \/ dict_mem "extra_body" body = true ->
  exists name,
    (name = "extra_headers" \/ name = "extra_body")
    /\ handle_chat_completions (S fuel) api_key req (Some body) is_stream w
       = Some (Raise (HTTPException 500
                        ("Error processing chat completion: "
                           ++ "create() got multiple values for keyword argument '"
                           ++ name ++ "'")),
               w).
Proof.
  intros Hin. rewrite handle_step. unfold chat_attempt.
  rewrite keyword_collision_body.
  destruct (dict_mem "extra_headers" body) eqn:Hh.
  - exists "extra_headers". split; [now left|]. reflexivity.
  - destruct Hin as [Hin | Hin]; [discriminate|]. rewrite Hin.
    exists "extra_body". split; [now right|]. reflexivity.
Qed.

End StructuredCalls.

(** ** routes.py: the raw path *)

Section RawRelay.
Context {env : Env}.

Lemma response_headers_raises (hs : list (string * string)) (e : exn) :
  Codec.response_headers hs = Raise e ->
  exists text, e = PyError UnicodeEncodeError text.
Proof.
  unfold Codec.response_headers.
  destruct (Codec.encoding_of hs); try discriminate.
  assert (Hall : forall l e0, Codec.transcode_all l = Raise e0 ->
                              exists text, e0 = PyError UnicodeEncodeError text).
  { induction l as [|[k v] l IH]; simpl; intros e0; [discriminate|].
    unfold Codec.transcode.
    destruct (Codec.utf8_decode v) as [cps|]; simpl.
    - destruct (Codec.latin1_encode cps); simpl.
      + destruct (Codec.transcode_all l) as [l'|e1]; simpl; [discriminate|].
        intros H. injection H as <-. now apply IH.
      + intros H. injection H as <-. eauto.
    - destruct (Codec.transcode_all l) as [l'|e1]; simpl; [discriminate|].
      intros H. injection H as <-. now apply IH. }
  destruct (Codec.transcode_all hs) as [hs'|e1] eqn:Ht; simpl; [discriminate|].
  intros H. injection H as <-. eapply Hall, Ht.
Qed.

(** The handlers of [proxy_with_httpx] on the response that ends its
    [try] block. *)
Lemma relay_closed (resp : HttpxResponse) (w : World) :
  match relay resp with
  | Ok response => (Ok response, w)
  | Raise e => httpx_handlers e w
  end = (closed (relay resp), w)
  /\ match relay_binary resp with
     | Ok response => (Ok response, w)
     | Raise e => httpx_handlers e w
     end = (closed (relay_binary resp), w).
Proof.
  unfold relay, relay_binary.
  destruct (Codec.response_headers (resp_headers resp)) as [hs|e] eqn:Hh;
    simpl; [split; reflexivity|].
  apply response_headers_raises in Hh as (text & ->). split; reflexivity.
Qed.

Lemma latin1_encode_fails (cps : list Z) :
  Codec.latin1_encode cps = None <-> existsb (fun cp => 255 <? cp) cps = true.
Proof.
  induction cps as [|cp t IH]; simpl; [split; discriminate|].
  destruct (Z.leb_spec cp 255) as [Hle | Hgt].
  - destruct (Z.ltb_spec 255 cp); [lia|]. simpl. rewrite <- IH.
    destruct (Codec.latin1_encode t); simpl; split; congruence.
  - destruct (Z.ltb_spec 255 cp); [|lia]. simpl. split; reflexivity.
Qed.

Lemma transcode_fails (v : string) :
  (exists e, Codec.transcode v = Raise e) <-> beyond_latin1 v = true.
Proof.
  unfold Codec.transcode, beyond_latin1.
  destruct (Codec.utf8_decode v) as [cps|].
  - rewrite <- latin1_encode_fails.
    destruct (Codec.latin1_encode cps); split; intros H;
      [destruct H; discriminate | discriminate | reflexivity | eauto].
  - split; [intros (e & H) |]; discriminate.
Qed.

Lemma transcode_all_fails (hs : list (string * string)) :
  (exists e, Codec.transcode_all hs = Raise e)
  <-> existsb (fun kv => beyond_latin1 (snd kv)) hs = true.
Proof.
  induction hs as [|[k v] t IH]; simpl.
  - split; [intros (e & H) |]; discriminate.
  - rewrite orb_true_iff, <- IH, <- transcode_fails.
    destruct (Codec.transcode v) as [v'|e]; simpl.
    + destruct (Codec.transcode_all t) as [t'|e']; simpl.
      * split; [intros (e & H); discriminate|].
        intros [(e & H) | (e & H)]; discriminate.
      * split; eauto.
    + split; eauto.
Qed.

(** X18: the response that ends the raw path cannot be built, and the
    request is answered with status 500, exactly when httpx decodes the
    headers of the upstream answer as UTF-8, that is when all of them
    are valid UTF-8 and not all of them are ASCII, and one of the
    values holds a character above U+00FF. *)
Theorem relay_fails_iff (resp : HttpxResponse) :
  ((exists e, relay resp = Raise e)
   <-> Codec.encoding_of (resp_headers resp) = Codec.UTF8
       /\ existsb (fun kv => beyond_latin1 (snd kv)) (resp_headers resp) = true)
  /\ ((exists e, relay_binary resp = Raise e)
      <-> exists e, relay resp = Raise e)
  /\ forall e (w : World),
      relay resp = Raise e ->
      exists detail, httpx_handlers e w = (Raise (HTTPException 500 detail), w).
Proof.
  assert (Hheaders :
            (exists e, Codec.response_headers (resp_headers resp) = Raise e)
            <-> Codec.encoding_of (resp_headers resp) = Codec.UTF8
                /\ existsb (fun kv => beyond_latin1 (snd kv))
                           (resp_headers resp) = true).
  { unfold Codec.response_headers. rewrite <- transcode_all_fails.
    destruct (Codec.encoding_of (resp_headers resp)).
    - split; [intros (e & H) | intros [H _]]; discriminate.
    - destruct (Codec.transcode_all (resp_headers resp)) as [hs|e]; simpl.
      + split; [intros (e & H) | intros [_ (e & H)]]; discriminate.
      + split; eauto.
    - split; [intros (e & H) | intros [H _]]; discriminate. }
  unfold relay, relay_binary.
  split; [|split].
  - rewrite <- Hheaders.
    destruct (Codec.response_headers (resp_headers resp)); simpl; split;
      intros (e0 & H); try discriminate; eauto.
  - destruct (Codec.response_headers (resp_headers resp)); simpl; split;
      intros (e0 & H); try discriminate; eauto.
  - intros e w H.
    destruct (Codec.response_headers (resp_headers resp)) as [hs|e0] eqn:Hh;
      simpl in H; [discriminate|].
    injection H as <-.
    apply response_headers_raises in Hh as (text & ->).
    eexists. reflexivity.
Qed.

(** [proxy_with_httpx] once the request is built, by the outcome of the
    first upstream request. *)
Lemma proxy_with_httpx_after (req : Request) (path : string)
      (public binary : bool) (is_stream : JSON) (w w1 : World)
      (rk : HttpxRequest) :
  build_request req path public w = (Ok rk, w1) ->
  proxy_with_httpx req path public binary is_stream w
  = match httpx_request (history w1) rk with
    | Ok resp =>
        if binary
        then (closed (relay_binary resp), sent rk w1)
        else if relayed_as_events is_stream resp
             then (Ok (StreamingResponse (SSEStream resp) 200 sse_headers
                         (Some "text/event-stream")),
                   sent rk w1)
             else match failover rk resp (sent rk w1) with
                  | (Ok final, w2) => (closed (relay final), w2)
                  | (Raise e, w2) => httpx_handlers e w2
                  end
    | Raise (ConnectError text) =>
        if PyStr.contains "/models" path
        then (Ok (PlainResponse
                    (json_dumps
                       (JObj [("error", JStr "Could not connect to OpenRouter API");
                              ("details", JStr text)]))
                    503 [] (Some "application/json")),
              sent rk w1)
        else httpx_handlers
               (HTTPException 503 "Unable to connect to OpenRouter API")
               (sent rk w1)
    | Raise e => httpx_handlers e (sent rk w1)
    end.
Proof.
  intros Hb. unfold proxy_with_httpx, try_except, bind. rewrite Hb.
  unfold send, bind, first_request, try_except, bind, client_request.
  fold (sent rk w1).
  destruct (httpx_request (history w1) rk) as [resp|e].
  - cbn [deliver ret]. destruct binary.
    { unfold lift. apply (relay_closed resp (sent rk w1)). }
    fold (relayed_as_events is_stream resp).
    destruct (relayed_as_events is_stream resp); [reflexivity|].
    unfold bind. destruct (failover rk resp (sent rk w1)) as [[final|e] w2];
      [|reflexivity].
    unfold lift. apply (relay_closed final w2).
  - destruct e; try reflexivity.
    destruct (PyStr.contains "/models" path); reflexivity.
Qed.

Lemma ascii_headers_kept (resp : HttpxResponse) :
  ascii_headers resp = true ->
  Codec.response_headers (resp_headers resp)
  = Ok (httpx_headers_dict (resp_headers resp)).
Proof.
  unfold ascii_headers, Codec.response_headers, Codec.encoding_of.
  now intros ->.
Qed.

(** X7: a binary endpoint and an event-stream answer are relayed with
    no look at the body for a rate limit: one upstream request is made,
    no key is disabled and nothing is retried, even when the body
    carries the rate-limit error.  The binary relay keeps the status of
    the upstream, delivers its bytes and carries its headers as
    Starlette encodes them, unchanged when they are ASCII; when the
    headers cannot be encoded the answer is an internal error, status
    500, still after the one request. *)
Theorem streamed_answers_are_not_inspected (req : Request) (path : string)
        (public binary : bool) (is_stream : JSON) (w w1 : World)
        (rk : HttpxRequest) (resp : HttpxResponse) :
  build_request req path public w = (Ok rk, w1) ->
  httpx_request (history w1) rk = Ok resp ->
  (binary = true ->
   proxy_with_httpx req path public binary is_stream w
   = (match Codec.response_headers (resp_headers resp) with
      | Ok headers =>
          Ok (StreamingResponse (BinaryStream resp) (resp_status_code resp)
                                headers None)
      | Raise e => Raise (HTTPException 500 ("Proxy error: " ++ str_exn e))
      end,
      sent rk w1)
   /\ (ascii_headers resp = true ->
       Codec.response_headers (resp_headers resp)
       = Ok (httpx_headers_dict (resp_headers resp)))
   /\ String.concat EmptyString (stream_binary resp) = resp_content resp)
  /\ (binary = false ->
      relayed_as_events is_stream resp = true ->
      proxy_with_httpx req path public binary is_stream w
      = (Ok (StreamingResponse (SSEStream resp) 200 sse_headers
               (Some "text/event-stream")),
         sent rk w1)).
Proof.
  intros Hb Hresp. rewrite (proxy_with_httpx_after _ _ _ _ _ _ _ _ Hb), Hresp.
  split.
  - intros ->. split; [|split].
    + unfold closed, relay_binary.
      now destruct (Codec.response_headers (resp_headers resp)).
    + apply ascii_headers_kept.
    + unfold stream_binary. destruct (resp_content resp); reflexivity.
  - intros -> ->. reflexivity.
Qed.

(** X8: a buffered answer in which no rate limit is recognized, or that
    was obtained without a key, is returned after one upstream request
    and with no key disabled: the status and the body of the upstream,
    and its headers as Starlette encodes them, unchanged when they are
    ASCII.  When the headers cannot be encoded the answer is an internal
    error, status 500, instead. *)
Theorem buffered_answer_is_relayed (req : Request) (path : string)
        (public : bool) (is_stream : JSON) (w w1 : World)
        (rk : HttpxRequest) (resp : HttpxResponse) :
  build_request req path public w = (Ok rk, w1) ->
  httpx_request (history w1) rk = Ok resp ->
  relayed_as_events is_stream resp = false ->
  fst (Utils.check_rate_limit_error resp) = false
  \/ truthy_key (current_key_of rk) = false ->
  proxy_with_httpx req path public false is_stream w
  = (match Codec.response_headers (resp_headers resp) with
     | Ok headers =>
         Ok (PlainResponse (resp_content resp) (resp_status_code resp)
                           headers None)
     | Raise e => Raise (HTTPException 500 ("Proxy error: " ++ str_exn e))
     end,
     sent rk w1)
  /\ (ascii_headers resp = true ->
      Codec.response_headers (resp_headers resp)
      = Ok (httpx_headers_dict (resp_headers resp))).
Proof.
  intros Hb Hresp Hev Hno. split; [|apply ascii_headers_kept].
  rewrite (proxy_with_httpx_after _ _ _ _ _ _ _ _ Hb), Hresp, Hev.
  unfold failover. destruct (Utils.check_rate_limit_error resp) as [has reset].
  assert (Hcond : has && truthy_key (current_key_of rk) = false).
  { destruct Hno as [H | H]; simpl in H; rewrite H;
      [reflexivity | apply andb_false_r]. }
  rewrite Hcond. unfold ret, closed, relay.
  now destruct (Codec.response_headers (resp_headers resp)).
Qed.

(** X9: when the first upstream request fails, nothing is retried and
    no key is disabled: a timeout is answered with status 504, and a
    connection failure on a path that contains /models with a JSON
    response of status 503. *)
Theorem first_request_failures (req : Request) (path : string)
        (public binary : bool) (is_stream : JSON) (w w1 : World)
        (rk : HttpxRequest) (text : string) :
  build_request req path public w = (Ok rk, w1) ->
  (httpx_request (history w1) rk = Raise (TimeoutException text) ->
   proxy_with_httpx req path public binary is_stream w
   = (Raise (HTTPException 504 "OpenRouter API request timed out"), sent rk w1))
  /\ (httpx_request (history w1) rk = Raise (ConnectError text) ->
      PyStr.contains "/models" path = true ->
      exists content,
        proxy_with_httpx req path public binary is_stream w
        = (Ok (PlainResponse content 503 [] (Some "application/json")),
           sent rk w1)).
Proof.
  intros Hb. rewrite (proxy_with_httpx_after _ _ _ _ _ _ _ _ Hb).
  split.
  - intros ->. reflexivity.
  - intros -> ->. eauto.
Qed.

End RawRelay.

Lemma remove_absent (old s : string) :
  PyStr.contains old s = false -> PyStr.remove_go old 0 s = s.
Proof.
  induction s as [|c t IH]; simpl; intros H; [reflexivity|].
  apply orb_false_iff in H as [Hp Ht].
  rewrite Hp, (IH Ht). reflexivity.
Qed.

Section RawKeys.
Context {env : Env}.

(** X10: the key read back from the Authorization header of the request
    built for a pool key is that key, provided the key does not itself
    contain the text "Bearer " (which the read-back would cut out). *)
Theorem key_read_back (req : Request) (path key : string) :
  PyStr.contains "Bearer " key = false ->
  current_key_of (keyed_request req path (Some key)) = Some key.
Proof.
  intros Hk. unfold current_key_of, keyed_request, keyed_headers.
  cbn [hx_headers]. rewrite dict_get_set, String.eqb_refl.
  cbn [option_map fmt_key]. f_equal.
  unfold PyStr.remove. simpl.
  assert (Hempty : String.prefix EmptyString key = true)
    by (destruct key; reflexivity).
  rewrite Hempty. apply (remove_absent "Bearer " key Hk).
Qed.

Lemma build_request_keyed (req : Request) (path key : string) (w w1 : World) :
  get_next_key w = (Ok (Some key), w1) ->
  build_request req path false w = (Ok (keyed_request req path (Some key)), w1).
Proof. intros Hk. unfold build_request, bind. now rewrite Hk. Qed.

Lemma failover_detected (rk : HttpxRequest) (resp : HttpxResponse)
      (reset : option Z) (key : string) (w : World) x w' :
  Utils.check_rate_limit_error resp = (true, reset) ->
  current_key_of rk = Some key ->
  key <> EmptyString ->
  failover rk resp w = (x, w') ->
  exists rest,
    history w'
    = (history w ++ EvDisableKey key reset :: EvGetNextKey :: rest)%list.
Proof.
  intros Hcheck Hkey Hne. unfold failover.
  rewrite Hcheck, Hkey, (truthy_key_some key Hne). cbn [andb fmt_key].
  unfold bind at 1. unfold disable_key at 1.
  set (w2 := {| pool := _; history := _ |}).
  unfold bind.
  destruct (get_next_key w2) as [[k|e] w3] eqn:Hk2;
    apply get_next_key_history in Hk2; subst w2; simpl in Hk2.
  - intros H.
    assert (Hev : emits anything
                    (if truthy_key k
                     then client_request (with_authorization rk (fmt_key k))
                     else raise (HTTPException 429
                                   "Rate limited and no available API keys")))
      by (destruct (truthy_key k);
          [apply emits_client_request | apply emits_raise]; exact I).
    apply Hev in H as (evs & E & _). exists evs.
    rewrite E, Hk2. now rewrite <- !app_assoc.
  - intros H. injection H as <- <-. exists [].
    rewrite Hk2. now rewrite <- !app_assoc.
Qed.

(** X11: on the raw path, when the buffered answer to a request made
    with a pool key carries the rate-limit error, that key is disabled
    with the reset time the recognizer returned, right after the first
    upstream request and before the next key is asked for. *)
Theorem raw_path_disables_used_key (req : Request) (path key : string)
        (is_stream : JSON) (w w1 : World) (resp : HttpxResponse)
        (reset : option Z) r w' :
  get_next_key w = (Ok (Some key), w1) ->
  key <> EmptyString ->
  PyStr.contains "Bearer " key = false ->
  httpx_request (history w1) (keyed_request req path (Some key)) = Ok resp ->
  relayed_as_events is_stream resp = false ->
  Utils.check_rate_limit_error resp = (true, reset) ->
  proxy_with_httpx req path false false is_stream w = (r, w') ->
  exists rest,
    history w'
    = (history w
         ++ EvGetNextKey :: EvHttpx (keyed_request req path (Some key))
         :: EvDisableKey key reset :: EvGetNextKey :: rest)%list.
Proof.
  intros Hk Hne Hclean Hresp Hev Hcheck.
  rewrite (proxy_with_httpx_after _ _ _ _ _ _ _ _
             (build_request_keyed req path key w w1 Hk)), Hresp, Hev.
  apply get_next_key_history in Hk.
  destruct (failover (keyed_request req path (Some key)) resp
              (sent (keyed_request req path (Some key)) w1))
    as [[final|e] w2] eqn:Hf;
    apply (failover_detected _ _ reset key) in Hf as (rest & E);
    trivial; try apply key_read_back; trivial.
  - intros H. injection H as <- <-. exists rest.
    rewrite E. simpl. rewrite Hk. now rewrite <- !app_assoc.
  - destruct (httpx_handlers_world e w2) as (e' & ->).
    intros H. injection H as <- <-. exists rest.
    rewrite E. simpl. rewrite Hk. now rewrite <- !app_assoc.
Qed.

End RawKeys.

Section RawRequests.
Context {env : Env}.
Variable P : Event -> Prop.
Hypothesis Hpool : allows_pool P.
Variable rk : HttpxRequest.
Hypothesis Hfirst : P (EvHttpx rk).
Hypothesis Hretry : forall key, P (EvHttpx (with_authorization rk key)).

Lemma emits_failover_retry resp : emits P (failover rk resp).
Proof.
  destruct Hpool as [Hg Hd].
  unfold failover. destruct (Utils.check_rate_limit_error resp) as [has reset].
  destruct (has && truthy_key (current_key_of rk)); [|auto with emits].
  apply emits_bind; [auto with emits|]. intros _.
  apply emits_bind; [auto with emits|]. intros k.
  destruct (truthy_key k); auto with emits.
Qed.

Lemma emits_send_retry path binary is_stream :
  emits P (send path rk binary is_stream).
Proof.
  unfold send. apply emits_bind.
  - unfold first_request. apply emits_try_except; [auto with emits|].
    intros e. destruct (PyStr.contains "/models" path); auto with emits.
  - intros [resp|resp]; simpl; [auto with emits|].
    destruct binary; [auto with emits|].
    destruct (Py.truthy is_stream && _); [auto with emits|].
    apply emits_bind; [apply emits_failover_retry | auto with emits].
Qed.

End RawRequests.

Section RawVerbatim.
Context {env : Env}.

Lemma raw_event_allows_pool (req : Request) (path : string) :
  allows_pool (raw_event req path).
Proof. split; intros; exact I. Qed.

Lemma build_request_events (req : Request) (path : string) (public : bool)
      (w : World) x w1 :
  build_request req path public w = (x, w1) ->
  (exists evs, history w1 = (history w ++ evs)%list
               /\ Forall (raw_event req path) evs)
  /\ forall rk, x = Ok rk -> raw_event req path (EvHttpx rk).
Proof.
  unfold build_request. destruct public.
  - intros H. injection H as <- <-. split.
    + exists []. now rewrite app_nil_r.
    + intros rk Hrk. injection Hrk as <-. simpl. auto.
  - unfold bind. destruct (get_next_key w) as [[k|e] w2] eqn:Hk;
      apply get_next_key_history in Hk; intros H; injection H as <- <-.
    + split.
      * exists [EvGetNextKey]. split; [exact Hk|]. repeat constructor.
      * intros rk Hrk. injection Hrk as <-. simpl. auto.
    + split.
      * exists [EvGetNextKey]. split; [exact Hk|]. repeat constructor.
      * intros rk Hrk. discriminate.
Qed.

(** X12: every upstream request of the raw path, the retry included,
    carries the method and the body of the inbound request and the
    address made of the base address, the path and, when the request
    has query parameters, a question mark and the query string; and the
    raw path makes no chat call and no access check. *)
Theorem raw_path_forwards_verbatim (req : Request) (path : string)
        (public binary : bool) (is_stream : JSON) (w : World) r w' :
  proxy_with_httpx req path public binary is_stream w = (r, w') ->
  exists evs,
    history w' = (history w ++ evs)%list
    /\ Forall (raw_event req path) evs.
Proof.
  unfold proxy_with_httpx, try_except, bind.
  destruct (build_request req path public w) as [[rk|e] w1] eqn:Hb;
    apply build_request_events in Hb as [(evs0 & E0 & F0) Hrk].
  - specialize (Hrk rk eq_refl).
    destruct (send path rk binary is_stream w1) as [x w2] eqn:Hs.
    apply (emits_send_retry (raw_event req path)
             (raw_event_allows_pool req path) rk Hrk) in Hs
      as (evs1 & E1 & F1).
    2:{ intros key. exact Hrk. }
    intros H.
    assert (Hw : w' = w2).
    { destruct x as [resp|e]; simpl in H.
      - now injection H as _ <-.
      - destruct (httpx_handlers_world e w2) as (e' & He').
        rewrite He' in H. now injection H as _ <-. }
    subst w'. exists (evs0 ++ evs1)%list. split.
    + rewrite E1, E0. now rewrite <- app_assoc.
    + now apply Forall_app.
  - simpl. destruct (httpx_handlers_world e w1) as (e' & ->).
    intros H. injection H as <- <-. eauto.
Qed.

End RawVerbatim.

(** ** routes.py: the event-stream relay *)

Lemma prefix_split (p : string) :
  forall s, String.prefix p s = true -> exists r, s = p ++ r.
Proof.
  induction p as [|a p IH]; intros s H.
  - exists s. reflexivity.
  - destruct s as [|b s]; [discriminate|]. simpl in H.
    destruct (Ascii.ascii_dec a b) as [<-|]; [|discriminate].
    destruct (IH s H) as (r & ->). exists r. reflexivity.
Qed.

Lemma substring_all (s : string) : substring 0 (String.length s) s = s.
Proof. induction s as [|c s IH]; simpl; [reflexivity | now rewrite IH]. Qed.

Section EventStream.
Context {env : Env}.

(** X13: the event-stream relay sends every non-empty line of the
    upstream, in order, followed by a blank line, and drops the empty
    lines; the terminal marker and the data lines are framed like any
    other line. *)
Theorem stream_sse_frames (resp : HttpxResponse) :
  stream_sse resp
  = map (fun line => line ++ nl ++ nl)
        (filter (fun line => negb (String.eqb line EmptyString))
                (aiter_lines resp)).
Proof.
  unfold stream_sse. induction (aiter_lines resp) as [|line lines IH];
    [reflexivity|].
  cbn [flat_map filter]. rewrite IH. clear IH.
  destruct (PyStr.startswith line "data: ") eqn:Hp.
  - apply prefix_split in Hp as (rest & ->).
    change (String.eqb ("data: " ++ rest) EmptyString) with false.
    cbn [negb map app].
    replace (substring 6 (String.length ("data: " ++ rest) - 6) ("data: " ++ rest))
      with rest by (simpl; rewrite Nat.sub_0_r; symmetry; apply substring_all).
    destruct (String.eqb rest "[DONE]") eqn:Hd; [|reflexivity].
    apply String.eqb_eq in Hd. subst rest. reflexivity.
  - destruct (String.eqb line EmptyString); reflexivity.
Qed.

(** X14: the body-parsing step gives a parsed body only when the body
    is not empty and parses to a JSON object, and then this object;
    the stream flag is the stream field of that object, false when the
    field is missing, and false when there is no object.  Off the
    chat-completion POST every body that parses to an object is kept. *)
Theorem parse_body_result (req : Request) :
  (forall o, fst (parse_body req) = Some o ->
             req_body req <> EmptyString
             /\ json_loads (req_body req) = Some (JObj o))
  /\ (forall o, req_body req <> EmptyString ->
                json_loads (req_body req) = Some (JObj o) ->
                snd (parse_body req)
                = match dict_get "stream" o with
                  | Some v => v
                  | None => JBool false
                  end)
  /\ ((forall o, json_loads (req_body req) <> Some (JObj o)) ->
      parse_body req = (None, JBool false))
  /\ (forall o, req_body req <> EmptyString ->
                json_loads (req_body req) = Some (JObj o) ->
                PyStr.contains "/chat/completions" (req_path req)
                && String.eqb (req_method req) "POST" = false ->
                fst (parse_body req) = Some o).
Proof.
  unfold parse_body.
  destruct (String.eqb (req_body req) EmptyString) eqn:Hempty.
  - apply String.eqb_eq in Hempty. repeat split; try discriminate;
      intros; try contradiction; reflexivity.
  - apply String.eqb_neq in Hempty.
    destruct (json_loads (req_body req)) as [data|].
    + destruct data as [| | | | |l|o]; simpl;
        try (repeat split; try discriminate; intros; try discriminate;
             reflexivity).
      destruct (PyStr.contains _ _ && String.eqb _ _).
      * destruct (model_variant_check (JObj o)); simpl; repeat split.
        -- exact Hempty.
        -- now injection H as <-.
        -- intros o' _ H. now injection H as <-.
        -- intros H. now contradiction (H o).
        -- discriminate.
        -- discriminate.
        -- discriminate.
        -- intros o' _ H. now injection H as <-.
        -- intros H. now contradiction (H o).
        -- discriminate.
      * simpl. repeat split.
        -- exact Hempty.
        -- now injection H as <-.
        -- intros o' _ H. now injection H as <-.
        -- intros H. now contradiction (H o).
        -- intros o' _ H _. now injection H as <-.
    + repeat split; try discriminate; intros; try discriminate; reflexivity.
Qed.

End EventStream.

(** ** routes.py: a failure in the middle of a stream *)

Section StreamFailure.
Context {env : Env}.

Lemma looks_rate_limited_iff (e : exn) (api_key : string) :
  looks_rate_limited e api_key = true
  <-> PyStr.contains "rate limit" (PyStr.lower (str_exn e)) = true
      /\ api_key <> EmptyString.
Proof.
  unfold looks_rate_limited. rewrite andb_true_iff, negb_true_iff.
  now rewrite String.eqb_neq.
Qed.

(** X16: delivering the structured stream asks one thing at most of the
    collaborators: when the upstream stream fails with an exception
    whose text, in lower case, contains "rate limit", and the stream was
    opened with a key, that key is disabled without a reset time; in
    every other case, a normal end included, nothing is asked. *)
Theorem stream_failure_disables_key (api_key : string) (up : UpStream)
        (w : World) :
  (forall e,
      failure_of up = Some e ->
      PyStr.contains "rate limit" (PyStr.lower (str_exn e)) = true ->
      api_key <> EmptyString ->
      snd (stream_response api_key up w) = disabled api_key None w)
  /\ ((forall e,
          failure_of up = Some e ->
          PyStr.contains "rate limit" (PyStr.lower (str_exn e)) = false
          \/ api_key = EmptyString) ->
      snd (stream_response api_key up w) = w).
Proof.
  rewrite stream_response_run. cbn [snd]. split.
  - intros e -> Htext Hkey.
    now rewrite (proj2 (looks_rate_limited_iff e api_key) (conj Htext Hkey)).
  - intros H. destruct (failure_of up) as [e|]; [|reflexivity].
    destruct (looks_rate_limited e api_key) eqn:Hl; [|reflexivity].
    apply looks_rate_limited_iff in Hl as [Htext Hkey].
    destruct (H e eq_refl) as [Hno | Hempty]; congruence.
Qed.

End StreamFailure.

(** ** The further properties at work on the concrete deployment *)

(** The SDK error of a rate limit carries its reset time. *)
Lemma openai_recognizer_witness :
  snd (Utils.check_rate_limit_openai (env := Demo.healthy) Demo.rate_limit_error)
  = Some 1741305600000
  /\ fst (Utils.check_rate_limit_openai (env := Demo.healthy) Demo.quota_error)
     = true.
Proof.
  split.
  - apply (proj1 (openai_recognizer (env := Demo.healthy) Demo.rate_limit_error)).
    split; [reflexivity|]. eexists. split; [reflexivity|].
    exists (JStr "1741305600000"). split; reflexivity.
  - apply (proj2 (openai_recognizer (env := Demo.healthy) Demo.quota_error)).
    left. exists 1741305600000. reflexivity.
Defined.

(** The configured key under a bearer scheme is accepted. *)
Lemma verify_access_key_accepts_iff_witness :
  Utils.verify_access_key (Some ("Bearer" ++ " " ++ "local-key")) (Some "local-key")
  = Ok true.
Proof.
  apply (proj1 (verify_access_key_accepts_iff
                  (Some ("Bearer" ++ " " ++ "local-key")) "local-key")).
  exists "Bearer". split; [reflexivity|]. left. reflexivity.
Defined.

(** Three rate-limited runs of the structured handler. *)
Lemma structured_handler_events_witness :
  match handle_chat_completions (env := Demo.always_limited) 5 "sk-a"
          Demo.chat_request (Some Demo.chat_fields) (JBool false)
          Demo.three_keys with
  | Some (r, w') =>
      exists evs,
        history w' = (history Demo.three_keys ++ evs)%list
        /\ Forall (structured_event Demo.chat_request (Some Demo.chat_fields)
                     (JBool false)) evs
  | None => False
  end.
Proof.
  destruct (handle_chat_completions (env := Demo.always_limited) 5 "sk-a"
              Demo.chat_request (Some Demo.chat_fields) (JBool false)
              Demo.three_keys) as [[r w']|] eqn:Hrun.
  - apply (structured_handler_events (env := Demo.always_limited) 5 "sk-a"
             Demo.chat_request (Some Demo.chat_fields) (JBool false)
             Demo.three_keys r w' Hrun).
  - vm_compute in Hrun. discriminate.
Defined.

(** A chat-completion request whose body is not JSON. *)
Lemma absent_body_is_an_error_witness :
  goes_raw (env := Demo.healthy) (req_path Demo.garbled_chat_request) = false
  /\ fst (parse_body (env := Demo.healthy) Demo.garbled_chat_request) = None
  /\ exists detail w',
      dispatch (env := Demo.healthy) 3 Demo.garbled_chat_request Demo.three_keys
      = Some (Raise (HTTPException 500 detail), w')
      /\ (history w' = history Demo.three_keys
          \/ history w' = (history Demo.three_keys ++ [EvGetNextKey])%list).
Proof.
  split; [reflexivity|]. split; [reflexivity|].
  apply (absent_body_is_an_error (env := Demo.healthy) 2
           Demo.garbled_chat_request Demo.three_keys); reflexivity.
Defined.

(** An image, an image whose headers cannot be encoded, and an event
    stream. *)
Lemma streamed_answers_are_not_inspected_witness :
  (proxy_with_httpx (env := Demo.always_limited) Cases.images_request
                    "/images/generate" false true (JBool false) Cases.two_keys
   = (Ok (StreamingResponse (BinaryStream Demo.rate_limited_response) 429
            [("content-type", "application/json")] None),
      sent (keyed_request (env := Demo.always_limited) Cases.images_request
                          "/images/generate" (Some "sk-a"))
           (Cases.keyed Demo.always_limited Cases.two_keys))
   /\ String.concat EmptyString
        (stream_binary Demo.rate_limited_response)
      = resp_content Demo.rate_limited_response)
  /\ proxy_with_httpx (env := Cases.priced) Cases.images_request
                      "/images/generate" false true (JBool false) Cases.two_keys
     = (Raise (HTTPException 500
                 "Proxy error: 'latin-1' codec can't encode character"),
        sent (keyed_request (env := Cases.priced) Cases.images_request
                            "/images/generate" (Some "sk-a"))
             (Cases.keyed Cases.priced Cases.two_keys))
  /\ proxy_with_httpx (env := Cases.streaming) Demo.embeddings_request
                      "/embeddings" false false (JBool true) Cases.two_keys
     = (Ok (StreamingResponse (SSEStream Cases.events_response) 200 sse_headers
              (Some "text/event-stream")),
        sent (keyed_request (env := Cases.streaming) Demo.embeddings_request
                            "/embeddings" (Some "sk-a"))
             (Cases.keyed Cases.streaming Cases.two_keys)).
Proof.
  split; [|split].
  - pose proof (proj1 (streamed_answers_are_not_inspected
                    (env := Demo.always_limited) Cases.images_request
                    "/images/generate" false true (JBool false) Cases.two_keys
                    (Cases.keyed Demo.always_limited Cases.two_keys)
                    (keyed_request (env := Demo.always_limited)
                       Cases.images_request "/images/generate" (Some "sk-a"))
                    Demo.rate_limited_response eq_refl eq_refl) eq_refl)
      as (Hrun & _ & Hbytes).
    split; [exact Hrun | exact Hbytes].
  - exact (proj1 (proj1 (streamed_answers_are_not_inspected
                    (env := Cases.priced) Cases.images_request
                    "/images/generate" false true (JBool false) Cases.two_keys
                    (Cases.keyed Cases.priced Cases.two_keys)
                    (keyed_request (env := Cases.priced)
                       Cases.images_request "/images/generate" (Some "sk-a"))
                    Cases.priced_response eq_refl eq_refl) eq_refl)).
  - apply (proj2 (streamed_answers_are_not_inspected
                    (env := Cases.streaming) Demo.embeddings_request
                    "/embeddings" false false (JBool true) Cases.two_keys
                    (Cases.keyed Cases.streaming Cases.two_keys)
                    (keyed_request (env := Cases.streaming)
                       Demo.embeddings_request "/embeddings" (Some "sk-a"))
                    Cases.events_response eq_refl eq_refl)); reflexivity.
Defined.

(** A good answer is handed on; an answer with a price in euros is
    not. *)
Lemma buffered_answer_is_relayed_witness :
  proxy_with_httpx (env := Demo.healthy) Demo.embeddings_request "/embeddings"
                   false false (JBool false) Cases.two_keys
  = (Ok (PlainResponse "{}" 200 [("content-type", "application/json")] None),
     sent (keyed_request (env := Demo.healthy) Demo.embeddings_request
                         "/embeddings" (Some "sk-a"))
          (Cases.keyed Demo.healthy Cases.two_keys))
  /\ proxy_with_httpx (env := Cases.priced) Demo.embeddings_request
                      "/embeddings" false false (JBool false) Cases.two_keys
     = (Raise (HTTPException 500
                 "Proxy error: 'latin-1' codec can't encode character"),
        sent (keyed_request (env := Cases.priced) Demo.embeddings_request
                            "/embeddings" (Some "sk-a"))
             (Cases.keyed Cases.priced Cases.two_keys)).
Proof.
  split.
  - exact (proj1 (buffered_answer_is_relayed (env := Demo.healthy)
             Demo.embeddings_request "/embeddings" false (JBool false)
             Cases.two_keys (Cases.keyed Demo.healthy Cases.two_keys)
             (keyed_request (env := Demo.healthy) Demo.embeddings_request
                "/embeddings" (Some "sk-a"))
             Demo.ok_response eq_refl eq_refl eq_refl (or_introl eq_refl))).
  - exact (proj1 (buffered_answer_is_relayed (env := Cases.priced)
             Demo.embeddings_request "/embeddings" false (JBool false)
             Cases.two_keys (Cases.keyed Cases.priced Cases.two_keys)
             (keyed_request (env := Cases.priced) Demo.embeddings_request
                "/embeddings" (Some "sk-a"))
             Cases.priced_response eq_refl eq_refl eq_refl
             (or_introl eq_refl))).
Defined.

(** A slow upstream, and a models listing that cannot be reached. *)
Lemma first_request_failures_witness :
  proxy_with_httpx (env := Cases.slow) Demo.embeddings_request "/embeddings"
                   false false (JBool false) Cases.two_keys
  = (Raise (HTTPException 504 "OpenRouter API request timed out"),
     sent (keyed_request (env := Cases.slow) Demo.embeddings_request
                         "/embeddings" (Some "sk-a"))
          (Cases.keyed Cases.slow Cases.two_keys))
  /\ exists content,
      proxy_with_httpx (env := Demo.unreachable) Demo.models_request "/models"
                       true false (JBool false) Cases.two_keys
      = (Ok (PlainResponse content 503 [] (Some "application/json")),
         sent (public_request (env := Demo.unreachable) Demo.models_request
                              "/models")
              Cases.two_keys).
Proof.
  split.
  - apply (proj1 (first_request_failures (env := Cases.slow)
                    Demo.embeddings_request "/embeddings" false false
                    (JBool false) Cases.two_keys
                    (Cases.keyed Cases.slow Cases.two_keys)
                    (keyed_request (env := Cases.slow) Demo.embeddings_request
                       "/embeddings" (Some "sk-a"))
                    "timed out" eq_refl)).
    reflexivity.
  - apply (proj2 (first_request_failures (env := Demo.unreachable)
                    Demo.models_request "/models" true false (JBool false)
                    Cases.two_keys Cases.two_keys
                    (public_request (env := Demo.unreachable)
                       Demo.models_request "/models")
                    "All connection attempts failed" eq_refl));
      reflexivity.
Defined.

(** A key of the usual shape is read back as it is. *)
Lemma key_read_back_witness :
  PyStr.contains "Bearer " "sk-a" = false
  /\ current_key_of (keyed_request (env := Demo.healthy) Demo.embeddings_request
                       "/embeddings" (Some "sk-a"))
     = Some "sk-a".
Proof.
  split; [reflexivity|].
  apply (key_read_back (env := Demo.healthy) Demo.embeddings_request
           "/embeddings" "sk-a").
  reflexivity.
Defined.

(** The first key is disabled until the reset time the upstream gave. *)
Lemma raw_path_disables_used_key_witness :
  exists rest,
    history (snd Cases.limited_run)
    = (history Cases.two_keys
         ++ EvGetNextKey
         :: EvHttpx (keyed_request (env := Demo.always_limited)
                       Demo.embeddings_request "/embeddings" (Some "sk-a"))
         :: EvDisableKey "sk-a" (Some 1741305600000) :: EvGetNextKey :: rest)%list.
Proof.
  apply (raw_path_disables_used_key (env := Demo.always_limited)
           Demo.embeddings_request "/embeddings" "sk-a" (JBool false)
           Cases.two_keys (Cases.keyed Demo.always_limited Cases.two_keys)
           Demo.rate_limited_response (Some 1741305600000)
           (fst Cases.limited_run) (snd Cases.limited_run)).
  - reflexivity.
  - discriminate.
  - reflexivity.
  - reflexivity.
  - reflexivity.
  - reflexivity.
  - reflexivity.
Defined.

(** The two requests of a retried call. *)
Lemma raw_path_forwards_verbatim_witness :
  exists evs,
    history (snd Cases.limited_run) = (history Cases.two_keys ++ evs)%list
    /\ Forall (raw_event (env := Demo.always_limited) Demo.embeddings_request
                 "/embeddings") evs.
Proof.
  apply (raw_path_forwards_verbatim (env := Demo.always_limited)
           Demo.embeddings_request "/embeddings" false false (JBool false)
           Cases.two_keys (fst Cases.limited_run) (snd Cases.limited_run)).
  reflexivity.
Defined.

(** The body of a chat-completion request. *)
Lemma parse_body_result_witness :
  req_body Demo.chat_request <> EmptyString
  /\ json_loads (Env := Demo.healthy) (req_body Demo.chat_request)
     = Some (JObj Demo.chat_fields)
  /\ snd (parse_body (env := Demo.healthy) Demo.chat_request) = JBool false.
Proof.
  pose proof (parse_body_result (env := Demo.healthy) Demo.chat_request)
    as (Hsome & Hstream & _ & _).
  destruct (Hsome Demo.chat_fields eq_refl) as [Hne Hloads].
  split; [exact Hne|]. split; [exact Hloads|].
  apply (Hstream Demo.chat_fields Hne Hloads).
Defined.

(** A stream that ends on a rate limit puts its key aside; a dropped
    connection does not. *)
Lemma stream_failure_disables_key_witness :
  snd (stream_response (env := Demo.healthy) "sk-a"
         (SNext (Demo.chunk 1) (SFail (APIError Demo.rate_limit_error)))
         Demo.three_keys)
  = disabled (env := Demo.healthy) "sk-a" None Demo.three_keys
  /\ snd (stream_response (env := Demo.healthy) "sk-a" Demo.dropped
            Demo.three_keys)
     = Demo.three_keys.
Proof.
  split.
  - apply (proj1 (stream_failure_disables_key (env := Demo.healthy) "sk-a"
                    (SNext (Demo.chunk 1) (SFail (APIError Demo.rate_limit_error)))
                    Demo.three_keys)
             (APIError Demo.rate_limit_error)).
    + reflexivity.
    + reflexivity.
    + discriminate.
  - apply (proj2 (stream_failure_disables_key (env := Demo.healthy) "sk-a"
                    Demo.dropped Demo.three_keys)).
    intros e He. injection He as <-. left. reflexivity.
Defined.

(** A field named extra_body stops the request before the call. *)
Lemma colliding_keyword_is_an_error_witness :
  exists name,
    (name = "extra_headers" \/ name = "extra_body")
    /\ handle_chat_completions (env := Demo.healthy) 1 "sk-a" Demo.chat_request
         (Some Cases.colliding_fields) (JBool false) Cases.two_keys
       = Some (Raise (HTTPException 500
                        ("Error processing chat completion: "
                           ++ "create() got multiple values for keyword argument '"
                           ++ name ++ "'")),
               Cases.two_keys).
Proof.
  apply (colliding_keyword_is_an_error (env := Demo.healthy) 0 "sk-a"
           Demo.chat_request Cases.colliding_fields (JBool false)
           Cases.two_keys).
  right. reflexivity.
Defined.

(** A price in euros cannot be relayed. *)
Lemma relay_fails_iff_witness :
  (exists e, relay_binary Cases.priced_response = Raise e)
  /\ exists detail,
      httpx_handlers
        (PyError UnicodeEncodeError "'latin-1' codec can't encode character")
        Cases.two_keys
      = (Raise (HTTPException 500 detail), Cases.two_keys).
Proof.
  split.
  - apply (proj2 (proj1 (proj2 (relay_fails_iff Cases.priced_response)))).
    eexists. reflexivity.
  - apply (proj2 (proj2 (relay_fails_iff Cases.priced_response))
             _ Cases.two_keys eq_refl).
Defined.

(** A header value in UTF-8 within latin-1 is relayed in latin-1, under
    its lowered name. *)
Example accented_header_is_recoded :
  relay Cases.accented_response
  = Ok (PlainResponse "{}" 200
          [("x-name", String (ascii_of_nat 233) EmptyString)] None).
Proof. reflexivity. Qed.

